(** * spotify-data-retrieval: the cron wrapper, the notebook helper and the Loader

    Definitions come first.

    - [Text], [Bash] and [Shell]: strings, the builtins that the wrapper
      calls ([read], [export], [echo -e]) and the state they act on, a
      variable store and a file system whose only write is the append
      of [>>].
    - [RunMain] embeds [run_main.sh], statement by statement; the exit
      status [$?] is part of the state, and the external commands
      ([date], the [source]d activation script, [python3]) are oracles of
      the surrounding world.
    - [Notebook] embeds the code cells of [visualization/common.ipynb]
      that read the configuration and run SQL, Python exceptions being an
      explicit result type.
    - [Loader] holds the insert-or-ignore write of the pipeline, which the
      repository keeps in [main.py].

    The properties follow, a module for each part. *)

From Stdlib Require Import ZArith NArith Ascii String List Lia.
From stdpp Require Import base option list gmap strings fin_maps.

Local Open Scope string_scope.

(** ** Text helpers shared by the three parts *)

Module Text.

Definition nl : ascii := "010"%char.

Definition code (c : ascii) : nat := nat_of_ascii c.

Definition in_range (lo hi : nat) (c : ascii) : bool :=
  (lo <=? code c)%nat && (code c <=? hi)%nat.

Definition is_upper : ascii -> bool := in_range 65 90.
Definition is_lower : ascii -> bool := in_range 97 122.
Definition is_digit : ascii -> bool := in_range 48 57.

Fixpoint all_chars (p : ascii -> bool) (s : string) : bool :=
  match s with
  | EmptyString => true
  | String c r => p c && all_chars p r
  end.

Definition starts_with (c : ascii) (s : string) : bool :=
  match s with
  | EmptyString => false
  | String d _ => Ascii.eqb c d
  end.

Fixpoint ends_with (c : ascii) (s : string) : bool :=
  match s with
  | EmptyString => false
  | String d EmptyString => Ascii.eqb c d
  | String _ r => ends_with c r
  end.

Definition is_empty (s : string) : bool :=
  match s with EmptyString => true | String _ _ => false end.

Fixpoint has_char (c : ascii) (s : string) : bool :=
  match s with
  | EmptyString => false
  | String d r => Ascii.eqb c d || has_char c r
  end.

(** [cut c s] splits [s] at its first [c]: the text before it, and the
    text after it when there is one. *)
Fixpoint cut (c : ascii) (s : string) : string * option string :=
  match s with
  | EmptyString => (EmptyString, None)
  | String d r =>
      if Ascii.eqb c d then (EmptyString, Some r)
      else let '(a, b) := cut c r in (String d a, b)
  end.

(** [cut_last c s] splits [s] at its last [c]. *)
Fixpoint cut_last (c : ascii) (s : string) : option (string * string) :=
  match s with
  | EmptyString => None
  | String d r =>
      match cut_last c r with
      | Some (a, b) => Some (String d a, b)
      | None => if Ascii.eqb c d then Some (EmptyString, r) else None
      end
  end.

Fixpoint drop_char (c : ascii) (s : string) : string :=
  match s with
  | EmptyString => EmptyString
  | String d r => if Ascii.eqb c d then drop_char c r else String d (drop_char c r)
  end.

Fixpoint concat_all (l : list string) : string :=
  match l with
  | [] => EmptyString
  | s :: r => s +:+ concat_all r
  end.

(** [has_suffix s x]: [x] ends with [s]. *)
Fixpoint has_suffix (s x : string) : bool :=
  String.eqb s x
  || match x with
     | EmptyString => false
     | String _ r => has_suffix s r
     end.

End Text.

(** ** The shell builtins that [run_main.sh] uses

    These follow bash (the script's interpreter, [#!/bin/bash]) from
    version 4 on, which [declare -A] asks for; each was compared with
    bash 5.2 on the inputs of the examples given further down. *)

Module Bash.
Import Text.

(** *** [IFS='=' read -r key value]

    [read] takes one line. With [-r] a backslash is an ordinary
    character, and since [IFS] holds no white space nothing is trimmed.
    The first field goes to [key]. [value] receives the rest of the line
    with its delimiters, except that a rest made of a single field closed
    by one ['='] loses that delimiter (POSIX: the line then has as many
    fields as there are variables). *)
Definition read_fields (line : string) : string * string :=
  match cut "=" line with
  | (key, None) => (key, "")
  | (key, Some rest) =>
      match cut "=" rest with
      | (field, Some "") => (key, field)
      | _ => (key, rest)
      end
  end.

(** [read] gives the loop one line per newline of its input and fails on
    what follows the last newline, which it still assigns. NUL bytes are
    dropped. [lines_of] returns the complete lines and that last, not
    terminated, piece. *)
Fixpoint lines_of (input : string) : list string * string :=
  match input with
  | EmptyString => ([], EmptyString)
  | String c r =>
      let '(ls, tail) := lines_of r in
      if Ascii.eqb c nl then (EmptyString :: ls, tail)
      else
        let keep s := if Ascii.eqb c zero then s else String c s in
        match ls with
        | [] => ([], keep tail)
        | l :: ls' => (keep l :: ls', tail)
        end
  end.

(** *** Names

    A shell name is a letter or underscore followed by letters, digits
    and underscores (ASCII only). *)
Definition name_start (c : ascii) : bool :=
  is_upper c || is_lower c || Ascii.eqb c "_".

Definition name_char (c : ascii) : bool := name_start c || is_digit c.

Definition legal_identifier (s : string) : bool :=
  match s with
  | EmptyString => false
  | String c r => name_start c && all_chars name_char r
  end.

(** The variables bash itself declares read-only at start-up. *)
Definition readonly_names : list string :=
  ["BASHOPTS"; "BASH_VERSINFO"; "EUID"; "PPID"; "SHELLOPTS"; "UID"].

Definition is_readonly (name : string) : bool :=
  bool_decide (name ∈ readonly_names).

(** The variables that bash sets itself while a script runs. An
    assignment to one of them is accepted, but what the variable holds
    afterwards, and what a child process finds under its name, is bash's
    doing ([LINES] and [COLUMNS] once a command has run in a terminal). *)
Definition computed_names : list string :=
  ["BASHOPTS"; "BASHPID"; "BASH_ALIASES"; "BASH_ARGC"; "BASH_ARGV"; "BASH_CMDS";
   "BASH_COMMAND"; "BASH_LINENO"; "BASH_REMATCH"; "BASH_SOURCE"; "BASH_SUBSHELL";
   "COLUMNS"; "DIRSTACK"; "EPOCHREALTIME"; "EPOCHSECONDS"; "FUNCNAME"; "GROUPS";
   "HISTCMD"; "LINENO"; "LINES"; "OPTIND"; "PIPESTATUS"; "RANDOM"; "SECONDS";
   "SHELLOPTS"; "SRANDOM"; "_"].

Definition is_computed (name : string) : bool :=
  bool_decide (name ∈ computed_names).

(** A name under which [export] keeps the text it is given. *)
Definition ordinary (name : string) : bool :=
  legal_identifier name && negb (is_readonly name) && negb (is_computed name).

(** *** Words that assign to an array element

    [export] takes a word [name[subscript]=text], or the same with
    [+=], for an assignment, which it then refuses. The subscript ends
    at the bracket that closes the first one, the brackets inside it
    being counted. Where the subscript holds a quote, a backslash, a
    [$] or a byte outside ASCII, bash scans it with its parser of
    quoted text, which is not embedded here: [Quoted] says so. *)
Fixpoint split_name (s : string) : string * string :=
  match s with
  | EmptyString => (EmptyString, EmptyString)
  | String c r =>
      if name_char c then let '(a, b) := split_name r in (String c a, b)
      else (EmptyString, s)
  end.

Definition quoting (c : ascii) : bool :=
  Ascii.eqb c "\" || Ascii.eqb c "`" || Ascii.eqb c "'" || Ascii.eqb c "$"
  || (code c =? 34)%nat || (128 <=? code c)%nat.

Inductive scanned :=
| Closed (after : string)
| Unclosed
| Quoted.

Fixpoint closing (depth : nat) (s : string) : scanned :=
  match s with
  | EmptyString => Unclosed
  | String c r =>
      if quoting c then Quoted
      else if Ascii.eqb c "[" then closing (S depth) r
      else if Ascii.eqb c "]" then
        match depth with
        | O => Closed r
        | S d => closing d r
        end
      else closing depth r
  end.

Definition assigns_after (after : string) : bool :=
  match after with
  | String "="%char _ => true
  | String "+"%char (String "="%char _) => true
  | _ => false
  end.

(** [parser word] is bash's answer for a word whose subscript is
    quoted. *)
Definition assigns_element (parser : string -> bool) (word : string) : bool :=
  match split_name word with
  | (String c _, String "["%char rest) =>
      name_start c
      && match closing 0 rest with
         | Closed after => assigns_after after
         | Unclosed => false
         | Quoted => parser word
         end
  | _ => false
  end.

(** *** [echo -e]

    The argument is scanned once, left to right; [esc] is what the scan
    remembers of a backslash sequence that is still open. *)
Inductive esc :=
| Plain
| Slash
| Oct (togo : nat) (acc : N)
| Hex (togo : nat) (acc : option N)
| Uni (big : bool) (togo : nat) (acc : option N)
| Stop.

Definition chr (n : N) : string := String (ascii_of_N (n mod 256)) "".

Definition oct_digit (c : ascii) : option N :=
  if in_range 48 55 c then Some (N.of_nat (code c - 48)) else None.

Definition hex_digit (c : ascii) : option N :=
  if is_digit c then Some (N.of_nat (code c - 48))
  else if in_range 65 70 c then Some (N.of_nat (code c - 55))
  else if in_range 97 102 c then Some (N.of_nat (code c - 87))
  else None.

Definition backslash : ascii := "\"%char.

Section Echo.
(** The bytes that the locale gives for a code point written [\uHHHH]
    or [\UHHHHHHHH]. *)
Variable wctomb : N -> string.

(** What a sequence emits when the scan leaves it. *)
Definition flush (st : esc) : string :=
  match st with
  | Plain | Stop => ""
  | Slash => "\"
  | Oct _ acc => chr acc
  | Hex _ None => "\x"
  | Hex _ (Some n) => chr n
  | Uni false _ None => "\u"
  | Uni true _ None => "\U"
  | Uni _ _ (Some n) => wctomb n
  end.

Definition plain_step (c : ascii) : string * esc :=
  if Ascii.eqb c backslash then ("", Slash) else (String c "", Plain).

Definition slash_step (c : ascii) : string * esc :=
  match c with
  | "a"%char => (chr 7, Plain)
  | "b"%char => (chr 8, Plain)
  | "c"%char => ("", Stop)
  | "e"%char | "E"%char => (chr 27, Plain)
  | "f"%char => (chr 12, Plain)
  | "n"%char => (chr 10, Plain)
  | "r"%char => (chr 13, Plain)
  | "t"%char => (chr 9, Plain)
  | "v"%char => (chr 11, Plain)
  | "\"%char => ("\", Plain)
  | "0"%char => ("", Oct 3 0)
  | "x"%char => ("", Hex 2 None)
  | "u"%char => ("", Uni false 4 None)
  | "U"%char => ("", Uni true 8 None)
  | _ => (String backslash (String c ""), Plain)
  end.

(** After a digit [d] of a numeric sequence that had [togo] digits to
    go: close the sequence when that was its last one. *)
Definition more (togo : nat) (open : nat -> esc) : string * esc :=
  match togo with
  | S (S k) => ("", open (S k))
  | _ => (flush (open 0%nat), Plain)
  end.

Definition leave (st : esc) (c : ascii) : string * esc :=
  let '(out, st') := plain_step c in (flush st +:+ out, st').

Definition step (st : esc) (c : ascii) : string * esc :=
  match st with
  | Stop => ("", Stop)
  | Plain => plain_step c
  | Slash => slash_step c
  | Oct togo acc =>
      match oct_digit c with
      | Some d => more togo (fun k => Oct k (acc * 8 + d))
      | None => leave st c
      end
  | Hex togo acc =>
      match hex_digit c with
      | Some d => more togo (fun k => Hex k (Some (default 0%N acc * 16 + d)%N))
      | None => leave st c
      end
  | Uni big togo acc =>
      match hex_digit c with
      | Some d => more togo (fun k => Uni big k (Some (default 0%N acc * 16 + d)%N))
      | None => leave st c
      end
  end.

Fixpoint scan (st : esc) (s : string) : string :=
  match s with
  | EmptyString =>
      match st with
      | Stop => ""
      | _ => flush st +:+ String nl ""
      end
  | String c r => let '(out, st') := step st c in out +:+ scan st' r
  end.

(** [echo_e arg]: the bytes that [echo -e "arg"] writes, the final
    newline included unless a [\c] cut the output short. *)
Definition echo_e (arg : string) : string := scan Plain arg.
End Echo.

End Bash.

(** ** The state of the shell *)

Module Shell.
Import Text Bash.

(** *** Variables

    A variable holds a string, an indexed array (kept dense, which is all
    this script builds) or an associative array, and may carry the export
    attribute. The read-only variables are those of [readonly_names].
    The store does not follow the variables of [computed_names]: what it
    holds under these names is not looked at, and the environment of a
    child process is described without them. *)
Inductive value :=
| Scalar (s : string)
| Indexed (items : list string)
| Assoc (pairs : list (string * string)).

Record var := Var { v_value : value; v_export : bool }.

Fixpoint assoc_get (k : string) (pairs : list (string * string)) : option string :=
  match pairs with
  | [] => None
  | (k', x) :: r => if String.eqb k k' then Some x else assoc_get k r
  end.

Fixpoint assoc_del (k : string) (pairs : list (string * string)) : list (string * string) :=
  match pairs with
  | [] => []
  | (k', x) :: r => if String.eqb k k' then assoc_del k r else (k', x) :: assoc_del k r
  end.

(** [$name] on an array is its element 0. *)
Definition first_item (v : value) : string :=
  match v with
  | Scalar s => s
  | Indexed l => hd "" l
  | Assoc kv => default "" (assoc_get "0" kv)
  end.

(** [name=s] on an array assigns its element 0. *)
Definition set_first (s : string) (old : value) : value :=
  match old with
  | Scalar _ => Scalar s
  | Indexed l => Indexed (s :: tl l)
  | Assoc kv => Assoc (("0", s) :: assoc_del "0" kv)
  end.

(** ["$name"] *)
Definition expand (name : string) (st : gmap string var) : string :=
  match st !! name with
  | Some v => first_item (v_value v)
  | None => ""
  end.

(** ["${name[@]}"] *)
Definition elements (name : string) (st : gmap string var) : list string :=
  match st !! name with
  | Some (Var (Scalar s) _) => [s]
  | Some (Var (Indexed l) _) => l
  | Some (Var (Assoc kv) _) => map snd kv
  | None => []
  end.

(** [name=s]; the second component is the status. *)
Definition assign (name s : string) (st : gmap string var) : gmap string var * Z :=
  if is_readonly name then (st, 1%Z)
  else
    let v := match st !! name with
             | Some (Var old e) => Var (set_first s old) e
             | None => Var (Scalar s) false
             end in
    (<[name := v]> st, 0%Z).

(** [name+=(items)]. For an associative array the items are taken
    two by two as key and value, a last one alone as a key with an
    empty value (bash 5.1 and later; before, the assignment fails). *)
Fixpoint pair_up (items : list string) : list (string * string) :=
  match items with
  | k :: v :: r => (k, v) :: pair_up r
  | [k] => [(k, "")]
  | [] => []
  end.

Definition assoc_set (kv : list (string * string)) (p : string * string)
  : list (string * string) :=
  p :: assoc_del (fst p) kv.

Definition append_items (name : string) (new : list string) (st : gmap string var)
  : gmap string var * Z :=
  if is_readonly name then (st, 1%Z)
  else
    match st !! name with
    | None => (<[name := Var (Indexed new) false]> st, 0%Z)
    | Some (Var (Scalar s) e) => (<[name := Var (Indexed (s :: new)) e]> st, 0%Z)
    | Some (Var (Indexed l) e) => (<[name := Var (Indexed (l ++ new)) e]> st, 0%Z)
    | Some (Var (Assoc kv) e) =>
        (<[name := Var (Assoc (fold_left assoc_set (pair_up new) kv)) e]> st, 0%Z)
    end.

(** [declare -A name=(pairs)] *)
Definition declare_assoc (name : string) (pairs : list (string * string))
    (st : gmap string var) : gmap string var * Z :=
  if is_readonly name then (st, 1%Z)
  else
    match st !! name with
    | Some (Var (Indexed _) _) => (st, 1%Z)
    | Some (Var _ e) => (<[name := Var (Assoc pairs) e]> st, 0%Z)
    | None => (<[name := Var (Assoc pairs) false]> st, 0%Z)
    end.

(** bash is in POSIX mode while [POSIXLY_CORRECT] is set, whatever it
    holds and whether it was inherited or assigned later. *)
Definition posix (st : gmap string var) : bool :=
  bool_decide (is_Some (st !! "POSIXLY_CORRECT")).

(** What [export] makes of one operand [name=text]. *)
Inductive verdict :=
| Sets (name s : string)   (* the variable gets the value and the export attribute *)
| Marks (name : string)    (* read-only: the value is refused, the attribute is set *)
| Own (name : string)      (* one of [computed_names]: accepted *)
| Refused.                 (* not the name of a variable *)

(** The variable that an operand names: [name] itself, or [base] in
    the appending form [base+]. *)
Definition operand_name (name : string) : option string :=
  if legal_identifier name then Some name
  else
    match cut_last "+" name with
    | Some (base, "") => if legal_identifier base then Some base else None
    | _ => None
    end.

Definition export_target (name text : string) (st : gmap string var) : verdict :=
  match operand_name name with
  | Some n =>
      if is_readonly n then Marks n
      else if is_computed n then Own n
      else Sets n (if legal_identifier name then text else expand n st +:+ text)
  | None => Refused
  end.

Definition set_exported (name s : string) (st : gmap string var) : gmap string var :=
  match st !! name with
  | Some (Var old _) => <[name := Var (set_first s old) true]> st
  | None => <[name := Var (Scalar s) true]> st
  end.

Definition mark_exported (name : string) (st : gmap string var) : gmap string var :=
  match st !! name with
  | Some (Var old _) => <[name := Var old true]> st
  | None => st
  end.

(** [export "word"]: a word that starts with a dash is taken for
    options, and none of the shapes [-...=...] is a valid one (status
    2); otherwise the word is [name=text], or a bare name. *)
Definition export_word (word : string) (st : gmap string var) : gmap string var * Z :=
  if starts_with "-" word then (st, 2%Z)
  else
    match cut "=" word with
    | (name, Some text) =>
        match export_target name text st with
        | Sets n s => (set_exported n s st, 0%Z)
        | Marks n => (mark_exported n st, 1%Z)
        | Own _ => (st, 0%Z)
        | Refused => (st, 1%Z)
        end
    | (name, None) =>
        if legal_identifier name then (mark_exported name st, 0%Z) else (st, 1%Z)
    end.

(** The failures of [export] that end a shell in POSIX mode, [export]
    being one of the special builtins: an invalid option, and an
    assignment that is refused, to a read-only variable or to an array
    element. A word that is no assignment at all (as [my-key=1]) only
    fails. *)
Definition export_fatal (parser : string -> bool) (word : string) (st : gmap string var)
  : bool :=
  starts_with "-" word
  || match cut "=" word with
     | (name, Some text) =>
         match export_target name text st with
         | Marks _ => true
         | Refused => assigns_element parser word
         | _ => false
         end
     | (_, None) => false
     end.

(** [cd] to the directory [dir]: [OLDPWD] takes what [PWD] held and
    [PWD] the new directory; both are exported from the start of the
    shell. *)
Definition moved_to (dir : string) (st : gmap string var) : gmap string var :=
  set_exported "PWD" dir (set_exported "OLDPWD" (expand "PWD" st) st).

(** The environment a child process receives: the exported strings,
    those of [computed_names] apart. *)
Definition environ (st : gmap string var) : gmap string string :=
  map_imap (fun name v =>
              if is_computed name then None
              else match v with Var (Scalar s) true => Some s | _ => None end) st.

Definition inherit (env : gmap string string) : gmap string var :=
  (fun s => Var (Scalar s) true) <$> env.

(** *** Files

    Paths are compared as written (no [.], [..] or doubled slashes are
    resolved). [fs_noperm] lists the paths the user may not enter or
    write. *)
Record filesys := FS {
  fs_dirs : gset string;
  fs_files : gmap string string;
  fs_noperm : gset string }.

Definition abs (cwd p : string) : string :=
  if starts_with "/" p then p else cwd +:+ "/" +:+ p.

Definition dirname (p : string) : string :=
  match cut_last "/" p with
  | Some ("", _) => "/"
  | Some (d, _) => d
  | None => "."
  end.

Definition is_dir (fs : filesys) (q : string) : bool := bool_decide (q ∈ fs_dirs fs).
Definition is_file (fs : filesys) (q : string) : bool :=
  bool_decide (is_Some (fs_files fs !! q)).
Definition allowed (fs : filesys) (q : string) : bool := bool_decide (q ∉ fs_noperm fs).

(** [>> q] opens [q] for appending, creating it in an existing
    directory; the directory of [q] must be one that may be entered. *)
Definition can_append (fs : filesys) (q : string) : bool :=
  allowed fs q && negb (is_dir fs q) && negb (ends_with "/" q)
  && allowed fs (dirname q) && (is_file fs q || is_dir fs (dirname q)).

Definition append_file (q text : string) (fs : filesys) : filesys :=
  FS (fs_dirs fs)
     (<[q := default "" (fs_files fs !! q) +:+ text]> (fs_files fs))
     (fs_noperm fs).

End Shell.

(** ** [run_main.sh] *)

Module RunMain.
Import Text Bash Shell.

(** What the wrapper does that is visible from outside, in order. *)
Inductive event :=
| Echo (file arg : string)                              (* [echo -e "arg" >> file] wrote *)
| Denied (file : string)                                 (* a redirection could not open [file] *)
| Sourced (file : string)                                (* [source file] *)
| Python3 (script file output : string) (status : Z).   (* [python3 script >> file 2>&1] ran *)

(** The surroundings of one invocation. [w_vars] holds the variables
    of the shell when it comes to the first line of the script: those
    of the inherited environment, exported, and those that bash sets up
    at its start ([PWD], [SHLVL], [UID] and the like). The external
    programs are oracles: [w_date utc n] is what the [n]-th call of
    [date] prints in the format the script asks for ([-u] when [utc]);
    [w_source] is the effect of the activation script, given by its
    text, on the variables; [w_python3 n env script] is the output
    (both streams) and exit status of the [n]-th [python3] run;
    [w_element] is bash's parser of quoted subscripts (see
    [assigns_element]). What the wrapper's own standard error receives
    (the complaints of [cd] and [export]) is not kept. *)
Record world := World {
  w_vars : gmap string var;
  w_cwd : string;
  w_fs : filesys;
  w_stdin : string;
  w_date : bool -> nat -> string;
  w_wctomb : N -> string;
  w_element : string -> bool;
  w_source : string -> gmap string var -> gmap string var;
  w_python3 : nat -> gmap string string -> string -> string * Z }.

Record machine := Machine {
  m_vars : gmap string var;
  m_cwd : string;
  m_fs : filesys;
  m_stdin : string;       (* what is left on the wrapper's standard input *)
  m_dates : nat;          (* calls of [date] so far *)
  m_runs : nat;           (* runs of [python3] so far *)
  m_trace : list event;
  m_status : Z }.         (* [$?] *)

Definition boot (w : world) : machine :=
  Machine (w_vars w) (w_cwd w) (w_fs w) (w_stdin w) 0 0 [] 0.

Definition with_vars (m : machine) (st : gmap string var * Z) : machine :=
  Machine (fst st) (m_cwd m) (m_fs m) (m_stdin m) (m_dates m) (m_runs m) (m_trace m) (snd st).

Definition with_status (m : machine) (z : Z) : machine :=
  Machine (m_vars m) (m_cwd m) (m_fs m) (m_stdin m) (m_dates m) (m_runs m) (m_trace m) z.

Definition with_cwd (m : machine) (d : string) : machine :=
  Machine (m_vars m) d (m_fs m) (m_stdin m) (m_dates m) (m_runs m) (m_trace m) 0.

Definition with_dates (m : machine) (n : nat) : machine :=
  Machine (m_vars m) (m_cwd m) (m_fs m) (m_stdin m) n (m_runs m) (m_trace m) (m_status m).

Definition logged (m : machine) (e : event) (z : Z) : machine :=
  Machine (m_vars m) (m_cwd m) (m_fs m) (m_stdin m) (m_dates m) (m_runs m)
          (m_trace m ++ [e]) z.

Definition wrote (m : machine) (q text : string) : machine :=
  Machine (m_vars m) (m_cwd m) (append_file q text (m_fs m)) (m_stdin m)
          (m_dates m) (m_runs m) (m_trace m) (m_status m).

Definition ran (m : machine) : machine :=
  Machine (m_vars m) (m_cwd m) (m_fs m) (m_stdin m) (m_dates m) (S (m_runs m))
          (m_trace m) (m_status m).

(** A command either lets the script go on or ends it: [exit n], or a
    failure that is fatal to the shell. *)
Inductive outcome :=
| Go (m : machine)
| Halt (code : Z) (m : machine).

Definition cmd := machine -> outcome.

Definition last_state (o : outcome) : machine :=
  match o with Go m => m | Halt _ m => m end.

(** The exit code of the process: that of [exit], or the status of the
    last command when the script runs off its end. *)
Definition exit_code (o : outcome) : Z :=
  match o with Go m => m_status m | Halt z _ => z end.

Definition skip : cmd := fun m => Go m.

Definition pass : cmd := fun m => Go (with_status m 0).

Definition exit_ (z : Z) : cmd := fun m => Halt z m.

Definition seq (c1 c2 : cmd) : cmd :=
  fun m => match c1 m with Go m' => c2 m' | Halt z m' => Halt z m' end.

Declare Scope cmd_scope.
Delimit Scope cmd_scope with cmd.
Notation "c1 ;; c2" := (seq c1 c2)
  (at level 100, c2 at level 200, right associativity) : cmd_scope.
Local Open Scope cmd_scope.

(** [if test; then c1; else c2; fi] *)
Definition ite (test : machine -> bool) (c1 c2 : cmd) : cmd :=
  fun m => if test m then c1 m else c2 m.

(** [c1 || c2] *)
Definition or_else (c1 c2 : cmd) : cmd :=
  fun m =>
    match c1 m with
    | Go m' => if Z.eqb (m_status m') 0 then Go m' else c2 m'
    | Halt z m' => Halt z m'
    end.

(** *** Words

    A double-quoted word of the script: literal text, [$name]
    references and [$(date ...)] substitutions. Backslashes stay as they
    are between double quotes (no word of the script has the pairs that
    the quotes treat specially), so the literals are the script's. *)
Inductive piece :=
| Lit (s : string)
| Ref (name : string)
| Date (utc : bool).

Fixpoint dates_in (word : list piece) : nat :=
  match word with
  | [] => 0
  | Date _ :: r => S (dates_in r)
  | _ :: r => dates_in r
  end.

Section Commands.
Variable w : world.

(** The expansion of a word when [n] calls of [date] were made. *)
Fixpoint expansion (word : list piece) (st : gmap string var) (n : nat) : string :=
  match word with
  | [] => ""
  | Lit s :: r => s +:+ expansion r st n
  | Ref name :: r => expand name st +:+ expansion r st n
  | Date utc :: r => w_date w utc n +:+ expansion r st (S n)
  end.

Definition text (word : list piece) (m : machine) : string :=
  expansion word (m_vars m) (m_dates m).

Definition expanded (word : list piece) (m : machine) : machine :=
  with_dates m (m_dates m + dates_in word).

(** *** Simple commands *)

(** [name="word"] *)
Definition set_var (name : string) (v : list piece) : cmd :=
  fun m => Go (with_vars (expanded v m) (assign name (text v m) (m_vars m))).

(** [echo -e "arg" >> "target"]: when the target cannot be opened
    nothing is written and the status is 1. *)
Definition echo_to (arg target : list piece) : cmd :=
  fun m =>
    let a := text arg m in
    let m1 := expanded arg m in
    let p := text target m1 in
    let m2 := expanded target m1 in
    let q := abs (m_cwd m2) p in
    if negb (is_empty p) && can_append (m_fs m2) q
    then Go (logged (wrote m2 q (echo_e (w_wctomb w) a)) (Echo q a) 0)
    else Go (logged m2 (Denied q) 1).

(** [python3 "script" >> "target" 2>&1]: the program is not started
    when the target cannot be opened. *)
Definition python3_to (script target : list piece) : cmd :=
  fun m =>
    let s := text script m in
    let m1 := expanded script m in
    let p := text target m1 in
    let m2 := expanded target m1 in
    let q := abs (m_cwd m2) p in
    if negb (is_empty p) && can_append (m_fs m2) q
    then
      let '(out, z) := w_python3 w (m_runs m2) (environ (m_vars m2)) s in
      Go (logged (ran (wrote m2 q out)) (Python3 s q out z) z)
    else Go (logged m2 (Denied q) 1).

(** [cd "dir"] *)
Definition cd (dir : list piece) : cmd :=
  fun m =>
    let p := text dir m in
    let m1 := expanded dir m in
    let q := abs (m_cwd m1) p in
    if negb (is_empty p) && is_dir (m_fs m1) q && allowed (m_fs m1) q
    then Go (with_cwd (with_vars m1 (moved_to q (m_vars m1), 0%Z)) q)
    else Go (with_status m1 1).

(** [source "file"]: a file that is there is read, whether it may be
    is not looked at. *)
Definition source (file : list piece) : cmd :=
  fun m =>
    let p := text file m in
    let m1 := expanded file m in
    let q := abs (m_cwd m1) p in
    match fs_files (m_fs m1) !! q with
    | Some script_text =>
        Go (logged (with_vars m1 (w_source w script_text (m_vars m1), 0%Z)) (Sourced q) 0)
    | None => Go (with_status m1 1)
    end.

(** [export "word"]: in POSIX mode a failure of [export_fatal] ends
    the shell, with the status of the command. *)
Definition export (v : list piece) : cmd :=
  fun m =>
    let m' := with_vars (expanded v m) (export_word (text v m) (m_vars m)) in
    if posix (m_vars m) && export_fatal (w_element w) (text v m) (m_vars m)
    then Halt (m_status m') m'
    else Go m'.

(** [[ -d "path" ]] and [[ -f "path" ]] *)
Definition test_d (path : list piece) : machine -> bool :=
  fun m => let p := text path m in
           negb (is_empty p) && is_dir (m_fs m) (abs (m_cwd m) p).

Definition test_f (path : list piece) : machine -> bool :=
  fun m => let p := text path m in
           negb (is_empty p) && is_file (m_fs m) (abs (m_cwd m) p).

(** *** The loop over [.env] (lines 35 to 40)

    [read] assigns [key] and [value]; the body exports when [key] does
    not match [^#] and is not empty. *)
Definition read_into (line : string) : cmd :=
  fun m =>
    let '(k, v) := read_fields line in
    let st := fst (assign "value" v (fst (assign "key" k (m_vars m)))) in
    Go (with_vars m (st, m_status m)).

Definition wanted (m : machine) : bool :=
  negb (starts_with "#" (text [Ref "key"] m)) && negb (is_empty (text [Ref "key"] m)).

Definition env_body : cmd :=
  ite wanted (export [Ref "key"; Lit "="; Ref "value"]) pass.

Fixpoint while_read (lines : list string) : cmd :=
  match lines with
  | [] => skip
  | l :: r => read_into l ;; env_body ;; while_read r
  end.

(** [while ...; done < "file"]: the loop reads [file], not the
    wrapper's standard input. The [read] that meets the end of the
    file still assigns what was left after the last newline, and ends
    the loop. *)
Definition load_env (file : list piece) : cmd :=
  fun m =>
    let p := text file m in
    let m1 := expanded file m in
    let q := abs (m_cwd m1) p in
    match fs_files (m_fs m1) !! q with
    | Some content =>
        if allowed (m_fs m1) q then
          let '(ls, rest) := lines_of content in
          (while_read ls ;; read_into rest) (with_status m1 0)
        else Go (logged m1 (Denied q) 1)
    | None => Go (logged m1 (Denied q) 1)
    end.

(** *** [for name in "${list[@]}"; do body; done] *)
Fixpoint for_each (name : string) (items : list string) (body : cmd) : cmd :=
  match items with
  | [] => skip
  | x :: r => set_var name [Lit x] ;; body ;; for_each name r body
  end.

Definition for_in (name list : string) (body : cmd) : cmd :=
  fun m => for_each name (elements list (m_vars m)) body (with_status m 0).

(** [declare -A name=(pairs)] and [name+=(items)] *)
Definition declare_A (name : string) (pairs : list (string * string)) : cmd :=
  fun m => Go (with_vars m (declare_assoc name pairs (m_vars m))).

Definition append_to (name : string) (items : list string) : cmd :=
  fun m => Go (with_vars m (append_items name items (m_vars m))).

(** *** The script *)

Definition code_dir : string :=
  "/Users/dishen/Documents/dishen/atliq/python/spotify-data-retrieval".

Definition log_file : string := code_dir +:+ "/run_main.log".

Definition log : list piece := [Ref "CRON_LOG_FILE"].

Definition start_banner : string :=
  "\n\n\n--------------------------------------------- CRON START LOGS ---------------------------------------------\n".

Definition script_banner : string :=
  "\n\n\n --------------------------------------------- CRON START LOGS ---------------------------------------------\n".

Definition end_banner : string :=
  "\n--------------------------------------------- CRON END LOGS --------------------------------------------- \n\n\n".

(** Lines 4 to 15 *)
Definition enter_code_dir : cmd :=
  set_var "CODE_DIR" [Lit code_dir] ;;
  set_var "CRON_LOG_FILE" [Ref "CODE_DIR"; Lit "/run_main.log"] ;;
  echo_to [Lit start_banner] log ;;
  ite (test_d [Ref "CODE_DIR"])
    (or_else (cd [Ref "CODE_DIR"])
       (echo_to [Lit "\n\nFailed to navigate to "; Ref "CODE_DIR"] log ;; exit_ 1))
    (echo_to [Lit "Directory "; Ref "CODE_DIR"; Lit " does not exist!"] log ;;
     exit_ 1).

(** Lines 18 to 30 *)
Definition activate_venv : cmd :=
  echo_to [Lit "\n\n"; Date false; Lit " - Starting run_main.sh"] log ;;
  set_var "PYTHON_VENV" [Ref "CODE_DIR"; Lit "/venv/bin/activate"] ;;
  ite (test_f [Ref "PYTHON_VENV"])
    (echo_to [Lit "\n\nActivating virtual environment: "; Ref "PYTHON_VENV"] log ;;
     source [Ref "PYTHON_VENV"])
    (echo_to [Lit "\n\nVirtual environment activation script not found at ";
              Ref "PYTHON_VENV"; Lit "!"] log ;;
     exit_ 1).

(** Lines 33 to 44 *)
Definition load_dotenv : cmd :=
  ite (test_f [Lit ".env"])
    (load_env [Lit ".env"])
    (echo_to [Lit "\n\n.env file not found in "; Ref "CODE_DIR"; Lit "!"] log ;;
     exit_ 1).

(** Lines 55 to 71, the body of the [for] loop *)
Definition run_script : cmd :=
  set_var "script_path" [Ref "CODE_DIR"; Lit "/"; Ref "script"] ;;
  ite (test_f [Ref "script_path"])
    (echo_to [Lit "Running python file: "; Ref "script_path"] log ;;
     echo_to [Lit script_banner] log ;;
     echo_to [Lit "\n\n"; Date true; Lit " - Starting "; Ref "script"] log ;;
     python3_to [Ref "script_path"] log ;;
     echo_to [Lit "\n\n"; Date true; Lit " - Finished "; Ref "script"] log ;;
     echo_to [Lit end_banner] log)
    (echo_to [Lit "\n\n Script "; Ref "script_path"; Lit " not found!"] log).

(** Lines 47 to 73 *)
Definition run_scripts : cmd :=
  declare_A "scripts" [("main.py", "main.log")] ;;
  append_to "scripts_to_run" ["main.py"] ;;
  for_in "script" "scripts_to_run" run_script.

(** Lines 75 and 76 *)
Definition finish : cmd :=
  echo_to [Lit "\n\n"; Date true; Lit " - Finished run_main.sh"] log ;;
  echo_to [Lit end_banner] log.

(** Everything up to and including the loading of [.env]. *)
Definition prepare : cmd := enter_code_dir ;; activate_venv ;; load_dotenv.

Definition script : cmd := prepare ;; run_scripts ;; finish.

End Commands.

(** One invocation of the wrapper in the world [w]. *)
Definition run_main (w : world) : outcome := script w (boot w).

(** The variables as the loading of [.env] leaves them. *)
Definition vars_after_env (w : world) : gmap string var :=
  m_vars (last_state (prepare w (boot w))).


(** *** What the loop over [.env] is for, line by line

    The effect on the variables of one line that [read] delivers, told
    without the words of the [export] command: the line's fields are
    left in [key] and [value], and when the key is not empty and does
    not begin with [#], the variable that [export] accepts under that
    key (see [export_target]) is set and exported; a read-only one is
    exported with the value it has. *)
Definition key_wanted (k : string) : bool :=
  negb (is_empty k) && negb (starts_with "#" k).

Definition line_effect (line : string) (st : gmap string var) : gmap string var :=
  let '(k, v) := read_fields line in
  let st1 := fst (assign "value" v (fst (assign "key" k st))) in
  if key_wanted k then
    match export_target k v st1 with
    | Sets n s => set_exported n s st1
    | Marks n => mark_exported n st1
    | Own _ | Refused => st1
    end
  else st1.

(** Whether the turn of the loop for [line] ends the shell, and the
    status that the turn leaves. *)
Definition line_fatal (parser : string -> bool) (line : string) (st : gmap string var)
  : bool :=
  let '(k, v) := read_fields line in
  let st1 := fst (assign "value" v (fst (assign "key" k st))) in
  key_wanted k && posix st1 && export_fatal parser (k +:+ "=" +:+ v) st1.

Definition line_status (line : string) (st : gmap string var) : Z :=
  let '(k, v) := read_fields line in
  let st1 := fst (assign "value" v (fst (assign "key" k st))) in
  if key_wanted k then snd (export_word (k +:+ "=" +:+ v) st1) else 0%Z.

(** The loop over the lines, as far as the variables go: where it
    leaves them, and the status with which it ends the shell if it
    does. *)
Fixpoint lines_effect (parser : string -> bool) (lines : list string)
    (st : gmap string var) : gmap string var * option Z :=
  match lines with
  | [] => (st, None)
  | line :: r =>
      if line_fatal parser line st
      then (line_effect line st, Some (line_status line st))
      else lines_effect parser r (line_effect line st)
  end.

(** The value that [read] leaves for the text [rest] after the first
    ['=']: [rest] itself, or [rest] without its last character. *)
Fixpoint occurrences (c : ascii) (s : string) : nat :=
  match s with
  | EmptyString => 0
  | String d r => (if Ascii.eqb c d then 1 else 0) + occurrences c r
  end.

Fixpoint chop (s : string) : string :=
  match s with
  | EmptyString => EmptyString
  | String _ EmptyString => EmptyString
  | String c r => String c (chop r)
  end.

Definition closes_one_field (rest : string) : bool :=
  ends_with "=" rest && Nat.eqb (occurrences "=" rest) 1.

(** *** Reading the trace *)
Definition is_python3 (e : event) : bool :=
  match e with Python3 _ _ _ _ => true | _ => false end.

Definition python3_runs (trace : list event) : nat :=
  length (List.filter is_python3 trace).

Definition start_marker (timestamp : string) : string :=
  "\n\n" +:+ timestamp +:+ " - Starting run_main.sh".

Definition end_marker (timestamp : string) : string :=
  "\n\n" +:+ timestamp +:+ " - Finished run_main.sh".

(** The three things the wrapper insists on before it runs anything. *)
Definition venv_file : string := code_dir +:+ "/venv/bin/activate".
Definition env_file : string := code_dir +:+ "/.env".

Definition dir_ok (w : world) : bool :=
  is_dir (w_fs w) code_dir && allowed (w_fs w) code_dir.
Definition venv_ok (w : world) : bool := is_file (w_fs w) venv_file.
Definition env_ok (w : world) : bool := is_file (w_fs w) env_file.

Definition checks_pass (w : world) : bool := dir_ok w && venv_ok w && env_ok w.

(** The contents of a file, a missing one counting as empty. *)
Definition contents (fs : filesys) (q : string) : string :=
  default "" (fs_files fs !! q).

(** *** Comparing two states of the run *)

(** [fs'] is [fs] with text appended to some files: the same
    directories and permissions, no file lost, and every file (a missing
    one counting as empty) keeps its old contents as a prefix. *)
Definition grows (fs fs' : filesys) : Prop :=
  fs_dirs fs' = fs_dirs fs
  /\ fs_noperm fs' = fs_noperm fs
  /\ forall q, (is_Some (fs_files fs !! q) -> is_Some (fs_files fs' !! q))
               /\ exists added, contents fs' q = contents fs q +:+ added.

(** [m'] comes after [m]: the files have grown, standard input is
    where it was, the trace is longer, by at most [n] runs of
    [python3]. *)
Definition within (n : nat) (m m' : machine) : Prop :=
  grows (m_fs m) (m_fs m')
  /\ m_stdin m' = m_stdin m
  /\ exists events, m_trace m' = (m_trace m ++ events)%list /\ python3_runs events <= n.

Definition bounded (n : nat) (c : cmd) : Prop :=
  forall m, within n m (last_state (c m)).

(** A command that never ends the script. *)
Definition goes_on (c : cmd) : Prop := forall m, exists m', c m = Go m'.

(** [m'] is [m] but for the log file, the trace, the status and the
    count of [date] calls. *)
Definition calm (m m' : machine) : Prop :=
  m_vars m' = m_vars m
  /\ m_cwd m' = m_cwd m
  /\ forall q, q <> log_file -> fs_files (m_fs m') !! q = fs_files (m_fs m) !! q.

(** *** Where the run stands between its stages *)

(** The files of [m] are those of the world, the log file apart. *)
Definition like (w : world) (m : machine) : Prop :=
  fs_dirs (m_fs m) = fs_dirs (w_fs w)
  /\ fs_noperm (m_fs m) = fs_noperm (w_fs w)
  /\ forall q, q <> log_file -> fs_files (m_fs m) !! q = fs_files (w_fs w) !! q.

(** Between line 15 and the [source] of line 26. *)
Definition home (w : world) (m : machine) : Prop :=
  expand "CODE_DIR" (m_vars m) = code_dir
  /\ expand "CRON_LOG_FILE" (m_vars m) = log_file
  /\ m_cwd m = code_dir
  /\ like w m.

(** From line 26 on. *)
Definition settled (w : world) (m : machine) : Prop := m_cwd m = code_dir /\ like w m.

(** The start marker of line 18 went into the log file, if that could
    be opened. *)
Definition started (w : world) (m m' : machine) : Prop :=
  can_append (m_fs m) log_file = true ->
  In (Echo log_file (start_marker (w_date w false (m_dates m)))) (m_trace m')
  /\ exists added,
       contents (m_fs m') log_file
       = contents (m_fs m) log_file
         +:+ echo_e (w_wctomb w) (start_marker (w_date w false (m_dates m))) +:+ added.


(** *** End markers in the trace *)

Definition finished : string := " - Finished run_main.sh".

(** An [echo] whose text ends as the end marker of line 75 does. *)
Definition is_end_echo (e : event) : bool :=
  match e with
  | Echo _ arg => has_suffix finished arg
  | _ => false
  end.

Definition quiet (trace : list event) : Prop :=
  Forall (fun e => is_end_echo e = false) trace.

(** The scripts that are already listed when line 51 adds [main.py]. *)
Definition preset_scripts (w : world) : list string :=
  elements "scripts_to_run" (vars_after_env w).


End RunMain.

(** ** [visualization/common.ipynb] *)

Module Notebook.
Import Text.

(** A Python exception: an [Error] is an instance of [Exception]; an
    [Interrupt] is one of the few classes that derive from
    [BaseException] only ([KeyboardInterrupt], [SystemExit]). *)
Inductive exn :=
| Error (class message : string)
| Interrupt (class : string).

Definition is_Exception (x : exn) : bool :=
  match x with Error _ _ => true | Interrupt _ => false end.

Inductive result (A : Type) :=
| Ok (a : A)
| Raise (x : exn).
Arguments Ok {A} a.
Arguments Raise {A} x.

(** [str.strip()]: a string is taken as its code points (below 256);
    these are the ones for which [str.isspace] holds. *)
Definition py_space (c : ascii) : bool :=
  in_range 9 13 c || in_range 28 32 c || in_range 133 133 c || in_range 160 160 c.

Fixpoint lstrip (s : string) : string :=
  match s with
  | EmptyString => EmptyString
  | String c r => if py_space c then lstrip r else s
  end.

Definition strip (s : string) : string :=
  String.rev (lstrip (String.rev (lstrip s))).

(** A [pandas.DataFrame] as far as the notebook looks at it. *)
Record dataframe := DataFrame { df_columns : list string; df_rows : list (list string) }.

(** [pd.DataFrame()] *)
Definition empty_frame : dataframe := DataFrame [] [].

(** The database behind SQLAlchemy; [engine] and [connection] are handles. *)
Record database := Database {
  engine : Type;
  connection : Type;
  create_engine : string -> result engine;
  connect : engine -> result connection;
  read_sql_query : string -> connection -> result dataframe;
  close : connection -> result unit }.

Section Cells.
Variable db : database.

(** The names the kernel has bound, the SQL that reached the database
    and what was printed. *)
Record kernel := Kernel {
  k_DATABASE_URL : option string;
  k_schema_name : option string;
  k_engine : option (engine db);
  k_queries : list string;
  k_stdout : list string }.

Definition fresh : kernel := Kernel None None None [] [].

(** [load_dotenv()] (cell 2) adds the pairs of the [.env] file, if
    there is one, to [os.environ] without overriding it. *)
Definition load_dotenv (dotenv : option (gmap string string))
    (environ : gmap string string) : gmap string string :=
  match dotenv with
  | Some pairs => environ ∪ pairs
  | None => environ
  end.

(** [os.getenv(name).strip()]: [os.getenv] gives [None] for a name
    that is not set, and [None] has no [strip]. *)
Definition getenv_strip (environ : gmap string string) (name : string) : result string :=
  match environ !! name with
  | Some s => Ok (strip s)
  | None => Raise (Error "AttributeError" "'NoneType' object has no attribute 'strip'")
  end.

(** Cell 4 (lines 53 to 55). A statement that raises ends the cell;
    the names bound before it stay bound. *)
Definition setup (environ : gmap string string) (k : kernel) : result unit * kernel :=
  match getenv_strip environ "DATABASE_URL" with
  | Raise x => (Raise x, k)
  | Ok url =>
      let k1 := Kernel (Some url) (k_schema_name k) (k_engine k) (k_queries k) (k_stdout k) in
      match getenv_strip environ "SCHEMA_NAME" with
      | Raise x => (Raise x, k1)
      | Ok schema =>
          let k2 := Kernel (Some url) (Some schema) (k_engine k) (k_queries k) (k_stdout k) in
          match create_engine db url with
          | Raise x => (Raise x, k2)
          | Ok e => (Ok tt, Kernel (Some url) (Some schema) (Some e) (k_queries k) (k_stdout k))
          end
      end
  end.

Definition queried (k : kernel) (query : string) : kernel :=
  Kernel (k_DATABASE_URL k) (k_schema_name k) (k_engine k)
         (k_queries k ++ [query]) (k_stdout k).

Definition printed (k : kernel) (line : string) : kernel :=
  Kernel (k_DATABASE_URL k) (k_schema_name k) (k_engine k)
         (k_queries k) (k_stdout k ++ [line]).

(** The [try] block of [__execute_sql_query] (lines 95 to 98). The
    [with] statement closes the connection on the way out, also when
    its body raised; an exception of the closing replaces the one of
    the body. *)
Definition try_block (query : string) (k : kernel) : result dataframe * kernel :=
  match k_engine k with
  | None => (Raise (Error "NameError" "name 'engine' is not defined"), k)
  | Some e =>
      match connect db e with
      | Raise x => (Raise x, k)
      | Ok c =>
          let k1 := queried k query in
          match read_sql_query db query c, close db c with
          | _, Raise y => (Raise y, k1)
          | Raise x, Ok _ => (Raise x, k1)
          | Ok df, Ok _ => (Ok df, k1)
          end
      end
  end.

Definition message (x : exn) : string :=
  match x with Error _ msg => msg | Interrupt _ => "" end.

(** [__execute_sql_query(query)] (lines 83 to 101): [except Exception]
    takes the instances of [Exception] and no others. *)
Definition __execute_sql_query (query : string) (k : kernel) : result dataframe * kernel :=
  match try_block query k with
  | (Ok df, k1) => (Ok df, k1)
  | (Raise x, k1) =>
      if is_Exception x
      then (Ok empty_frame, printed k1 ("⚠️ Error executing SQL query: " +:+ message x))
      else (Raise x, k1)
  end.

(** The query went through: there is an engine, the connection opened,
    the query gave [df] and the connection closed. *)
Definition succeeds (query : string) (k : kernel) (df : dataframe) : Prop :=
  exists e c,
    k_engine k = Some e /\ connect db e = Ok c
    /\ read_sql_query db query c = Ok df /\ close db c = Ok tt.

(** Whatever the database raises is an error, that is an instance of
    [Exception]. *)
Definition raises_errors_only (query : string) : Prop :=
  (forall e x, connect db e = Raise x -> is_Exception x = true)
  /\ (forall c x, read_sql_query db query c = Raise x -> is_Exception x = true)
  /\ (forall c x, close db c = Raise x -> is_Exception x = true).

(** The notebook run from the top, followed by some queries. *)
Fixpoint run_queries (queries : list string) (k : kernel)
  : list (result dataframe) * kernel :=
  match queries with
  | [] => ([], k)
  | q :: r =>
      let '(o, k1) := __execute_sql_query q k in
      let '(os, k2) := run_queries r k1 in
      (o :: os, k2)
  end.

Definition startup (dotenv : option (gmap string string))
    (environ : gmap string string) : result unit * kernel :=
  setup (load_dotenv dotenv environ) fresh.

(** [print(label, value, " type:", type(value))] for a string [value]:
    [print] writes its arguments with one space between them. *)
Definition shown (label value : string) : string :=
  label +:+ " " +:+ value +:+ " " +:+ " type:" +:+ " " +:+ "<class 'str'>".

(** Cell 5 (lines 73 and 74): a name that is not bound raises
    [NameError], after what the statements before it printed. *)
Definition show (k : kernel) : result unit * kernel :=
  match k_DATABASE_URL k with
  | None => (Raise (Error "NameError" "name 'DATABASE_URL' is not defined"), k)
  | Some url =>
      let k1 := printed k (shown "DATABASE_URL:" url) in
      match k_schema_name k with
      | None => (Raise (Error "NameError" "name 'schema_name' is not defined"), k1)
      | Some schema => (Ok tt, printed k1 (shown "SCHEMA_NAME:" schema))
      end
  end.

End Cells.

End Notebook.

(** ** The Loader *)

Module Loader.

(** The Play Event of the data model. *)
Record play_event := PlayEvent {
  played_at : string;
  track_id : string;
  track_name : string;
  artist_names : string;
  album_name : string;
  duration_ms : Z }.

Definition key (e : play_event) : string * string := (played_at e, track_id e).

Definition same_key (k1 k2 : string * string) : bool :=
  String.eqb (fst k1) (fst k2) && String.eqb (snd k1) (snd k2).

(** The play-history table: its rows, oldest first. *)
Definition has_key (k : string * string) (table : list play_event) : bool :=
  existsb (fun row => same_key k (key row)) table.

Definition rows_with (k : string * string) (table : list play_event) : nat :=
  length (List.filter (fun row => same_key k (key row)) table).

(** Modelled from the spec: the Loader's insert ([main.py] is not among
    the sources). One event is inserted by an operation that is a no-op
    when its [(played_at, track_id)] pair is already in the table
    (insert-or-ignore). *)
Definition insert_event (e : play_event) (table : list play_event) : list play_event :=
  if has_key (key e) table then table else table ++ [e].

Record report := Report { inserted : nat; skipped : nat }.

(** Modelled from the spec: the Loader ([main.py] is not among the
    sources). Given a sequence of Play Events it inserts each one and
    reports how many rows were newly inserted and how many skipped. *)
Fixpoint load (events : list play_event) (table : list play_event)
  : list play_event * report :=
  match events with
  | [] => (table, Report 0 0)
  | e :: r =>
      let fresh := negb (has_key (key e) table) in
      let '(table', Report i s) := load r (insert_event e table) in
      (table', if fresh then Report (S i) s else Report i (S s))
  end.

(** The unique constraint on [(played_at, track_id)]. *)
Definition unique_keys (table : list play_event) : Prop := NoDup (map key table).

End Loader.

(** ** Sample surroundings, used to run the definitions *)

Module Samples.
Import Text Bash Shell RunMain Notebook Loader.

Definition lines (l : list string) : string :=
  concat_all (map (fun s => s +:+ String nl "") l).

(** The files of the code directory: [.env] with the given text if any,
    the activation script and [main.py] when asked for. *)
Definition files (dotenv : option string) (venv main : bool) : gmap string string :=
  (if venv then <[venv_file := "export VIRTUAL_ENV"]> else id)
    ((if main then <[code_dir +:+ "/main.py" := "import spotipy"]> else id)
       (match dotenv with
        | Some t => {[env_file := t]}
        | None => ∅
        end)).

Definition clock (utc : bool) (n : nat) : string :=
  if utc then "2024-01-01 00:00:00" else "2024-01-01 05:30:00".

(** The variables of a bash that cron has started: the environment
    cron gives its jobs, and some of what bash adds at its start. *)
Definition cron_vars : gmap string var :=
  inherit {["HOME" := "/Users/dishen"; "LOGNAME" := "dishen"; "PATH" := "/usr/bin:/bin";
            "SHELL" := "/bin/sh"; "PWD" := "/"; "SHLVL" := "1"]}
  ∪ {["UID" := Var (Scalar "501") false; "EUID" := Var (Scalar "501") false;
      "PPID" := Var (Scalar "1") false]}.

(** No word of the samples has a quoted subscript. *)
Definition unasked (word : string) : bool := false.

(** A world in which [python3 main.py] prints one line and exits with
    [status]; the activation script changes no variable. *)
Definition surroundings (dotenv : option string) (venv main : bool) (status : Z) : world :=
  World cron_vars "/" (FS {[code_dir]} (files dotenv venv main) ∅) ""
    clock (fun _ => "") unasked (fun _ st => st)
    (fun _ _ _ => ("fetched" +:+ String nl "", status)).

Definition usual : world := surroundings (Some (lines ["CLIENT_ID=abc"])) true true 0.
Definition main_missing : world := surroundings (Some (lines ["CLIENT_ID=abc"])) true false 0.
Definition no_dotenv : world := surroundings None true true 0.
Definition no_venv : world := surroundings (Some (lines ["CLIENT_ID=abc"])) false true 0.
Definition listed_twice : world :=
  surroundings (Some (lines ["scripts_to_run=main.py"])) true true 0.


(** A locale without the code points asked for. *)
Definition no_unicode (n : N) : string := "".

(** Play Events. *)
Definition play (at_ id : string) : play_event :=
  PlayEvent at_ id "Song" "Artist" "Album" 180000.

Definition sample_events : list play_event :=
  [play "2024-01-01T10:00:00Z" "t1"; play "2024-01-01T10:05:00Z" "t1";
   play "2024-01-01T10:00:00Z" "t1"].

(** A database that refuses every connection, and one that answers. *)
Definition down : database :=
  Database unit unit (fun _ => Ok tt)
    (fun _ => Raise (Error "OperationalError" "connection refused"))
    (fun _ _ => Ok empty_frame) (fun _ => Ok tt).

Definition answer : dataframe := DataFrame ["track_name"] [["Song"]].

Definition up : database :=
  Database unit unit (fun _ => Ok tt) (fun _ => Ok tt)
    (fun _ _ => Ok answer) (fun _ => Ok tt).

Definition bound (db : database) (e : engine db) : kernel db :=
  Kernel db (Some "postgresql://h/db") (Some "spotify_data") (Some e) [] [].

Definition interrupted : database :=
  Database unit unit (fun _ => Ok tt) (fun _ => Raise (Interrupt "KeyboardInterrupt"))
    (fun _ _ => Ok empty_frame) (fun _ => Ok tt).

End Samples.

(** ** What the stages of [run_main.sh] come to

    Functions and predicates in which the further properties of the
    wrapper and of the notebook are stated. *)

Module Effects.
Import Text Bash Shell RunMain Notebook.

(** The variables when line 21 has been run: those the shell started
    with, the three that the script assigns and the two that [cd]
    sets. *)
Definition base_vars (w : world) : gmap string var :=
  fst (assign "PYTHON_VENV" venv_file
    (moved_to code_dir
      (fst (assign "CRON_LOG_FILE" log_file
        (fst (assign "CODE_DIR" code_dir (w_vars w))))))).

(** The variables with which the loop over [.env] starts. *)
Definition activated_vars (w : world) : gmap string var :=
  w_source w (contents (w_fs w) venv_file) (base_vars w).

(** What the last [read] of the loop leaves, the one that meets the end
    of the file. *)
Definition read_last (rest : string) (st : gmap string var) : gmap string var :=
  fst (assign "value" (snd (read_fields rest)) (fst (assign "key" (fst (read_fields rest)) st))).

(** The loop of lines 35 to 40 over a readable file with this content. *)
Definition dotenv_effect (content : string) (st : gmap string var) : gmap string var :=
  read_last (snd (lines_of content))
    (fold_left (fun st line => line_effect line st) (fst (lines_of content)) st).

(** The line has [name] or [name+] for its key. *)
Definition assigns (name line : string) : bool :=
  String.eqb (fst (read_fields line)) name
  || String.eqb (fst (read_fields line)) (name +:+ "+").

(** bash is not in POSIX mode when the loop over [.env] starts, and no
    line of the file puts it there. *)
Definition stays_default (w : world) : bool :=
  negb (posix (activated_vars w))
  && forallb (fun line => negb (assigns "POSIXLY_CORRECT" line))
       (fst (lines_of (contents (w_fs w) env_file))).

Definition is_array (name : string) (st : gmap string var) : bool :=
  match st !! name with
  | Some (Var (Scalar _) _) | None => false
  | Some _ => true
  end.

(** The text is made of complete lines: it is empty or ends in a newline. *)
Definition complete (text : string) : bool := is_empty text || ends_with nl text.

(** The script of the loop's turn, as line 55 spells its path, and
    whether the test of line 57 finds it. *)
Definition script_path (m : machine) : string :=
  expand "CODE_DIR" (m_vars m) +:+ "/" +:+ expand "script" (m_vars m).

Definition script_found (m : machine) : bool :=
  is_file (m_fs m) (abs (m_cwd m) (script_path m)).

(** The file that [>> "$CRON_LOG_FILE"] opens, and whether it can. *)
Definition log_target (m : machine) : string :=
  abs (m_cwd m) (expand "CRON_LOG_FILE" (m_vars m)).

Definition log_opens (m : machine) : bool :=
  negb (is_empty (expand "CRON_LOG_FILE" (m_vars m)))
  && can_append (m_fs m) (log_target m).

(** [CRON_LOG_FILE] names the log file and no other file has changed. *)
Definition tame (w : world) (m : machine) : Prop :=
  expand "CRON_LOG_FILE" (m_vars m) = log_file /\ like w m.

(** The command goes on and keeps that. *)
Definition keeps (w : world) (c : cmd) : Prop :=
  forall m, tame w m -> exists m', c m = Go m' /\ tame w m'.

(** White space at the two ends of a string. *)
Definition space_first (s : string) : bool :=
  match s with
  | EmptyString => false
  | String c _ => py_space c
  end.

Fixpoint space_last (s : string) : bool :=
  match s with
  | EmptyString => false
  | String c EmptyString => py_space c
  | String _ r => space_last r
  end.

End Effects.

(** ** Further surroundings *)

Module Cases.
Import Text Bash Shell RunMain Notebook Samples.

(** The wrapper in its code directory, before it has run anything. *)
Definition at_home (w : world) : machine := with_cwd (boot w) code_dir.

(** The state in which the loop of line 54 takes up [main.py]. *)
Definition before_main (w : world) : machine :=
  last_state (set_var w "script" [Lit "main.py"] (last_state (prepare w (boot w)))).

(** A [.env] whose last line has no newline. *)
Definition unterminated : world :=
  surroundings (Some (lines ["A=1"] +:+ "B=2")) true true 0.

(** A [.env] that may not be read. *)
Definition unreadable : world :=
  World cron_vars "/"
    (FS {[code_dir]} (files (Some (lines ["CLIENT_ID=abc"])) true true) {[env_file]}) ""
    clock (fun _ => "") unasked (fun _ st => st)
    (fun _ _ _ => ("fetched" +:+ String nl "", 0%Z)).

(** No code directory. *)
Definition no_directory : world :=
  World cron_vars "/" (FS ∅ ∅ ∅) "" clock (fun _ => "") unasked (fun _ st => st)
    (fun _ _ _ => ("", 0%Z)).

(** A [.env] that puts bash in POSIX mode and then names a read-only
    variable, and one that then has a key with a leading dash. *)
Definition strict : world :=
  surroundings (Some (lines ["POSIXLY_CORRECT=1"; "UID=5"; "CLIENT_ID=abc"])) true true 0.

Definition strict_option : world :=
  surroundings (Some (lines ["POSIXLY_CORRECT=1"; "-x=2"])) true true 0.

(** POSIX mode inherited from the caller. *)
Definition strict_start : world :=
  World (<["POSIXLY_CORRECT" := Var (Scalar "1") true]> cron_vars) "/"
    (FS {[code_dir]} (files (Some (lines ["A[0]=1"])) true true) ∅) ""
    clock (fun _ => "") unasked (fun _ st => st)
    (fun _ _ _ => ("fetched" +:+ String nl "", 0%Z)).

(** A configuration with white space around its values. *)
Definition padded : gmap string string :=
  {["DATABASE_URL" := "  postgresql://h/db  "; "SCHEMA_NAME" := "spotify_data "]}.

End Cases.

(** * Properties *)

Module TextFacts.
Import Text.

Lemma app_nil_l (s : string) : "" +:+ s = s.
Proof. reflexivity. Qed.

Lemma app_cons (c : ascii) (s t : string) : String c s +:+ t = String c (s +:+ t).
Proof. reflexivity. Qed.

Lemma app_nil_r (s : string) : s +:+ "" = s.
Proof.
  induction s as [|c s IH]; [reflexivity|].
  rewrite app_cons. f_equal. exact IH.
Qed.

Lemma app_assoc (a b c : string) : (a +:+ b) +:+ c = a +:+ (b +:+ c).
Proof.
  induction a as [|x a IH]; [reflexivity|].
  rewrite !app_cons. f_equal. exact IH.
Qed.

Lemma cut_app (c : ascii) (a b : string) :
  has_char c a = false -> cut c (a +:+ String c b) = (a, Some b).
Proof.
  induction a as [|d a IH]; intros H.
  - rewrite app_nil_l. simpl. now rewrite Ascii.eqb_refl.
  - simpl in H. apply orb_false_elim in H as [Hd Ha].
    rewrite app_cons. simpl. rewrite Hd, (IH Ha). reflexivity.
Qed.

Lemma cut_no_char (c : ascii) (s : string) :
  has_char c (fst (cut c s)) = false.
Proof.
  induction s as [|d s IH]; simpl; [reflexivity|].
  destruct (Ascii.eqb c d) eqn:E; simpl; [reflexivity|].
  destruct (cut c s) as [a b]; simpl in *. now rewrite E, IH.
Qed.

Lemma cut_none (c : ascii) (s : string) :
  has_char c s = false -> cut c s = (s, None).
Proof.
  induction s as [|d s IH]; simpl; intros H; [reflexivity|].
  apply orb_false_elim in H as [Hd Hs]. now rewrite Hd, (IH Hs).
Qed.

Lemma cut_some (c : ascii) (s a b : string) :
  cut c s = (a, Some b) -> s = a +:+ String c b /\ has_char c a = false.
Proof.
  revert a; induction s as [|d s IH]; simpl; intros a H; [discriminate|].
  destruct (Ascii.eqb c d) eqn:E.
  - apply Ascii.eqb_eq in E as ->. now inversion H.
  - destruct (cut c s) as [a' b'] eqn:Hc. inversion H; subst.
    destruct (IH a' eq_refl) as [-> Ha]. rewrite app_cons. simpl.
    now rewrite E, Ha.
Qed.

Lemma cut_last_some (c : ascii) (s a b : string) :
  cut_last c s = Some (a, b) -> s = a +:+ String c b.
Proof.
  revert a; induction s as [|d s IH]; simpl; intros a H; [discriminate|].
  destruct (cut_last c s) as [[a' b']|] eqn:Hc.
  - inversion H; subst. rewrite app_cons. f_equal. now apply IH.
  - destruct (Ascii.eqb c d) eqn:E; [|discriminate].
    apply Ascii.eqb_eq in E as ->. now inversion H.
Qed.

Lemma has_char_app (c : ascii) (a b : string) :
  has_char c (a +:+ b) = has_char c a || has_char c b.
Proof.
  induction a as [|d a IH]; [reflexivity|].
  rewrite app_cons. simpl. rewrite IH. now rewrite orb_assoc.
Qed.

Lemma all_chars_no_char (p : ascii -> bool) (c : ascii) (s : string) :
  p c = false -> all_chars p s = true -> has_char c s = false.
Proof.
  intros Hc. induction s as [|d s IH]; simpl; [reflexivity|].
  intros H. apply andb_prop in H as [Hd Hs].
  destruct (Ascii.eqb c d) eqn:E.
  - apply Ascii.eqb_eq in E as ->. congruence.
  - now apply IH.
Qed.

Lemma starts_with_app (c : ascii) (a b : string) :
  is_empty a = false -> starts_with c (a +:+ b) = starts_with c a.
Proof. destruct a; [discriminate | reflexivity]. Qed.

Lemma length_append (a b : string) : String.length (a +:+ b) = String.length a + String.length b.
Proof.
  induction a as [|c a IH]; [reflexivity|].
  rewrite app_cons. simpl. now rewrite IH.
Qed.

(** Two ways of cutting one string with tails of one length give the
    same tail. *)
Lemma app_same_tail (a b s t : string) :
  a +:+ s = b +:+ t -> String.length s = String.length t -> s = t.
Proof.
  revert b. induction a as [|c a IH]; intros [|d b] H Hlen.
  - exact H.
  - rewrite app_nil_l in H. subst s. rewrite app_cons in Hlen. simpl in Hlen.
    rewrite length_append in Hlen. lia.
  - rewrite app_nil_l in H. subst t. rewrite app_cons in Hlen. simpl in Hlen.
    rewrite length_append in Hlen. lia.
  - rewrite !app_cons in H. inversion H. now apply (IH b).
Qed.

Lemma has_suffix_app (a s : string) : has_suffix s (a +:+ s) = true.
Proof.
  induction a as [|c a IH].
  - rewrite app_nil_l. destruct s; cbn [has_suffix]; now rewrite String.eqb_refl.
  - rewrite app_cons. cbn [has_suffix]. rewrite IH. apply orb_true_r.
Qed.

Lemma has_suffix_split (s x : string) : has_suffix s x = true -> exists p, x = p +:+ s.
Proof.
  induction x as [|c x IH]; cbn [has_suffix]; intros H.
  - rewrite orb_false_r in H. apply String.eqb_eq in H. subst s. now exists "".
  - apply orb_true_iff in H as [H|H].
    + apply String.eqb_eq in H. subst s. now exists "".
    + destruct (IH H) as [p ->]. exists (String c p). now rewrite app_cons.
Qed.

Lemma ends_with_app_cons (c d : ascii) (a b : string) :
  ends_with c (a +:+ String d b) = ends_with c (String d b).
Proof.
  induction a as [|x a IH]; [reflexivity|].
  rewrite app_cons. simpl in *. rewrite IH.
  destruct (a +:+ String d b) eqn:E; [|reflexivity].
  destruct a; discriminate.
Qed.

(** A text in which a tail of the length of [s], other than [s], follows
    something does not end with [s]. *)
Lemma other_tail (s t a : string) :
  String.length t = String.length s -> t <> s -> has_suffix s (a +:+ t) = false.
Proof.
  intros Hlen Hne. destruct (has_suffix s (a +:+ t)) eqn:H; [|reflexivity].
  destruct (has_suffix_split _ _ H) as [p Hp].
  exfalso. apply Hne. now apply (app_same_tail a p).
Qed.

Lemma ends_with_app (c : ascii) (a b : string) :
  is_empty b = false -> ends_with c (a +:+ b) = ends_with c b.
Proof. destruct b as [|d b]; [discriminate|]. intros _. apply ends_with_app_cons. Qed.

Lemma ends_with_named (c : ascii) (s : string) : ends_with c s = true -> is_empty s = false.
Proof. destruct s; [discriminate | reflexivity]. Qed.

Lemma ends_with_one (c d : ascii) (s : string) :
  ends_with c s = true -> ends_with d s = true -> c = d.
Proof.
  induction s as [|e s IH]; [discriminate|]. simpl.
  destruct s as [|e' s]; [|exact IH].
  intros Hc Hd. apply Ascii.eqb_eq in Hc, Hd. congruence.
Qed.

(** Nor does a text whose last character is not that of [s]. *)
Lemma other_end (s x : string) (c d : ascii) :
  ends_with c s = true -> ends_with d x = true -> c <> d -> has_suffix s x = false.
Proof.
  intros Hs Hx Hcd. destruct (has_suffix s x) eqn:H; [|reflexivity].
  destruct (has_suffix_split _ _ H) as [p ->].
  rewrite ends_with_app in Hx by (now apply (ends_with_named c)).
  exfalso. apply Hcd. now apply (ends_with_one c d s).
Qed.

End TextFacts.

Module BashExamples.
Import Text Bash Samples.

Example read_plain : read_fields "KEY=a=b" = ("KEY", "a=b").
Proof. reflexivity. Qed.
Example read_trailing : read_fields "KEY=a=" = ("KEY", "a").
Proof. reflexivity. Qed.
Example read_trailing2 : read_fields "KEY=a==" = ("KEY", "a==").
Proof. reflexivity. Qed.
Example read_eqeq : read_fields "KEY==" = ("KEY", "").
Proof. reflexivity. Qed.
Example read_noeq : read_fields "KEY" = ("KEY", "").
Proof. reflexivity. Qed.
Example read_nokey : read_fields "==v" = ("", "=v").
Proof. reflexivity. Qed.
Example read_spaces : read_fields " KEY = a b " = (" KEY ", " a b ").
Proof. reflexivity. Qed.
Example read_three : read_fields "KEY=a=b=" = ("KEY", "a=b=").
Proof. reflexivity. Qed.

Example lines_two :
  lines_of (String "A" (String "=" (String "1" (String nl "B=2")))) = (["A=1"], "B=2").
Proof. reflexivity. Qed.
Example lines_blank :
  lines_of (String nl (String "x" (String nl ""))) = ([""; "x"], "").
Proof. reflexivity. Qed.

Example ident_ok : legal_identifier "_x1" = true.
Proof. reflexivity. Qed.
Example ident_dash : legal_identifier "my-key" = false.
Proof. reflexivity. Qed.
Example ident_digit : legal_identifier "1a" = false.
Proof. reflexivity. Qed.
Example ident_space : legal_identifier " K" = false.
Proof. reflexivity. Qed.

Example ordinary_name : ordinary "CLIENT_ID" = true.
Proof. reflexivity. Qed.
Example ordinary_readonly : ordinary "UID" = false.
Proof. reflexivity. Qed.
Example ordinary_computed : ordinary "RANDOM" = false.
Proof. reflexivity. Qed.

Example element_plain : assigns_element unasked "a[0]=x" = true.
Proof. reflexivity. Qed.
Example element_append : assigns_element unasked "a[0]+=x" = true.
Proof. reflexivity. Qed.
Example element_empty : assigns_element unasked "a[]=x" = true.
Proof. reflexivity. Qed.
Example element_nested : assigns_element unasked "a[b[c]]=1" = true.
Proof. reflexivity. Qed.
Example element_in_text : assigns_element unasked "a[=x]=1" = true.
Proof. reflexivity. Qed.
Example element_open : assigns_element unasked "a[=1" = false.
Proof. reflexivity. Qed.
Example element_closed_early : assigns_element unasked "a[]]=1" = false.
Proof. reflexivity. Qed.
Example element_followed : assigns_element unasked "a[x]y=1" = false.
Proof. reflexivity. Qed.
Example element_no_name : assigns_element unasked "a b[0]=1" = false.
Proof. reflexivity. Qed.
Example element_quoted : assigns_element (fun _ => true) "a['x']=1" = true.
Proof. reflexivity. Qed.

Example echo_tab : echo_e no_unicode "a\tb" = "a" +:+ chr 9 +:+ "b" +:+ chr 10.
Proof. reflexivity. Qed.
Example echo_cut : echo_e no_unicode "a\cb" = "a".
Proof. reflexivity. Qed.
Example echo_octal : echo_e no_unicode "a\0101b" = "aAb" +:+ chr 10.
Proof. reflexivity. Qed.
Example echo_octal_long : echo_e no_unicode "a\01234" = "aS4" +:+ chr 10.
Proof. reflexivity. Qed.
Example echo_octal_wrap : echo_e no_unicode "\0777" = chr 255 +:+ chr 10.
Proof. reflexivity. Qed.
Example echo_no_octal : echo_e no_unicode "a\101b" = "a\101b" +:+ chr 10.
Proof. reflexivity. Qed.
Example echo_hex : echo_e no_unicode "a\x414" = "aA4" +:+ chr 10.
Proof. reflexivity. Qed.
Example echo_hex_short : echo_e no_unicode "a\xb" = "a" +:+ chr 11 +:+ chr 10.
Proof. reflexivity. Qed.
Example echo_hex_none : echo_e no_unicode "a\xzz" = "a\xzz" +:+ chr 10.
Proof. reflexivity. Qed.
Example echo_lone_slash : echo_e no_unicode "a\" = "a\" +:+ chr 10.
Proof. reflexivity. Qed.
Example echo_two_slashes : echo_e no_unicode "a\\b" = "a\b" +:+ chr 10.
Proof. reflexivity. Qed.
Example echo_unknown : echo_e no_unicode "a\qb" = "a\qb" +:+ chr 10.
Proof. reflexivity. Qed.
Example echo_uni_none : echo_e no_unicode "a\uzz" = "a\uzz" +:+ chr 10.
Proof. reflexivity. Qed.
Example echo_uni : echo_e chr "\u41\U00000042" = "AB" +:+ chr 10.
Proof. reflexivity. Qed.

End BashExamples.

Module ShellExamples.
Import Text Bash Shell Samples.

Definition one (name text : string) (exported : bool) : gmap string var :=
  {[name := Var (Scalar text) exported]}.

Example export_sets : export_word "K=new" (one "K" "old" false) = (one "K" "new" true, 0%Z).
Proof. vm_compute. reflexivity. Qed.

Example export_appends : export_word "K+=v" (one "K" "old" false) = (one "K" "oldv" true, 0%Z).
Proof. vm_compute. reflexivity. Qed.

Example export_dash_in_name : export_word "my-key=1" ∅ = (∅, 1%Z).
Proof. vm_compute. reflexivity. Qed.

Example export_subscript : export_word "a[0]=x" ∅ = (∅, 1%Z).
Proof. vm_compute. reflexivity. Qed.

Example export_space : export_word "K =1" ∅ = (∅, 1%Z).
Proof. vm_compute. reflexivity. Qed.

Example export_option : export_word "-x=1" ∅ = (∅, 2%Z).
Proof. vm_compute. reflexivity. Qed.

Example export_readonly : export_word "UID=5" ∅ = (∅, 1%Z).
Proof. vm_compute. reflexivity. Qed.

Example export_readonly_marks :
  export_word "UID=5" (one "UID" "501" false) = (one "UID" "501" true, 1%Z).
Proof. vm_compute. reflexivity. Qed.

Example export_computed : export_word "RANDOM=5" ∅ = (∅, 0%Z).
Proof. vm_compute. reflexivity. Qed.

Example fatal_readonly : export_fatal unasked "UID=5" ∅ = true.
Proof. vm_compute. reflexivity. Qed.

Example fatal_readonly_append : export_fatal unasked "UID+=5" ∅ = true.
Proof. vm_compute. reflexivity. Qed.

Example fatal_option : export_fatal unasked "-x=1" ∅ = true.
Proof. vm_compute. reflexivity. Qed.

Example fatal_element : export_fatal unasked "a[0]=x" ∅ = true.
Proof. vm_compute. reflexivity. Qed.

Example no_name_not_fatal : export_fatal unasked "my-key=1" ∅ = false.
Proof. vm_compute. reflexivity. Qed.

Example accepted_not_fatal : export_fatal unasked "K=new" ∅ = false.
Proof. vm_compute. reflexivity. Qed.

Example posix_when_set : posix (one "POSIXLY_CORRECT" "" false) = true.
Proof. vm_compute. reflexivity. Qed.

Example cd_sets_both :
  environ (moved_to "/srv" (one "PWD" "/" true)) = {["PWD" := "/srv"; "OLDPWD" := "/"]}.
Proof. vm_compute. reflexivity. Qed.

Example computed_not_passed : environ (one "_" "/usr/bin/env" true) = ∅.
Proof. vm_compute. reflexivity. Qed.

Example append_to_assoc :
  length (elements "l" (fst (append_items "l" ["main.py"]
                               {["l" := Var (Assoc [("a", "b")]) false]}))) = 2.
Proof. vm_compute. reflexivity. Qed.

Example export_over_array :
  fst (export_word "K=z" {["K" := Var (Indexed ["x"; "y"]) true]})
  = {["K" := Var (Indexed ["z"; "y"]) true]}.
Proof. vm_compute. reflexivity. Qed.

Example append_to_unset : elements "l" (fst (append_items "l" ["main.py"] ∅)) = ["main.py"].
Proof. vm_compute. reflexivity. Qed.

Example append_to_scalar :
  elements "l" (fst (append_items "l" ["main.py"] (one "l" "main.py" true)))
  = ["main.py"; "main.py"].
Proof. vm_compute. reflexivity. Qed.

Example exported_array_not_passed :
  environ (fst (append_items "l" ["main.py"] (one "l" "main.py" true))) = ∅.
Proof. vm_compute. reflexivity. Qed.

End ShellExamples.

(** ** The Loader: idempotence *)

Module LoaderSpec.
Import Loader Samples.

Lemma same_key_eq (k1 k2 : string * string) : same_key k1 k2 = true <-> k1 = k2.
Proof.
  destruct k1 as [a b], k2 as [c d]. unfold same_key; simpl.
  rewrite andb_true_iff, !String.eqb_eq. split.
  - intros [-> ->]. reflexivity.
  - intros H. inversion H. auto.
Qed.

Lemma has_key_In (k : string * string) (table : list play_event) :
  has_key k table = true <-> In k (map key table).
Proof.
  unfold has_key. rewrite existsb_exists, in_map_iff. split.
  - intros (row & Hin & Hk). apply same_key_eq in Hk. eauto.
  - intros (row & Hk & Hin). exists row. split; [assumption|].
    apply same_key_eq. congruence.
Qed.

Lemma has_key_insert_same (e : play_event) (table : list play_event) :
  has_key (key e) (insert_event e table) = true.
Proof.
  unfold insert_event. destruct (has_key (key e) table) eqn:H; [assumption|].
  apply has_key_In. rewrite map_app. apply in_or_app. right. now left.
Qed.

Lemma has_key_insert_mono (k : string * string) (e : play_event) (table : list play_event) :
  has_key k table = true -> has_key k (insert_event e table) = true.
Proof.
  unfold insert_event. destruct (has_key (key e) table); [auto|].
  rewrite !has_key_In, map_app. intros H. apply in_or_app. now left.
Qed.

Lemma insert_event_unique (e : play_event) (table : list play_event) :
  unique_keys table -> unique_keys (insert_event e table).
Proof.
  unfold unique_keys, insert_event. intros H.
  destruct (has_key (key e) table) eqn:Hk; [assumption|].
  rewrite map_app. simpl. apply NoDup_app. split; [assumption|]. split.
  - intros k Hin Hin'. apply list_elem_of_In in Hin.
    apply list_elem_of_singleton in Hin'. subst k.
    apply has_key_In in Hin. congruence.
  - apply NoDup_singleton.
Qed.

Lemma load_unique (events table : list play_event) :
  unique_keys table -> unique_keys (fst (load events table)).
Proof.
  revert table. induction events as [|e r IH]; intros table H; [assumption|].
  simpl. specialize (IH _ (insert_event_unique e table H)).
  destruct (load r (insert_event e table)) as [t' [i s]]. exact IH.
Qed.

Lemma load_mono (k : string * string) (events table : list play_event) :
  has_key k table = true -> has_key k (fst (load events table)) = true.
Proof.
  revert table. induction events as [|e r IH]; intros table H; [assumption|].
  simpl. specialize (IH _ (has_key_insert_mono k e table H)).
  destruct (load r (insert_event e table)) as [t' [i s]]. exact IH.
Qed.

Lemma load_covers (events table : list play_event) (e : play_event) :
  In e events -> has_key (key e) (fst (load events table)) = true.
Proof.
  revert table. induction events as [|e' r IH]; intros table Hin; [destruct Hin|].
  simpl. destruct Hin as [-> | Hin].
  - pose proof (load_mono (key e) r _ (has_key_insert_same e table)) as H.
    destruct (load r (insert_event e table)) as [t' [i s]]. exact H.
  - specialize (IH (insert_event e' table) Hin).
    destruct (load r (insert_event e' table)) as [t' [i s]]. exact IH.
Qed.

(** Loading events whose pairs are all in the table changes nothing and
    counts every one of them as skipped. *)
Lemma load_known (events table : list play_event) :
  (forall e, In e events -> has_key (key e) table = true) ->
  load events table = (table, Report 0 (length events)).
Proof.
  revert table. induction events as [|e r IH]; intros table H; [reflexivity|].
  simpl. assert (He : has_key (key e) table = true) by (apply H; now left).
  unfold insert_event. rewrite He. simpl.
  rewrite IH by (intros e' Hin; apply H; now right). reflexivity.
Qed.

Lemma rows_with_unique (k : string * string) (table : list play_event) :
  unique_keys table -> has_key k table = true -> rows_with k table = 1.
Proof.
  unfold unique_keys, rows_with.
  induction table as [|row t IH]; simpl; intros Hnd Hk; [discriminate|].
  apply NoDup_cons in Hnd as [Hnot Hnd].
  destruct (same_key k (key row)) eqn:E; simpl.
  - f_equal. apply same_key_eq in E. subst k.
    destruct (List.filter _ t) as [|row' l] eqn:Hf; [reflexivity|].
    exfalso. apply Hnot. apply list_elem_of_In.
    assert (Hin : In row' (List.filter (fun r => same_key (key row) (key r)) t))
      by (rewrite Hf; now left).
    apply filter_In in Hin as [Hin Hsame]. apply same_key_eq in Hsame.
    rewrite Hsame. now apply in_map.
  - now apply IH.
Qed.

(** C2. Loading the same Play Events a second time leaves the table as
    the first load left it and inserts nothing; the table, which held
    each [(played_at, track_id)] pair at most once, still does, and holds
    exactly one row for the pair of every loaded event. Whatever is
    loaded after that, overlapping or not, no pair gets a second row. *)
Theorem load_twice_one_row_per_pair (events table : list play_event) :
  NoDup (map key table) ->
  let once := fst (load events table) in
  let twice := load events once in
  fst twice = once
  /\ inserted (snd twice) = 0
  /\ NoDup (map key (fst twice))
  /\ (forall e, In e events -> rows_with (key e) (fst twice) = 1)
  /\ forall later, NoDup (map key (fst (load later (fst twice)))).
Proof.
  intros Hnd once twice.
  assert (Hknown : load events once = (once, Report 0 (length events))).
  { apply load_known. intros e Hin. now apply load_covers. }
  subst twice. rewrite Hknown. simpl.
  assert (Hu : unique_keys once) by now apply load_unique.
  repeat split; try assumption.
  - intros e Hin. apply rows_with_unique; [assumption|]. now apply load_covers.
  - intros later. now apply load_unique.
Qed.

Lemma load_twice_one_row_per_pair_witness :
  let once := fst (load sample_events []) in
  let twice := load sample_events once in
  fst twice = once
  /\ inserted (snd twice) = 0
  /\ NoDup (map key (fst twice))
  /\ (forall e, In e sample_events -> rows_with (key e) (fst twice) = 1)
  /\ forall later, NoDup (map key (fst (load later (fst twice)))).
Proof. apply (load_twice_one_row_per_pair sample_events []). simpl. constructor. Defined.

(** The end-to-end scenario of the specification: three records, one of
    them already stored. *)
Example two_inserted_one_skipped :
  snd (load [play "2024-01-01T10:00:00Z" "t1"; play "2024-01-01T10:05:00Z" "t1";
             play "2024-01-01T09:00:00Z" "t2"]
            [play "2024-01-01T09:00:00Z" "t2"])
  = Report 2 1.
Proof. reflexivity. Qed.

End LoaderSpec.

(** ** The notebook: configuration and queries *)

Module NotebookSpec.
Import Notebook Samples.

Section WithDatabase.
Variable db : database.

Lemma try_block_succeeds (query : string) (k : kernel db) (df : dataframe) :
  succeeds db query k df -> fst (try_block db query k) = Ok df.
Proof.
  intros (e & c & He & Hc & Hr & Hx). unfold try_block.
  rewrite He, Hc, Hr, Hx. reflexivity.
Qed.

Lemma try_block_raises (query : string) (k : kernel db) (x : exn) :
  raises_errors_only db query ->
  fst (try_block db query k) = Raise x -> is_Exception x = true.
Proof.
  intros (Hconn & Hread & Hclose). unfold try_block.
  destruct (k_engine db k) as [e|]; simpl.
  - destruct (connect db e) as [c|y] eqn:Hc; simpl.
    + destruct (read_sql_query db query c) as [df|y] eqn:Hr,
               (close db c) as [[]|z] eqn:Hx; simpl; intros H; inversion H; subst; eauto.
    + intros H; inversion H; subst. eauto.
  - intros H; inversion H. reflexivity.
Qed.

Lemma try_block_fails (query : string) (k : kernel db) :
  (forall df, ~ succeeds db query k df) ->
  exists x, fst (try_block db query k) = Raise x.
Proof.
  intros Hno. unfold try_block.
  destruct (k_engine db k) as [e|] eqn:He; [|eauto].
  destruct (connect db e) as [c|y] eqn:Hc; [|eauto].
  destruct (read_sql_query db query c) as [df|y] eqn:Hr,
           (close db c) as [[]|z] eqn:Hx; simpl; eauto.
  exfalso. apply (Hno df). exists e, c. auto.
Qed.

(** C8. [__execute_sql_query] returns the table of the query when the
    execution succeeds; when an error occurs while connecting or
    executing it returns an empty DataFrame and does not raise. *)
Theorem execute_sql_query_returns_frame (query : string) (k : kernel db) :
  (forall df, succeeds db query k df -> fst (__execute_sql_query db query k) = Ok df)
  /\ (raises_errors_only db query -> (forall df, ~ succeeds db query k df) ->
      fst (__execute_sql_query db query k) = Ok empty_frame).
Proof.
  split.
  - intros df H. apply try_block_succeeds in H. unfold __execute_sql_query.
    destruct (try_block db query k) as [[df'|x] k1]; simpl in *; congruence.
  - intros Herr Hno. destruct (try_block_fails query k Hno) as [x Hx].
    pose proof (try_block_raises query k x Herr Hx) as Hex.
    unfold __execute_sql_query.
    destruct (try_block db query k) as [[df'|y] k1]; simpl in *; [discriminate|].
    inversion Hx; subst. rewrite Hex. reflexivity.
Qed.

Lemma no_engine_no_query (queries : list string) (k : kernel db) :
  k_engine db k = None ->
  k_queries db (snd (run_queries db queries k)) = k_queries db k
  /\ Forall (fun o => o = Ok empty_frame) (fst (run_queries db queries k)).
Proof.
  revert k. induction queries as [|q r IH]; intros k He; simpl.
  - split; [reflexivity | constructor].
  - unfold __execute_sql_query, try_block. rewrite He. simpl.
    set (k1 := printed db k _).
    destruct (IH k1 He) as [Hq Hf].
    destruct (run_queries db r k1) as [os k2]. simpl in *.
    split; [exact Hq | constructor; [reflexivity | exact Hf]].
Qed.

Lemma setup_without_configuration (env : gmap string string) (k0 : kernel db) :
  env !! "DATABASE_URL" = None \/ env !! "SCHEMA_NAME" = None ->
  exists message k,
    setup db env k0 = (Raise (Error "AttributeError" message), k)
    /\ k_engine db k = k_engine db k0 /\ k_queries db k = k_queries db k0.
Proof.
  intros H. unfold setup, getenv_strip.
  destruct (env !! "DATABASE_URL") as [u|] eqn:Hu.
  - destruct (env !! "SCHEMA_NAME") as [s|] eqn:Hs.
    + destruct H; discriminate.
    + eexists _, _. split; [reflexivity|]. split; reflexivity.
  - eexists _, _. split; [reflexivity|]. split; reflexivity.
Qed.

(** C9. When [DATABASE_URL] or [SCHEMA_NAME] is not set (neither in
    the process environment nor by the [.env] file), the set-up cell
    raises, no engine is bound, and whatever is asked afterwards, no
    SQL reaches the database. *)
Theorem setup_raises_without_configuration
    (dotenv : option (gmap string string)) (environ : gmap string string) :
  load_dotenv dotenv environ !! "DATABASE_URL" = None
  \/ load_dotenv dotenv environ !! "SCHEMA_NAME" = None ->
  (exists message, fst (startup db dotenv environ) = Raise (Error "AttributeError" message))
  /\ k_engine db (snd (startup db dotenv environ)) = None
  /\ forall queries,
       k_queries db (snd (run_queries db queries (snd (startup db dotenv environ)))) = [].
Proof.
  intros H. unfold startup.
  destruct (setup_without_configuration _ (fresh db) H) as (message & k & -> & He & Hq).
  simpl. split; [eauto|]. split; [exact He|].
  intros queries. destruct (no_engine_no_query queries k He) as [-> _]. exact Hq.
Qed.

End WithDatabase.

Lemma execute_sql_query_returns_frame_witness :
  fst (__execute_sql_query up "SELECT 1" (bound up tt)) = Ok answer
  /\ fst (__execute_sql_query down "SELECT 1" (bound down tt)) = Ok empty_frame.
Proof.
  split.
  - apply (proj1 (execute_sql_query_returns_frame up "SELECT 1" (bound up tt))).
    exists tt, tt. repeat split.
  - apply (proj2 (execute_sql_query_returns_frame down "SELECT 1" (bound down tt))).
    + repeat split; intros ? x H; inversion H; reflexivity.
    + intros df (e & c & _ & Hc & _). discriminate Hc.
Defined.

Lemma setup_raises_without_configuration_witness :
  (exists message,
      fst (startup up None {["DATABASE_URL" := "postgresql://h/db"]})
      = Raise (Error "AttributeError" message))
  /\ k_engine up (snd (startup up None {["DATABASE_URL" := "postgresql://h/db"]})) = None
  /\ forall queries,
       k_queries up (snd (run_queries up queries
          (snd (startup up None {["DATABASE_URL" := "postgresql://h/db"]})))) = [].
Proof.
  apply (setup_raises_without_configuration up None {["DATABASE_URL" := "postgresql://h/db"]}).
  right. reflexivity.
Defined.

Example strip_spaces : strip "  postgresql://h/db  " = "postgresql://h/db".
Proof. reflexivity. Qed.

Example interrupt_is_not_caught :
  fst (__execute_sql_query interrupted "SELECT 1" (bound interrupted tt))
  = Raise (Interrupt "KeyboardInterrupt").
Proof. reflexivity. Qed.

End NotebookSpec.

(** ** The shell: facts about variables and files *)

Module ShellFacts.
Import Text TextFacts Bash Shell.

Local Arguments Ascii.eqb : simpl never.

Lemma first_item_set_first (s : string) (old : value) : first_item (set_first s old) = s.
Proof.
  destruct old as [t|l|kv]; simpl; try reflexivity.
Qed.

Lemma assign_writable (name s : string) (st : gmap string var) :
  is_readonly name = false ->
  exists v, assign name s st = (<[name := v]> st, 0%Z) /\ first_item (v_value v) = s.
Proof.
  intros H. unfold assign. rewrite H.
  destruct (st !! name) as [[old e]|]; eexists; (split; [reflexivity|]); simpl.
  - apply first_item_set_first.
  - reflexivity.
Qed.

Lemma expand_assign (name s : string) (st : gmap string var) :
  is_readonly name = false -> expand name (fst (assign name s st)) = s.
Proof.
  intros H. destruct (assign_writable name s st H) as (v & -> & Hv).
  unfold expand. simpl. now rewrite lookup_insert_eq.
Qed.

Lemma lookup_assign_ne (name other s : string) (st : gmap string var) :
  name <> other -> fst (assign name s st) !! other = st !! other.
Proof.
  intros Hne. unfold assign. destruct (is_readonly name); [reflexivity|].
  simpl. now rewrite lookup_insert_ne.
Qed.

Lemma expand_assign_ne (name other s : string) (st : gmap string var) :
  name <> other -> expand other (fst (assign name s st)) = expand other st.
Proof. intros Hne. unfold expand. now rewrite lookup_assign_ne. Qed.

Lemma elements_assign_ne (name other s : string) (st : gmap string var) :
  name <> other -> elements other (fst (assign name s st)) = elements other st.
Proof. intros Hne. unfold elements. now rewrite lookup_assign_ne. Qed.

Lemma lookup_declare_ne (name other : string) (pairs : list (string * string))
    (st : gmap string var) :
  name <> other -> fst (declare_assoc name pairs st) !! other = st !! other.
Proof.
  intros Hne. unfold declare_assoc. destruct (is_readonly name); [reflexivity|].
  destruct (st !! name) as [[[t|l|kv] e]|]; simpl; try reflexivity;
    now rewrite lookup_insert_ne.
Qed.

Lemma lookup_append_ne (name other : string) (items : list string) (st : gmap string var) :
  name <> other -> fst (append_items name items st) !! other = st !! other.
Proof.
  intros Hne. unfold append_items. destruct (is_readonly name); [reflexivity|].
  destruct (st !! name) as [[[t|l|kv] e]|]; simpl; try reflexivity;
    now rewrite lookup_insert_ne.
Qed.

(** A legal name has no ['='] in it, and does not start with a dash. *)
Lemma legal_no_equals (name : string) :
  legal_identifier name = true -> has_char "=" name = false.
Proof.
  destruct name as [|c r]; [discriminate|]. simpl.
  intros H. apply andb_prop in H as [Hc Hr].
  destruct (Ascii.eqb "=" c) eqn:E.
  - apply Ascii.eqb_eq in E. subst c. discriminate.
  - simpl. now apply (all_chars_no_char name_char).
Qed.

Lemma dash_not_legal (name : string) :
  starts_with "-" name = true -> legal_identifier name = false.
Proof.
  destruct name as [|c r]; [reflexivity|]. simpl. intros E.
  apply Ascii.eqb_eq in E. subst c. reflexivity.
Qed.

Lemma dash_no_name (name : string) :
  starts_with "-" name = true -> operand_name name = None.
Proof.
  intros H. unfold operand_name. rewrite (dash_not_legal name H).
  destruct (cut_last "+" name) as [[base [|c r]]|] eqn:Hc; try reflexivity.
  apply cut_last_some in Hc. subst name.
  destruct base as [|c b]; [reflexivity|].
  rewrite app_cons in H. simpl in H.
  rewrite (dash_not_legal (String c b)) by exact H. reflexivity.
Qed.

Lemma dash_no_target (name s : string) (st : gmap string var) :
  starts_with "-" name = true -> export_target name s st = Refused.
Proof. intros H. unfold export_target. now rewrite dash_no_name. Qed.

Lemma cut_last_snoc (c : ascii) (s : string) :
  cut_last c (s +:+ String c "") = Some (s, "").
Proof.
  induction s as [|d s IH].
  - simpl. now rewrite Ascii.eqb_refl.
  - rewrite app_cons. simpl. now rewrite IH.
Qed.

(** The two shapes of an operand that names a variable. *)
Lemma operand_name_some (name n : string) :
  operand_name name = Some n ->
  legal_identifier n = true
  /\ ((name = n /\ legal_identifier name = true)
      \/ (name = n +:+ "+" /\ legal_identifier name = false)).
Proof.
  unfold operand_name. destruct (legal_identifier name) eqn:Hl.
  - intros H. inversion H; subst. auto.
  - destruct (cut_last "+" name) as [[base [|c r]]|] eqn:Hc; try discriminate.
    destruct (legal_identifier base) eqn:Hb; [|discriminate].
    intros H. inversion H; subst. split; [exact Hb|]. right.
    split; [|reflexivity]. now apply cut_last_some in Hc.
Qed.

Lemma operand_name_legal (name : string) :
  legal_identifier name = true -> operand_name name = Some name.
Proof. intros H. unfold operand_name. now rewrite H. Qed.

Lemma operand_name_append (n : string) :
  legal_identifier n = true -> operand_name (n +:+ "+") = Some n.
Proof.
  intros H. unfold operand_name.
  assert (Hl : legal_identifier (n +:+ "+") = false).
  { destruct n as [|c r]; [discriminate|]. rewrite app_cons. simpl in *.
    apply andb_prop in H as [Hc Hr]. rewrite Hc. simpl.
    clear Hc. induction r as [|d r IH]; [reflexivity|].
    rewrite app_cons. simpl in *. apply andb_prop in Hr as [Hd Hr].
    rewrite Hd. simpl. now apply IH. }
  rewrite Hl. change (n +:+ "+") with (n +:+ String "+" ""). rewrite cut_last_snoc.
  now rewrite H.
Qed.

(** [export] given the word ["$key=$value"] does to the variables what
    [export_target] says of the two fields. *)
Lemma export_word_fields (k v : string) (st : gmap string var) :
  has_char "=" k = false -> is_empty k = false ->
  export_word (k +:+ String "=" v) st
  = match export_target k v st with
    | Sets n s => (set_exported n s st, 0%Z)
    | Marks n => (mark_exported n st, 1%Z)
    | Own _ => (st, 0%Z)
    | Refused => (st, if starts_with "-" k then 2%Z else 1%Z)
    end.
Proof.
  intros Hk Hne. unfold export_word.
  rewrite (starts_with_app _ _ _ Hne).
  destruct (starts_with "-" k) eqn:Hd.
  - now rewrite dash_no_target.
  - rewrite (cut_app _ _ _ Hk).
    destruct (export_target k v st); reflexivity.
Qed.

Lemma export_fatal_fields (parser : string -> bool) (k v : string) (st : gmap string var) :
  has_char "=" k = false -> is_empty k = false ->
  export_fatal parser (k +:+ String "=" v) st
  = match export_target k v st with
    | Marks _ => true
    | Refused => starts_with "-" k || assigns_element parser (k +:+ String "=" v)
    | _ => false
    end.
Proof.
  intros Hk Hne. unfold export_fatal.
  rewrite (starts_with_app _ _ _ Hne).
  destruct (starts_with "-" k) eqn:Hd.
  - now rewrite dash_no_target.
  - rewrite (cut_app _ _ _ Hk). reflexivity.
Qed.

(** A fatal failure has status 1 or 2. *)
Lemma export_fatal_status (parser : string -> bool) (k v : string) (st : gmap string var) :
  has_char "=" k = false -> is_empty k = false ->
  export_fatal parser (k +:+ String "=" v) st = true ->
  snd (export_word (k +:+ String "=" v) st) = 1%Z
  \/ snd (export_word (k +:+ String "=" v) st) = 2%Z.
Proof.
  intros Hk Hne. rewrite export_fatal_fields, export_word_fields by assumption.
  destruct (export_target k v st); try discriminate; intros _; cbn [snd]; auto.
  destruct (starts_with "-" k); auto.
Qed.

(** *** POSIX mode *)

Lemma posix_insert (name : string) (v : var) (st : gmap string var) :
  posix st = true -> posix (<[name := v]> st) = true.
Proof.
  unfold posix. rewrite !bool_decide_eq_true. intros H.
  destruct (decide (name = "POSIXLY_CORRECT")) as [->|Hne].
  - rewrite lookup_insert_eq. eauto.
  - now rewrite lookup_insert_ne.
Qed.

Lemma posix_assign (name s : string) (st : gmap string var) :
  posix st = true -> posix (fst (assign name s st)) = true.
Proof.
  intros H. unfold assign. destruct (is_readonly name); [exact H|].
  cbn [fst]. now apply posix_insert.
Qed.

Lemma posix_set_exported (name s : string) (st : gmap string var) :
  posix st = true -> posix (set_exported name s st) = true.
Proof.
  intros H. unfold set_exported. destruct (st !! name) as [[old e]|]; now apply posix_insert.
Qed.

Lemma posix_mark_exported (name : string) (st : gmap string var) :
  posix st = true -> posix (mark_exported name st) = true.
Proof.
  intros H. unfold mark_exported. destruct (st !! name) as [[old e]|]; [|exact H].
  now apply posix_insert.
Qed.

Lemma posix_same (st st' : gmap string var) :
  st' !! "POSIXLY_CORRECT" = st !! "POSIXLY_CORRECT" -> posix st' = posix st.
Proof. unfold posix. now intros ->. Qed.

Lemma read_fields_key (line : string) : has_char "=" (fst (read_fields line)) = false.
Proof.
  unfold read_fields. pose proof (cut_no_char "=" line) as H.
  destruct (cut "=" line) as [key [rest|]]; simpl in *; [|assumption].
  destruct (cut "=" rest) as [field [[|c r]|]]; assumption.
Qed.

(** *** Files *)

Lemma can_append_after (fs : filesys) (q q' added : string) :
  can_append fs q = true -> can_append (append_file q' added fs) q = true.
Proof.
  unfold can_append, append_file, allowed, is_dir, is_file; simpl.
  rewrite !andb_true_iff, !orb_true_iff.
  intros [Hrest Hf]. split; [exact Hrest|].
  destruct Hf as [Hf | Hf]; [left | right; assumption].
  apply bool_decide_eq_true in Hf. apply bool_decide_eq_true.
  destruct (decide (q' = q)) as [->|Hne].
  - rewrite lookup_insert_eq. eauto.
  - now rewrite lookup_insert_ne.
Qed.

End ShellFacts.

(** ** [run_main.sh]: the loop over [.env] *)

Module EnvLoop.
Import Text TextFacts Bash Shell ShellFacts RunMain Effects.

Local Arguments Ascii.eqb : simpl never.

Section Loop.
Variable w : world.

Lemma text_ref (name : string) (m : machine) :
  text w [Ref name] m = expand name (m_vars m).
Proof. unfold text. simpl. apply app_nil_r. Qed.

Lemma readonly_key : is_readonly "key" = false.
Proof. reflexivity. Qed.

Lemma readonly_value : is_readonly "value" = false.
Proof. reflexivity. Qed.

(** After [read], [$key] and [$value] are the two fields. *)
Lemma fields_read (k v : string) (st : gmap string var) :
  let st1 := fst (assign "value" v (fst (assign "key" k st))) in
  expand "key" st1 = k /\ expand "value" st1 = v.
Proof.
  split.
  - rewrite expand_assign_ne by discriminate. apply expand_assign, readonly_key.
  - apply expand_assign, readonly_value.
Qed.

Lemma text_word (m : machine) :
  text w [Ref "key"; Lit "="; Ref "value"] m
  = expand "key" (m_vars m) +:+ String "=" (expand "value" (m_vars m)).
Proof. unfold text. cbn [expansion]. now rewrite app_nil_r. Qed.

(** One turn of the loop: [read] succeeds on [line], then the body. *)
Lemma loop_turn (line : string) (m : machine) :
  exists m',
    (read_into line ;; env_body w)%cmd m
    = (if line_fatal (w_element w) line (m_vars m)
       then Halt (line_status line (m_vars m)) m' else Go m')
    /\ m_vars m' = line_effect line (m_vars m)
    /\ m_status m' = line_status line (m_vars m)
    /\ m_fs m' = m_fs m /\ m_cwd m' = m_cwd m /\ m_stdin m' = m_stdin m
    /\ m_trace m' = m_trace m /\ m_runs m' = m_runs m /\ m_dates m' = m_dates m.
Proof.
  unfold seq, read_into, line_effect, line_fatal, line_status.
  pose proof (read_fields_key line) as Hkey.
  destruct (read_fields line) as [k v]. simpl in Hkey.
  destruct (fields_read k v (m_vars m)) as [Hk Hv].
  change (k +:+ "=" +:+ v) with (k +:+ String "=" v).
  set (st1 := fst (assign "value" v (fst (assign "key" k (m_vars m))))) in *.
  unfold env_body, ite, wanted. rewrite !text_ref. cbn [with_vars m_vars fst]. rewrite Hk.
  unfold key_wanted. rewrite (andb_comm (negb (is_empty k))).
  destruct (negb (starts_with "#" k) && negb (is_empty k)) eqn:Hw.
  - apply andb_prop in Hw as [_ Hne]. apply negb_true_iff in Hne.
    unfold export. rewrite text_word. cbn [with_vars m_vars fst snd andb]. rewrite Hk, Hv.
    assert (Hvars : fst (export_word (k +:+ String "=" v) st1)
                    = match export_target k v st1 with
                      | Sets n s => set_exported n s st1
                      | Marks n => mark_exported n st1
                      | Own _ | Refused => st1
                      end).
    { rewrite (export_word_fields k v st1 Hkey Hne).
      destruct (export_target k v st1); reflexivity. }
    destruct (posix st1 && export_fatal (w_element w) (k +:+ String "=" v) st1);
      (eexists; split; [reflexivity|]);
      cbn [with_vars expanded with_dates m_vars m_status m_fs m_cwd m_stdin m_trace m_runs
           m_dates dates_in fst snd];
      (split; [exact Hvars|]); repeat split; lia.
  - unfold pass. cbn [andb]. eexists. split; [reflexivity|].
    cbn [with_vars with_status m_vars m_status m_fs m_cwd m_stdin m_trace m_runs m_dates fst snd].
    repeat split.
Qed.

(** The loop: what [lines_effect] says of the variables, and nothing
    else. *)
Lemma while_read_effect (lines : list string) (m : machine) :
  exists m',
    while_read w lines m
    = match snd (lines_effect (w_element w) lines (m_vars m)) with
      | None => Go m'
      | Some z => Halt z m'
      end
    /\ m_vars m' = fst (lines_effect (w_element w) lines (m_vars m))
    /\ m_fs m' = m_fs m /\ m_cwd m' = m_cwd m /\ m_stdin m' = m_stdin m
    /\ m_trace m' = m_trace m /\ m_runs m' = m_runs m /\ m_dates m' = m_dates m.
Proof.
  revert m. induction lines as [|line r IH]; intros m.
  - exists m. repeat split.
  - destruct (loop_turn line m) as (m1 & H1 & Hv1 & _ & Hf1 & Hc1 & Hs1 & Ht1 & Hr1 & Hd1).
    change (while_read w (line :: r))
      with (read_into line ;; env_body w ;; while_read w r)%cmd.
    assert (Hseq : (read_into line ;; env_body w ;; while_read w r)%cmd m
                   = match (read_into line ;; env_body w)%cmd m with
                     | Go m' => while_read w r m'
                     | Halt z m' => Halt z m'
                     end).
    { unfold seq. destruct (read_into line m) as [m0|z m0]; [|reflexivity].
      now destruct (env_body w m0). }
    rewrite Hseq, H1. cbn [lines_effect].
    destruct (line_fatal (w_element w) line (m_vars m)).
    + exists m1. cbn [fst snd]. repeat split; assumption.
    + destruct (IH m1) as (m2 & H2 & Hv2 & Hf2 & Hc2 & Hs2 & Ht2 & Hr2 & Hd2).
      exists m2. rewrite <- Hv1. split; [exact H2|]. split; [exact Hv2|].
      repeat split; congruence.
Qed.

Lemma while_read_last (lines : list string) (m : machine) :
  m_vars (last_state (while_read w lines m))
  = fst (lines_effect (w_element w) lines (m_vars m)).
Proof.
  destruct (while_read_effect lines m) as (m' & -> & Hv & _).
  now destruct (snd (lines_effect (w_element w) lines (m_vars m))).
Qed.

End Loop.

(** *** What one line does to the variables *)

Lemma lookup_set_exported_ne (n s name : string) (st : gmap string var) :
  n <> name -> set_exported n s st !! name = st !! name.
Proof.
  intros Hne. unfold set_exported.
  destruct (st !! n) as [[old e]|]; now rewrite lookup_insert_ne.
Qed.

Lemma lookup_moved_to_ne (dir name : string) (st : gmap string var) :
  name <> "PWD" -> name <> "OLDPWD" -> moved_to dir st !! name = st !! name.
Proof.
  intros H1 H2. unfold moved_to. now rewrite !lookup_set_exported_ne by congruence.
Qed.

Lemma expand_moved_to_ne (dir name : string) (st : gmap string var) :
  name <> "PWD" -> name <> "OLDPWD" -> expand name (moved_to dir st) = expand name st.
Proof. intros H1 H2. unfold expand. now rewrite lookup_moved_to_ne. Qed.

Lemma lookup_mark_exported_ne (n name : string) (st : gmap string var) :
  n <> name -> mark_exported n st !! name = st !! name.
Proof.
  intros Hne. unfold mark_exported.
  destruct (st !! n) as [[old e]|]; [now rewrite lookup_insert_ne | reflexivity].
Qed.

Lemma lookup_mark_exported (n : string) (st : gmap string var) :
  mark_exported n st !! n = (fun x => Var (v_value x) true) <$> st !! n.
Proof.
  unfold mark_exported. destruct (st !! n) as [[old e]|] eqn:E.
  - now rewrite lookup_insert_eq.
  - now rewrite E.
Qed.

Lemma lookup_set_exported (n s : string) (st : gmap string var) :
  exists v, set_exported n s st !! n = Some (Var v true) /\ first_item v = s.
Proof.
  unfold set_exported. destruct (st !! n) as [[old e]|]; rewrite lookup_insert_eq.
  - eexists. split; [reflexivity|]. apply first_item_set_first.
  - eexists. split; reflexivity.
Qed.

Lemma lookup_read_ne (k v name : string) (st : gmap string var) :
  name <> "key" -> name <> "value" ->
  fst (assign "value" v (fst (assign "key" k st))) !! name = st !! name.
Proof.
  intros Hk Hv. rewrite !lookup_assign_ne by congruence. reflexivity.
Qed.

Lemma posix_read (k v : string) (st : gmap string var) :
  posix (fst (assign "value" v (fst (assign "key" k st)))) = posix st.
Proof. apply posix_same, lookup_read_ne; discriminate. Qed.

Lemma legal_wanted (key : string) : legal_identifier key = true -> key_wanted key = true.
Proof.
  destruct key as [|c r]; [discriminate|]. unfold key_wanted. simpl.
  intros H. apply andb_prop in H as [Hc _].
  destruct (Ascii.eqb "#" c) eqn:E; [|reflexivity].
  apply Ascii.eqb_eq in E. subst c. discriminate.
Qed.

Lemma named_wanted (k n : string) : operand_name k = Some n -> key_wanted k = true.
Proof.
  intros H. apply operand_name_some in H as (Hn & [[-> _]|[-> _]]).
  - now apply legal_wanted.
  - pose proof (legal_wanted n Hn) as Hw. unfold key_wanted in *.
    destruct n as [|c r]; [discriminate|]. exact Hw.
Qed.

Lemma readonly_not_read (n : string) :
  is_readonly n = true -> n <> "key" /\ n <> "value".
Proof. intros H. split; intros ->; discriminate H. Qed.

(** The verdict on a key, by the name it stands for. *)
Lemma export_target_named (k v n : string) (st : gmap string var) :
  operand_name k = Some n ->
  export_target k v st
  = if is_readonly n then Marks n
    else if is_computed n then Own n
    else Sets n (if legal_identifier k then v else expand n st +:+ v).
Proof. intros H. unfold export_target. now rewrite H. Qed.

Lemma export_target_unnamed (k v : string) (st : gmap string var) :
  operand_name k = None -> export_target k v st = Refused.
Proof. intros H. unfold export_target. now rewrite H. Qed.

Lemma export_target_name (k v n : string) (st : gmap string var) :
  match export_target k v st with
  | Sets n _ | Marks n | Own n => operand_name k = Some n
  | Refused => operand_name k = None
  end.
Proof.
  unfold export_target. destruct (operand_name k) as [x|]; [|reflexivity].
  destruct (is_readonly x); [reflexivity|]. now destruct (is_computed x).
Qed.

(** A variable that the key of a line does not name is left as [read]
    leaves it: as it was, unless it is [key] or [value]. *)
Lemma line_effect_read (line name : string) (st : gmap string var) :
  operand_name (fst (read_fields line)) <> Some name ->
  line_effect line st !! name = read_last line st !! name.
Proof.
  intros Hn. unfold line_effect, read_last.
  destruct (read_fields line) as [k v]. cbn [fst snd] in *.
  destruct (key_wanted k); [|reflexivity].
  pose proof (export_target_name k v "" (fst (assign "value" v (fst (assign "key" k st)))))
    as Ht.
  destruct (export_target k v _) as [n s|n|n|]; try reflexivity.
  - apply lookup_set_exported_ne. congruence.
  - apply lookup_mark_exported_ne. congruence.
Qed.

Lemma line_effect_frame (line name : string) (st : gmap string var) :
  name <> "key" -> name <> "value" ->
  operand_name (fst (read_fields line)) <> Some name ->
  line_effect line st !! name = st !! name.
Proof.
  intros Hk Hv Hn. rewrite (line_effect_read line name st Hn).
  unfold read_last. now apply lookup_read_ne.
Qed.

Lemma read_last_fields (line : string) (st : gmap string var) :
  expand "key" (read_last line st) = fst (read_fields line)
  /\ expand "value" (read_last line st) = snd (read_fields line).
Proof.
  unfold read_last. split.
  - rewrite expand_assign_ne by discriminate. now apply expand_assign.
  - now apply expand_assign.
Qed.

Lemma posix_line_effect (line : string) (st : gmap string var) :
  posix st = true -> posix (line_effect line st) = true.
Proof.
  intros H. unfold line_effect. destruct (read_fields line) as [k v].
  assert (H1 : posix (fst (assign "value" v (fst (assign "key" k st)))) = true)
    by now rewrite posix_read.
  destruct (key_wanted k); [|exact H1].
  destruct (export_target k v _);
    auto using posix_set_exported, posix_mark_exported.
Qed.

(** A turn that ends the shell: bash was in POSIX mode and the status
    is 1 or 2. *)
Lemma line_fatal_posix (parser : string -> bool) (line : string) (st : gmap string var) :
  line_fatal parser line st = true ->
  posix st = true /\ (line_status line st = 1%Z \/ line_status line st = 2%Z).
Proof.
  unfold line_fatal, line_status. pose proof (read_fields_key line) as Hkey.
  destruct (read_fields line) as [k v]. cbn [fst] in Hkey.
  change (k +:+ "=" +:+ v) with (k +:+ String "=" v).
  rewrite posix_read. intros H.
  apply andb_prop in H as [H Hf]. apply andb_prop in H as [Hw Hp].
  rewrite Hw. split; [exact Hp|].
  apply (export_fatal_status parser); [exact Hkey | | exact Hf].
  unfold key_wanted in Hw. apply andb_prop in Hw as [Hne _]. now apply negb_true_iff in Hne.
Qed.

Lemma line_default (parser : string -> bool) (line : string) (st : gmap string var) :
  posix st = false -> line_fatal parser line st = false.
Proof.
  intros H. unfold line_fatal. destruct (read_fields line) as [k v].
  rewrite posix_read, H, andb_false_r. reflexivity.
Qed.

(** *** The loop as a whole *)

Lemma lines_effect_go (parser : string -> bool) (ls : list string) (st : gmap string var) :
  snd (lines_effect parser ls st) = None ->
  fst (lines_effect parser ls st) = fold_left (fun st line => line_effect line st) ls st.
Proof.
  revert st. induction ls as [|l r IH]; intros st; [reflexivity|].
  cbn [lines_effect fold_left]. destruct (line_fatal parser l st); [discriminate|].
  apply IH.
Qed.

Lemma lines_effect_halt (parser : string -> bool) (ls : list string) (st : gmap string var)
    (z : Z) :
  snd (lines_effect parser ls st) = Some z ->
  (z = 1%Z \/ z = 2%Z) /\ posix (fst (lines_effect parser ls st)) = true.
Proof.
  revert st. induction ls as [|l r IH]; intros st; [discriminate|].
  cbn [lines_effect]. destruct (line_fatal parser l st) eqn:Hf; [|apply IH].
  cbn [fst snd]. intros H. inversion H; subst.
  destruct (line_fatal_posix parser l st Hf) as [Hp Hz].
  split; [exact Hz|]. now apply posix_line_effect.
Qed.

Lemma lines_effect_frame (parser : string -> bool) (ls : list string) (name : string)
    (st : gmap string var) :
  name <> "key" -> name <> "value" ->
  Forall (fun l => operand_name (fst (read_fields l)) <> Some name) ls ->
  fst (lines_effect parser ls st) !! name = st !! name.
Proof.
  intros Hk Hv H. revert st. induction H as [|l r Hl Hr IH]; intros st; [reflexivity|].
  cbn [lines_effect]. destruct (line_fatal parser l st); cbn [fst].
  - now apply line_effect_frame.
  - rewrite IH. now apply line_effect_frame.
Qed.

(** Outside POSIX mode, and with no line that names [POSIXLY_CORRECT],
    the loop comes to its end. *)
Lemma lines_effect_default (parser : string -> bool) (ls : list string)
    (st : gmap string var) :
  posix st = false ->
  Forall (fun l => operand_name (fst (read_fields l)) <> Some "POSIXLY_CORRECT") ls ->
  snd (lines_effect parser ls st) = None.
Proof.
  intros Hp H. revert st Hp. induction H as [|l r Hl Hr IH]; intros st Hp; [reflexivity|].
  cbn [lines_effect]. rewrite (line_default parser l st Hp). apply IH.
  rewrite <- Hp. apply posix_same. apply line_effect_frame; [discriminate..|exact Hl].
Qed.

(** *** One line, by the name its key stands for *)

Lemma wanted_named (k : string) : key_wanted k = true -> is_empty k = false.
Proof.
  unfold key_wanted. intros H. apply andb_prop in H as [H _]. now apply negb_true_iff in H.
Qed.

Lemma line_unwanted (parser : string -> bool) (line : string) (st : gmap string var) :
  key_wanted (fst (read_fields line)) = false ->
  line_fatal parser line st = false /\ line_status line st = 0%Z
  /\ line_effect line st = read_last line st.
Proof.
  unfold line_fatal, line_status, line_effect, read_last.
  destruct (read_fields line) as [k v]. cbn [fst snd]. intros ->. auto.
Qed.

Lemma line_sets (parser : string -> bool) (line n : string) (st : gmap string var) :
  operand_name (fst (read_fields line)) = Some n ->
  is_readonly n = false -> is_computed n = false ->
  line_fatal parser line st = false /\ line_status line st = 0%Z
  /\ line_effect line st
     = set_exported n
         (if legal_identifier (fst (read_fields line)) then snd (read_fields line)
          else expand n (read_last line st) +:+ snd (read_fields line))
         (read_last line st).
Proof.
  unfold line_fatal, line_status, line_effect, read_last.
  pose proof (read_fields_key line) as Hkey.
  destruct (read_fields line) as [k v]. cbn [fst snd] in *.
  change (k +:+ "=" +:+ v) with (k +:+ String "=" v).
  intros Hn Hro Hco. pose proof (named_wanted k n Hn) as Hw.
  pose proof (wanted_named k Hw) as Hne. rewrite Hw.
  rewrite (export_fatal_fields parser k v _ Hkey Hne), (export_word_fields k v _ Hkey Hne).
  rewrite (export_target_named k v n _ Hn), Hro, Hco.
  cbn [fst snd]. rewrite andb_false_r. auto.
Qed.

Lemma line_marks (parser : string -> bool) (line n : string) (st : gmap string var) :
  operand_name (fst (read_fields line)) = Some n -> is_readonly n = true ->
  line_fatal parser line st = posix st /\ line_status line st = 1%Z
  /\ line_effect line st = mark_exported n (read_last line st).
Proof.
  unfold line_fatal, line_status, line_effect, read_last.
  pose proof (read_fields_key line) as Hkey.
  destruct (read_fields line) as [k v]. cbn [fst snd] in *.
  change (k +:+ "=" +:+ v) with (k +:+ String "=" v).
  intros Hn Hro. pose proof (named_wanted k n Hn) as Hw.
  pose proof (wanted_named k Hw) as Hne. rewrite Hw.
  rewrite (export_fatal_fields parser k v _ Hkey Hne), (export_word_fields k v _ Hkey Hne).
  rewrite (export_target_named k v n _ Hn), Hro, posix_read.
  cbn [fst snd andb]. rewrite andb_true_r. auto.
Qed.

Lemma line_own (parser : string -> bool) (line n : string) (st : gmap string var) :
  operand_name (fst (read_fields line)) = Some n ->
  is_readonly n = false -> is_computed n = true ->
  line_fatal parser line st = false /\ line_status line st = 0%Z
  /\ line_effect line st = read_last line st.
Proof.
  unfold line_fatal, line_status, line_effect, read_last.
  pose proof (read_fields_key line) as Hkey.
  destruct (read_fields line) as [k v]. cbn [fst snd] in *.
  change (k +:+ "=" +:+ v) with (k +:+ String "=" v).
  intros Hn Hro Hco. pose proof (named_wanted k n Hn) as Hw.
  pose proof (wanted_named k Hw) as Hne. rewrite Hw.
  rewrite (export_fatal_fields parser k v _ Hkey Hne), (export_word_fields k v _ Hkey Hne).
  rewrite (export_target_named k v n _ Hn), Hro, Hco.
  cbn [fst snd]. rewrite andb_false_r. auto.
Qed.

Lemma line_refused (parser : string -> bool) (line : string) (st : gmap string var) :
  key_wanted (fst (read_fields line)) = true ->
  operand_name (fst (read_fields line)) = None ->
  line_fatal parser line st
  = posix st
    && (starts_with "-" (fst (read_fields line))
        || assigns_element parser
             (fst (read_fields line) +:+ "=" +:+ snd (read_fields line)))
  /\ line_status line st = (if starts_with "-" (fst (read_fields line)) then 2%Z else 1%Z)
  /\ line_effect line st = read_last line st.
Proof.
  unfold line_fatal, line_status, line_effect, read_last.
  pose proof (read_fields_key line) as Hkey.
  destruct (read_fields line) as [k v]. cbn [fst snd] in *.
  change (k +:+ "=" +:+ v) with (k +:+ String "=" v).
  intros Hw Hn. pose proof (wanted_named k Hw) as Hne. rewrite Hw.
  rewrite (export_fatal_fields parser k v _ Hkey Hne), (export_word_fields k v _ Hkey Hne).
  rewrite (export_target_unnamed k v _ Hn), posix_read.
  cbn [fst snd andb]. auto.
Qed.

Lemma ordinary_parts (n : string) :
  ordinary n = true ->
  legal_identifier n = true /\ is_readonly n = false /\ is_computed n = false.
Proof.
  unfold ordinary. intros H. apply andb_prop in H as [H Hc]. apply andb_prop in H as [Hl Hr].
  apply negb_true_iff in Hr, Hc. auto.
Qed.

Lemma expand_read_last (line name : string) (st : gmap string var) :
  name <> "key" -> name <> "value" -> expand name (read_last line st) = expand name st.
Proof. intros Hk Hv. unfold expand, read_last. now rewrite lookup_read_ne. Qed.

Lemma lookup_read_last (line name : string) (st : gmap string var) :
  name <> "key" -> name <> "value" -> read_last line st !! name = st !! name.
Proof. intros Hk Hv. unfold read_last. now rewrite lookup_read_ne. Qed.

Lemma expand_set_exported (n s : string) (st : gmap string var) :
  expand n (set_exported n s st) = s /\ v_export <$> set_exported n s st !! n = Some true.
Proof.
  destruct (lookup_set_exported n s st) as (v & Hv & Hs).
  unfold expand. rewrite Hv. cbn. auto.
Qed.

Section Claims.
Variable w : world.

Lemma occurrences_none (c : ascii) (s : string) :
  has_char c s = false -> occurrences c s = 0.
Proof.
  induction s as [|d s IH]; simpl; [reflexivity|].
  intros H. apply orb_false_elim in H as [-> Hs]. now rewrite IH.
Qed.

Lemma occurrences_app (c : ascii) (a b : string) :
  occurrences c (a +:+ b) = occurrences c a + occurrences c b.
Proof.
  induction a as [|d a IH]; [reflexivity|].
  rewrite app_cons. simpl. rewrite IH. lia.
Qed.

Lemma chop_app_last (c : ascii) (a : string) : chop (a +:+ String c "") = a.
Proof.
  induction a as [|x a IH]; [reflexivity|].
  rewrite app_cons. simpl. rewrite IH.
  destruct (a +:+ String c "") eqn:E; [|reflexivity].
  destruct a; discriminate.
Qed.

Lemma ends_with_occurs (c : ascii) (s : string) :
  ends_with c s = true -> 1 <= occurrences c s.
Proof.
  induction s as [|d s IH]; simpl; [discriminate|].
  destruct s as [|e s].
  - intros ->. simpl. lia.
  - intros H. specialize (IH H). lia.
Qed.

(** The value that [read] leaves when the line is [key=rest]. *)
Lemma read_fields_value (key rest : string) :
  has_char "=" key = false ->
  read_fields (key +:+ String "=" rest)
  = (key, if closes_one_field rest then chop rest else rest).
Proof.
  intros Hk. unfold read_fields. rewrite (cut_app _ _ _ Hk).
  unfold closes_one_field.
  destruct (cut "=" rest) as [field [[|c r]|]] eqn:Hc.
  - apply cut_some in Hc as [-> Hf].
    rewrite ends_with_app_cons, occurrences_app, (occurrences_none _ _ Hf).
    simpl. now rewrite chop_app_last.
  - apply cut_some in Hc as [-> Hf].
    rewrite ends_with_app_cons, occurrences_app, (occurrences_none _ _ Hf).
    change (occurrences "=" (String "=" (String c r)))
      with (S (occurrences "=" (String c r))).
    change (ends_with "=" (String "=" (String c r)))
      with (ends_with "=" (String c r)).
    destruct (ends_with "=" (String c r)) eqn:He; [|reflexivity].
    apply ends_with_occurs in He.
    destruct (occurrences "=" (String c r)); [lia | reflexivity].
  - assert (Hn : has_char "=" rest = false).
    { pose proof (cut_no_char "=" rest) as H. destruct (has_char "=" rest) eqn:E; [|reflexivity].
      exfalso. clear H. revert field Hc.
      induction rest as [|d s IH]; simpl in *; [discriminate|].
      intros field. destruct (Ascii.eqb "=" d) eqn:Ed; [discriminate|].
      simpl in E. destruct (cut "=" s) as [a b] eqn:Hs.
      intros H. inversion H; subst. now apply (IH E a). }
    rewrite (occurrences_none _ _ Hn), andb_false_r. reflexivity.
Qed.

Lemma turn_last (line : string) (m m' : machine) (b : bool) (z : Z) :
  (read_into line ;; env_body w)%cmd m = (if b then Halt z m' else Go m') ->
  last_state ((read_into line ;; env_body w)%cmd m) = m'.
Proof. intros ->. now destruct b. Qed.

(** C4 (amended). One turn of the loop, for a line that [read] has
    delivered with the key [k] and the value [v]; the loop runs such a
    turn for each line and goes on with the next one unless the turn
    has ended the shell.
    - A line without key, or whose key begins with [#], is passed over.
    - The fields are left in [key] and [value], unless the key names
      one of the two.
    - When [k] is an ordinary name, the variable [k] holds [v]
      afterwards and is exported; when [k] is such a name followed by
      [+], [v] is appended to the variable, which is exported.
    - When [k] stands for a read-only variable, the value is refused
      with status 1, the variable is exported as it is, and in POSIX
      mode the shell exits with 1.
    - When [k] stands for a variable that bash computes, the
      assignment is accepted and the loop goes on.
    - Any other key changes nothing: the status is 2 for a leading
      dash and 1 otherwise, and in POSIX mode the shell exits with it
      when the dash is there or the word assigns to an array element.
    - No turn changes another variable than [key], [value] and the one
      its key stands for. *)
Theorem dotenv_line_exported (line : string) (rest : list string) (m : machine) :
  let k := fst (read_fields line) in
  let v := snd (read_fields line) in
  let turn := (read_into line ;; env_body w)%cmd in
  let st := m_vars m in
  let st' := m_vars (last_state (turn m)) in
  while_read w (line :: rest) m
  = match turn m with
    | Go m' => while_read w rest m'
    | Halt z m' => Halt z m'
    end
  /\ (key_wanted k = false ->
      (exists m', turn m = Go m')
      /\ forall name, name <> "key" -> name <> "value" -> is_computed name = false ->
                      st' !! name = st !! name)
  /\ ((operand_name k <> Some "key" -> expand "key" st' = k)
      /\ (operand_name k <> Some "value" -> expand "value" st' = v))
  /\ (ordinary k = true ->
      (exists m', turn m = Go m' /\ m_status m' = 0%Z)
      /\ expand k st' = v /\ v_export <$> st' !! k = Some true)
  /\ (forall n, k = n +:+ "+" -> ordinary n = true ->
      (exists m', turn m = Go m' /\ m_status m' = 0%Z)
      /\ expand n st'
         = (if String.eqb n "key" then k
            else if String.eqb n "value" then v
            else expand n st) +:+ v
      /\ v_export <$> st' !! n = Some true)
  /\ (forall n, operand_name k = Some n -> is_readonly n = true ->
      st' !! n = (fun x => Var (v_value x) true) <$> st !! n
      /\ m_status (last_state (turn m)) = 1%Z
      /\ turn m = (if posix st then Halt 1%Z else Go) (last_state (turn m)))
  /\ (forall n, operand_name k = Some n -> is_readonly n = false -> is_computed n = true ->
      exists m', turn m = Go m' /\ m_status m' = 0%Z)
  /\ (key_wanted k = true -> operand_name k = None ->
      (forall name, name <> "key" -> name <> "value" -> is_computed name = false ->
                    st' !! name = st !! name)
      /\ m_status (last_state (turn m)) = (if starts_with "-" k then 2%Z else 1%Z)
      /\ turn m
         = (if posix st
               && (starts_with "-" k || assigns_element (w_element w) (k +:+ "=" +:+ v))
            then Halt (if starts_with "-" k then 2%Z else 1%Z) else Go)
             (last_state (turn m)))
  /\ (forall name, name <> "key" -> name <> "value" -> operand_name k <> Some name ->
      is_computed name = false -> st' !! name = st !! name).
Proof.
  intros k v turn st st'.
  destruct (loop_turn w line m) as (m' & H1 & Hv & Hs & _).
  fold turn in H1. fold st in H1, Hv, Hs.
  assert (Hlast : last_state (turn m) = m') by exact (turn_last line m m' _ _ H1).
  assert (Hst' : st' = line_effect line st) by (subst st'; now rewrite Hlast).
  rewrite Hlast. clearbody st'. subst st'.
  split; [|split; [|split; [|split; [|split; [|split; [|split; [|split]]]]]]].
  - change (while_read w (line :: rest))
      with (read_into line ;; env_body w ;; while_read w rest)%cmd.
    subst turn. unfold seq. destruct (read_into line m) as [m0|z m0]; [|reflexivity].
    now destruct (env_body w m0).
  - intros Hw. destruct (line_unwanted (w_element w) line st Hw) as (Hf & _ & He).
    rewrite Hf in H1. split; [eauto|].
    intros name Hk Hval _. rewrite He. now apply lookup_read_last.
  - destruct (read_last_fields line st) as [Hkey Hvalue]. unfold expand in *.
    split; intros Hn; rewrite (line_effect_read line _ st Hn); assumption.
  - intros Ho. destruct (ordinary_parts k Ho) as (Hl & Hro & Hco).
    destruct (line_sets (w_element w) line k st (operand_name_legal k Hl) Hro Hco)
      as (Hf & Hz & He).
    rewrite Hf in H1. rewrite Hz in Hs. split; [eauto|].
    rewrite He. fold k v. rewrite Hl. apply expand_set_exported.
  - intros n Hk Ho. destruct (ordinary_parts n Ho) as (Hl & Hro & Hco).
    assert (Hn : operand_name k = Some n) by (rewrite Hk; now apply operand_name_append).
    destruct (operand_name_some k n Hn) as (_ & [[Hkn Hlk]|[_ Hlk]]).
    { exfalso. rewrite Hk in Hkn.
      assert (Hlen : String.length (n +:+ "+") = String.length n) by now rewrite Hkn.
      rewrite length_append in Hlen. simpl in Hlen. lia. }
    destruct (line_sets (w_element w) line n st Hn Hro Hco) as (Hf & Hz & He).
    rewrite Hf in H1. rewrite Hz in Hs. split; [eauto|].
    rewrite He. fold k v. rewrite Hlk.
    assert (Hold : expand n (read_last line st)
                   = if String.eqb n "key" then k
                     else if String.eqb n "value" then v
                     else expand n st).
    { destruct (read_last_fields line st) as [Hkey Hvalue].
      destruct (String.eqb n "key") eqn:E1; [apply String.eqb_eq in E1; now subst n|].
      destruct (String.eqb n "value") eqn:E2; [apply String.eqb_eq in E2; now subst n|].
      apply String.eqb_neq in E1, E2. now apply expand_read_last. }
    rewrite Hold. apply expand_set_exported.
  - intros n Hn Hro. destruct (line_marks (w_element w) line n st Hn Hro) as (Hf & Hz & He).
    destruct (readonly_not_read n Hro) as [Hnk Hnv].
    rewrite Hf, Hz in H1. rewrite Hz in Hs.
    split; [|split; [exact Hs | rewrite H1; now destruct (posix st)]].
    now rewrite He, lookup_mark_exported, lookup_read_last.
  - intros n Hn Hro Hco. destruct (line_own (w_element w) line n st Hn Hro Hco) as (Hf & Hz & _).
    rewrite Hf in H1. rewrite Hz in Hs. eauto.
  - intros Hw Hn. destruct (line_refused (w_element w) line st Hw Hn) as (Hf & Hz & He).
    fold k v in Hf, Hz. rewrite Hf, Hz in H1. rewrite Hz in Hs.
    split; [|split; [exact Hs | rewrite H1; now destruct (_ && _)]].
    intros name Hk Hval _. rewrite He. now apply lookup_read_last.
  - intros name Hk Hval Hn _. now apply line_effect_frame.
Qed.

(** X4. What [read] keeps of the later ['=']. In a line [key=rest]
    whose key is an ordinary name the line is split at its first ['=']
    only, and the key is exported with the whole of [rest], every later
    ['='] included, unless [rest] has exactly one ['='] and ends with
    it: that one is dropped. *)
Theorem later_equals_kept (key rest : string) (m : machine) :
  ordinary key = true ->
  let after := m_vars (last_state ((read_into (key +:+ "=" +:+ rest) ;; env_body w)%cmd m)) in
  expand key after = (if closes_one_field rest then chop rest else rest)
  /\ v_export <$> after !! key = Some true.
Proof.
  intros Ho after. subst after.
  destruct (ordinary_parts key Ho) as (Hlegal & Hro & Hco).
  change (key +:+ "=" +:+ rest) with (key +:+ String "=" rest).
  pose proof (read_fields_value key rest (legal_no_equals key Hlegal)) as Hread.
  destruct (loop_turn w (key +:+ String "=" rest) m) as (m' & H1 & Hv & _).
  rewrite (turn_last _ _ _ _ _ H1), Hv.
  destruct (line_sets (w_element w) (key +:+ String "=" rest) key (m_vars m)) as (_ & _ & He).
  - rewrite Hread. now apply operand_name_legal.
  - exact Hro.
  - exact Hco.
  - rewrite He, Hread. cbn [fst snd]. rewrite Hlegal. apply expand_set_exported.
Qed.

End Claims.
End EnvLoop.

(** ** [run_main.sh]: what no command of the wrapper undoes *)

Module Frame.
Import Text TextFacts Bash Shell ShellFacts RunMain EnvLoop.

Local Open Scope list_scope.
Local Open Scope cmd_scope.

Lemma contents_append (q q' added : string) (fs : filesys) :
  contents (append_file q added fs) q'
  = if decide (q = q') then contents fs q' +:+ added else contents fs q'.
Proof.
  unfold contents, append_file; simpl. destruct (decide (q = q')) as [->|Hne].
  - now rewrite lookup_insert_eq.
  - now rewrite lookup_insert_ne.
Qed.

Lemma grows_refl (fs : filesys) : grows fs fs.
Proof.
  repeat split; auto. exists "". now rewrite app_nil_r.
Qed.

Lemma grows_trans (a b c : filesys) : grows a b -> grows b c -> grows a c.
Proof.
  intros (Hd1 & Hp1 & Hf1) (Hd2 & Hp2 & Hf2).
  split; [congruence|]. split; [congruence|]. intros q.
  destruct (Hf1 q) as [Hk1 [x1 Hx1]], (Hf2 q) as [Hk2 [x2 Hx2]].
  split; [auto|]. exists (x1 +:+ x2). now rewrite Hx2, Hx1, app_assoc.
Qed.

Lemma grows_append (q added : string) (fs : filesys) : grows fs (append_file q added fs).
Proof.
  split; [reflexivity|]. split; [reflexivity|]. intros q'. split.
  - unfold append_file; simpl. intros H. destruct (decide (q = q')) as [->|Hne].
    + rewrite lookup_insert_eq. eauto.
    + now rewrite lookup_insert_ne.
  - rewrite contents_append. destruct (decide (q = q')); [eauto|].
    exists "". now rewrite app_nil_r.
Qed.

Lemma can_append_grows (fs fs' : filesys) (q : string) :
  grows fs fs' -> can_append fs q = true -> can_append fs' q = true.
Proof.
  intros (Hd & Hp & Hf). unfold can_append, allowed, is_dir, is_file.
  rewrite Hd, Hp, !andb_true_iff, !orb_true_iff. intros [Hrest Hfile].
  split; [exact Hrest|]. destruct Hfile as [Hfile|Hdir]; [left|right; exact Hdir].
  apply bool_decide_eq_true in Hfile. apply bool_decide_eq_true.
  now apply (Hf q).
Qed.

Lemma assoc_del_length (k : string) (kv : list (string * string)) :
  length (assoc_del k kv) <= length kv.
Proof.
  induction kv as [|[k' x] r IH]; simpl; [lia|].
  destruct (String.eqb k k'); simpl; lia.
Qed.

Lemma python3_runs_app (l1 l2 : list event) :
  python3_runs (l1 ++ l2) = python3_runs l1 + python3_runs l2.
Proof. unfold python3_runs. now rewrite List.filter_app, List.length_app. Qed.

Lemma within_refl (m : machine) : within 0 m m.
Proof.
  split; [apply grows_refl|]. split; [reflexivity|].
  exists []. split; [now rewrite List.app_nil_r | reflexivity].
Qed.

Lemma within_trans (a b : nat) (m1 m2 m3 : machine) :
  within a m1 m2 -> within b m2 m3 -> within (a + b) m1 m3.
Proof.
  intros (Hg1 & Hs1 & l1 & Ht1 & Hn1) (Hg2 & Hs2 & l2 & Ht2 & Hn2).
  split; [eapply grows_trans; eassumption|]. split; [congruence|].
  exists (l1 ++ l2). split.
  - now rewrite Ht2, Ht1, <- List.app_assoc.
  - rewrite python3_runs_app. lia.
Qed.

Lemma within_le (a b : nat) (m m' : machine) : a <= b -> within a m m' -> within b m m'.
Proof.
  intros Hle (Hg & Hs & l & Ht & Hn). split; [assumption|]. split; [assumption|].
  exists l. split; [assumption | lia].
Qed.

(** A step that leaves files, input and trace alone. *)
Lemma within_same (m m' : machine) :
  m_fs m' = m_fs m -> m_stdin m' = m_stdin m -> m_trace m' = m_trace m -> within 0 m m'.
Proof.
  intros Hf Hs Ht. split; [rewrite Hf; apply grows_refl|]. split; [assumption|].
  exists []. split; [now rewrite List.app_nil_r | reflexivity].
Qed.

Lemma within_logged (m : machine) (e : event) (z : Z) :
  within (if is_python3 e then 1 else 0) m (logged m e z).
Proof.
  split; [apply grows_refl|]. split; [reflexivity|].
  exists [e]. split; [reflexivity|].
  unfold python3_runs. simpl. destruct (is_python3 e); simpl; lia.
Qed.

Lemma within_wrote (m : machine) (q added : string) : within 0 m (wrote m q added).
Proof.
  split; [apply grows_append|]. split; [reflexivity|].
  exists []. split; [simpl; now rewrite List.app_nil_r | reflexivity].
Qed.

Section Commands.
Variable w : world.

Lemma bounded_le (a b : nat) (c : cmd) : a <= b -> bounded a c -> bounded b c.
Proof. intros Hle H m. eapply within_le; [exact Hle | apply H]. Qed.

Lemma bounded_seq (a b : nat) (c1 c2 : cmd) :
  bounded a c1 -> bounded b c2 -> bounded (a + b) (c1 ;; c2).
Proof.
  intros H1 H2 m. unfold seq. specialize (H1 m).
  destruct (c1 m) as [m1|z m1]; simpl in *.
  - eapply within_trans; [exact H1 | apply H2].
  - eapply within_le; [|exact H1]. lia.
Qed.

Lemma bounded_ite (n : nat) (test : machine -> bool) (c1 c2 : cmd) :
  bounded n c1 -> bounded n c2 -> bounded n (ite test c1 c2).
Proof. intros H1 H2 m. unfold ite. destruct (test m); auto. Qed.

Lemma bounded_or_else (a b : nat) (c1 c2 : cmd) :
  bounded a c1 -> bounded b c2 -> bounded (a + b) (or_else c1 c2).
Proof.
  intros H1 H2 m. unfold or_else. specialize (H1 m).
  destruct (c1 m) as [m1|z m1]; simpl in *.
  - destruct (Z.eqb (m_status m1) 0); simpl.
    + eapply within_le; [|exact H1]. lia.
    + eapply within_trans; [exact H1 | apply H2].
  - eapply within_le; [|exact H1]. lia.
Qed.

Lemma bounded_skip : bounded 0 skip.
Proof. intros m. apply within_refl. Qed.

Lemma bounded_pass : bounded 0 pass.
Proof. intros m. now apply within_same. Qed.

Lemma bounded_exit (z : Z) : bounded 0 (exit_ z).
Proof. intros m. apply within_refl. Qed.

Lemma bounded_set_var (name : string) (v : list piece) : bounded 0 (set_var w name v).
Proof. intros m. now apply within_same. Qed.

Lemma bounded_export (v : list piece) : bounded 0 (export w v).
Proof. intros m. unfold export. destruct (_ && _); now apply within_same. Qed.

Lemma bounded_declare (name : string) (pairs : list (string * string)) :
  bounded 0 (declare_A name pairs).
Proof. intros m. now apply within_same. Qed.

Lemma bounded_append_to (name : string) (items : list string) :
  bounded 0 (append_to name items).
Proof. intros m. now apply within_same. Qed.

Lemma bounded_read_into (line : string) : bounded 0 (read_into line).
Proof.
  intros m. unfold read_into. destruct (read_fields line). now apply within_same.
Qed.

Lemma bounded_cd (dir : list piece) : bounded 0 (cd w dir).
Proof.
  intros m. unfold cd. destruct (_ && _); now apply within_same.
Qed.

Lemma bounded_echo (arg target : list piece) : bounded 0 (echo_to w arg target).
Proof.
  intros m. unfold echo_to. destruct (_ && _); simpl.
  - eapply (within_trans 0 0); [|apply (within_logged _ (Echo _ _))].
    eapply (within_trans 0 0); [|apply within_wrote]. now apply within_same.
  - eapply (within_trans 0 0); [|apply (within_logged _ (Denied _))].
    now apply within_same.
Qed.

Lemma bounded_python3 (script target : list piece) : bounded 1 (python3_to w script target).
Proof.
  intros m. unfold python3_to. destruct (_ && _); simpl.
  - destruct (w_python3 w _ _ _) as [out z]. simpl.
    eapply (within_trans 0 1); [|apply (within_logged _ (Python3 _ _ _ _))].
    eapply (within_trans 0 0); [|now apply within_same].
    eapply (within_trans 0 0); [|apply within_wrote]. now apply within_same.
  - apply (within_le 0); [lia|].
    eapply (within_trans 0 0); [|apply (within_logged _ (Denied _))].
    now apply within_same.
Qed.

Lemma bounded_source (file : list piece) : bounded 0 (source w file).
Proof.
  intros m. unfold source. destruct (_ !! _); simpl.
  - eapply (within_trans 0 0); [|apply (within_logged _ (Sourced _))].
    now apply within_same.
  - now apply within_same.
Qed.

Lemma bounded_while_read (lines : list string) : bounded 0 (while_read w lines).
Proof.
  intros m. destruct (while_read_effect w lines m) as (m' & -> & _ & Hf & _ & Hs & Ht & _).
  destruct (snd (lines_effect _ _ _)); now apply within_same.
Qed.

Lemma bounded_load_env (file : list piece) : bounded 0 (load_env w file).
Proof.
  intros m. unfold load_env.
  destruct (_ !! _) as [content|]; [destruct (allowed _ _)|].
  - destruct (lines_of content) as [ls rest].
    eapply (within_trans 0 0);
      [|apply (bounded_seq 0 0); [apply bounded_while_read | apply bounded_read_into]].
    now apply within_same.
  - eapply (within_trans 0 0); [|apply (within_logged _ (Denied _))].
    now apply within_same.
  - eapply (within_trans 0 0); [|apply (within_logged _ (Denied _))].
    now apply within_same.
Qed.

Lemma bounded_for_each (n : nat) (name : string) (items : list string) (body : cmd) :
  bounded n body -> bounded (length items * n) (for_each w name items body).
Proof.
  intros Hb. induction items as [|x r IH]; [apply bounded_skip|].
  change (for_each w name (x :: r) body)
    with (set_var w name [Lit x] ;; body ;; for_each w name r body).
  apply (bounded_le (0 + (n + length r * n))); [simpl; lia|].
  apply bounded_seq; [apply bounded_set_var|]. apply bounded_seq; assumption.
Qed.

Lemma bounded_run_script : bounded 1 (run_script w).
Proof.
  unfold run_script.
  apply (bounded_seq 0 1); [apply bounded_set_var|].
  apply bounded_ite.
  - apply (bounded_seq 0 1); [apply bounded_echo|].
    apply (bounded_seq 0 1); [apply bounded_echo|].
    apply (bounded_seq 0 1); [apply bounded_echo|].
    apply (bounded_seq 1 0); [apply bounded_python3|].
    apply (bounded_seq 0 0); apply bounded_echo.
  - apply (bounded_le 0); [lia | apply bounded_echo].
Qed.

Lemma bounded_enter_code_dir : bounded 0 (enter_code_dir w).
Proof.
  unfold enter_code_dir.
  apply (bounded_seq 0 0); [apply bounded_set_var|].
  apply (bounded_seq 0 0); [apply bounded_set_var|].
  apply (bounded_seq 0 0); [apply bounded_echo|].
  apply bounded_ite.
  - apply (bounded_or_else 0 0); [apply bounded_cd|].
    apply (bounded_seq 0 0); [apply bounded_echo | apply bounded_exit].
  - apply (bounded_seq 0 0); [apply bounded_echo | apply bounded_exit].
Qed.

Lemma bounded_activate_venv : bounded 0 (activate_venv w).
Proof.
  unfold activate_venv.
  apply (bounded_seq 0 0); [apply bounded_echo|].
  apply (bounded_seq 0 0); [apply bounded_set_var|].
  apply bounded_ite.
  - apply (bounded_seq 0 0); [apply bounded_echo | apply bounded_source].
  - apply (bounded_seq 0 0); [apply bounded_echo | apply bounded_exit].
Qed.

Lemma bounded_load_dotenv : bounded 0 (load_dotenv w).
Proof.
  unfold load_dotenv. apply bounded_ite; [apply bounded_load_env|].
  apply (bounded_seq 0 0); [apply bounded_echo | apply bounded_exit].
Qed.

Lemma bounded_prepare : bounded 0 (prepare w).
Proof.
  unfold prepare.
  apply (bounded_seq 0 0); [apply bounded_enter_code_dir|].
  apply (bounded_seq 0 0); [apply bounded_activate_venv | apply bounded_load_dotenv].
Qed.

Lemma bounded_finish : bounded 0 (finish w).
Proof. unfold finish. apply (bounded_seq 0 0); apply bounded_echo. Qed.

(** The loop of line 54 runs [python3] at most once for each script
    of its list. *)
Lemma within_run_scripts (m : machine) :
  within (S (length (elements "scripts_to_run" (m_vars m)))) m
         (last_state (run_scripts w m)).
Proof.
  unfold run_scripts, seq, declare_A, append_to, for_in. simpl.
  set (st1 := fst (declare_assoc _ _ _)).
  set (m2 := with_status _ 0).
  assert (H2 : within 0 m m2) by now apply within_same.
  assert (Hlen : length (elements "scripts_to_run" (m_vars m2))
                 <= S (length (elements "scripts_to_run" (m_vars m)))).
  { subst m2. simpl. unfold append_items.
    replace (st1 !! "scripts_to_run") with (m_vars m !! "scripts_to_run")
      by (symmetry; apply lookup_declare_ne; discriminate).
    unfold elements at 2. change (is_readonly "scripts_to_run") with false.
    destruct (m_vars m !! "scripts_to_run") as [[[t|l|kv] e]|] eqn:Hl; simpl;
      unfold elements; rewrite ?lookup_insert_eq; simpl.
    - lia.
    - rewrite length_app. simpl. lia.
    - rewrite length_map. cbn [length]. rewrite length_map.
      pose proof (assoc_del_length "main.py" kv). lia.
    - lia. }
  apply (within_le (0 + length (elements "scripts_to_run" (m_vars m2)) * 1)); [lia|].
  apply (within_trans 0 _ _ _ _ H2).
  apply (bounded_for_each 1), bounded_run_script.
Qed.

End Commands.

Lemma last_state_seq (c1 c2 : cmd) (m : machine) :
  last_state ((c1 ;; c2) m)
  = match c1 m with Go m' => last_state (c2 m') | Halt _ m' => m' end.
Proof. unfold seq. now destruct (c1 m). Qed.

(** C5. Whatever the wrapper writes it appends: after an invocation
    every file, the log file among them, holds its previous contents
    followed by what was added, no file or directory is gone; and the
    wrapper has read nothing from its standard input. *)
Theorem log_is_append_only (w : world) :
  grows (w_fs w) (m_fs (last_state (run_main w)))
  /\ m_stdin (last_state (run_main w)) = w_stdin w.
Proof.
  assert (H : exists n, within n (boot w) (last_state (run_main w))).
  { unfold run_main, script. rewrite last_state_seq.
    pose proof (bounded_prepare w (boot w)) as Hp.
    destruct (prepare w (boot w)) as [m1|z m1]; simpl in Hp; [|eauto].
    rewrite last_state_seq.
    pose proof (within_run_scripts w m1) as Hr.
    destruct (run_scripts w m1) as [m2|z m2]; simpl in Hr.
    - eexists. eapply within_trans; [exact Hp|].
      eapply within_trans; [exact Hr | apply bounded_finish].
    - eexists. eapply within_trans; [exact Hp | exact Hr]. }
  destruct H as (n & Hg & Hs & _). split; assumption.
Qed.

(** C7 (amended). The wrapper starts [python3] at most once for each
    script of its list, which is [main.py] after the scripts that the
    list already held when line 51 is reached; whatever the status of a
    run, nothing is run again. *)
Theorem python3_runs_bounded (w : world) :
  python3_runs (m_trace (last_state (run_main w))) <= S (length (preset_scripts w)).
Proof.
  unfold run_main, script, preset_scripts, vars_after_env. rewrite last_state_seq.
  pose proof (bounded_prepare w (boot w)) as Hp.
  destruct (prepare w (boot w)) as [m1|z m1]; simpl in Hp |- *.
  - rewrite last_state_seq.
    pose proof (within_run_scripts w m1) as Hr.
    assert (Hall : within (0 + (S (length (elements "scripts_to_run" (m_vars m1))) + 0))
                          (boot w)
                          (match run_scripts w m1 with
                           | Go m' => last_state (finish w m')
                           | Halt _ m' => m'
                           end)).
    { eapply within_trans; [exact Hp|].
      destruct (run_scripts w m1) as [m2|z m2]; simpl in Hr.
      - eapply within_trans; [exact Hr | apply bounded_finish].
      - eapply within_le; [|exact Hr]. lia. }
    destruct Hall as (_ & _ & l & -> & Hn). simpl. lia.
  - destruct Hp as (_ & _ & l & -> & Hn). simpl. lia.
Qed.

End Frame.

(** ** [run_main.sh]: the three checks, the markers and the exit code *)

Module Checks.
Import Text TextFacts Bash Shell ShellFacts RunMain EnvLoop Frame.

Local Open Scope list_scope.
Local Open Scope cmd_scope.
Local Arguments Ascii.eqb : simpl never.

(** *** The paths of the script *)

Lemma log_file_abs (cwd : string) : abs cwd log_file = log_file.
Proof. reflexivity. Qed.

Lemma code_dir_abs (cwd : string) : abs cwd code_dir = code_dir.
Proof. reflexivity. Qed.

Lemma venv_file_abs (cwd : string) : abs cwd venv_file = venv_file.
Proof. reflexivity. Qed.

Lemma env_file_abs : abs code_dir ".env" = env_file.
Proof. reflexivity. Qed.

Lemma venv_not_log : venv_file <> log_file.
Proof. apply String.eqb_neq. reflexivity. Qed.

Lemma env_not_log : env_file <> log_file.
Proof. apply String.eqb_neq. reflexivity. Qed.

Lemma log_file_named : is_empty log_file = false.
Proof. reflexivity. Qed.

Lemma code_dir_named : is_empty code_dir = false.
Proof. reflexivity. Qed.

Lemma venv_file_named : is_empty venv_file = false.
Proof. reflexivity. Qed.

Lemma readonly_CODE_DIR : is_readonly "CODE_DIR" = false.
Proof. reflexivity. Qed.

Lemma readonly_CRON_LOG_FILE : is_readonly "CRON_LOG_FILE" = false.
Proof. reflexivity. Qed.

Lemma readonly_PYTHON_VENV : is_readonly "PYTHON_VENV" = false.
Proof. reflexivity. Qed.

Local Opaque code_dir log_file venv_file env_file.

Section Run.
Variable w : world.

Local Abbreviation like := (RunMain.like w).
Local Abbreviation home := (RunMain.home w).
Local Abbreviation settled := (RunMain.settled w).
Local Abbreviation started := (RunMain.started w).

Lemma like_calm (m m' : machine) :
  grows (m_fs m) (m_fs m') -> calm m m' -> like m -> like m'.
Proof.
  intros (Hd & Hp & _) (_ & _ & Hf) (Ld & Lp & Lf).
  split; [congruence|]. split; [congruence|].
  intros q Hq. now rewrite Hf, Lf.
Qed.

Lemma is_file_like (m : machine) (q : string) :
  like m -> q <> log_file -> is_file (m_fs m) q = is_file (w_fs w) q.
Proof. intros (_ & _ & Hf) Hq. unfold is_file. now rewrite Hf. Qed.

(** *** [echo -e ... >> "$CRON_LOG_FILE"] *)

(** Whatever its target, an [echo] goes on and leaves the variables
    and the directory alone. *)
Lemma echo_goes (arg target : list piece) (m : machine) :
  exists m', echo_to w arg target m = Go m'
             /\ m_vars m' = m_vars m /\ m_cwd m' = m_cwd m.
Proof.
  unfold echo_to. destruct (_ && _); eexists; (split; [reflexivity|]); split; reflexivity.
Qed.

(** With [CRON_LOG_FILE] naming the log file, only that file
    changes; when it can be opened, the text of [echo -e] is added at
    its end. *)
Lemma echo_log (arg : list piece) (m : machine) :
  expand "CRON_LOG_FILE" (m_vars m) = log_file ->
  exists m',
    echo_to w arg log m = Go m' /\ calm m m'
    /\ (can_append (m_fs m) log_file = true ->
        contents (m_fs m') log_file
        = contents (m_fs m) log_file +:+ echo_e (w_wctomb w) (text w arg m)
        /\ m_status m' = 0%Z
        /\ m_trace m' = m_trace m ++ [Echo log_file (text w arg m)]).
Proof.
  intros Hlog. unfold echo_to, log. rewrite text_ref. simpl m_vars. simpl m_cwd.
  simpl m_fs. rewrite Hlog, log_file_abs, log_file_named. simpl negb.
  rewrite andb_true_l.
  destruct (can_append (m_fs m) log_file) eqn:Hc.
  - eexists. split; [reflexivity|]. split.
    + split; [reflexivity|]. split; [reflexivity|].
      intros q Hq. simpl. now rewrite lookup_insert_ne by congruence.
    + intros _. simpl. split; [|split; reflexivity].
      rewrite contents_append. now destruct (decide (log_file = log_file)).
  - eexists. split; [reflexivity|]. split; [|discriminate].
    split; [reflexivity|]. split; reflexivity.
Qed.

Lemma seq_go (c1 c2 : cmd) (m m' : machine) :
  c1 m = Go m' -> (c1 ;; c2) m = c2 m'.
Proof. intros H. unfold seq. now rewrite H. Qed.

Lemma seq_halt (c1 c2 : cmd) (m m' : machine) (z : Z) :
  c1 m = Halt z m' -> (c1 ;; c2) m = Halt z m'.
Proof. intros H. unfold seq. now rewrite H. Qed.

Lemma set_var_goes (name : string) (v : list piece) (m : machine) :
  exists m', set_var w name v m = Go m'
             /\ m_vars m' = fst (assign name (text w v m) (m_vars m))
             /\ m_cwd m' = m_cwd m /\ m_fs m' = m_fs m.
Proof. eexists. split; [reflexivity|]. repeat split. Qed.

Lemma text_lit (s : string) (m : machine) : text w [Lit s] m = s.
Proof. unfold text. cbn [expansion]. apply app_nil_r. Qed.

Lemma text_ref_lit (name s : string) (m : machine) :
  text w [Ref name; Lit s] m = expand name (m_vars m) +:+ s.
Proof. unfold text. cbn [expansion]. now rewrite app_nil_r. Qed.

(** *** What the trace gets *)

Lemma quiet_snoc (t : list event) (e : event) :
  quiet t -> is_end_echo e = false -> quiet (t ++ [e]).
Proof. intros Ht He. apply Forall_app. split; [exact Ht|]. now constructor. Qed.

(** An [echo] of a text that does not end as the end marker does. *)
Lemma echo_quiet (arg target : list piece) (m m' : machine) :
  echo_to w arg target m = Go m' ->
  has_suffix finished (text w arg m) = false ->
  quiet (m_trace m) -> quiet (m_trace m').
Proof.
  unfold echo_to. intros E Harg Hq.
  destruct (_ && _); inversion E; subst; cbn [logged wrote expanded with_dates m_trace];
    apply quiet_snoc; solve [assumption | reflexivity].
Qed.

Lemma set_var_trace (name : string) (v : list piece) (m m' : machine) :
  set_var w name v m = Go m' -> m_trace m' = m_trace m.
Proof. intros E. inversion E. reflexivity. Qed.

Lemma source_quiet (file : list piece) (m m' : machine) :
  source w file m = Go m' -> quiet (m_trace m) -> quiet (m_trace m').
Proof.
  unfold source. intros E Hq. destruct (_ !! _); inversion E; subst;
    cbn [logged with_vars with_status expanded with_dates m_trace]; [|exact Hq].
  now apply quiet_snoc.
Qed.

(** The loop over a file: the directory and the files stay, no end
    marker is written, and the shell is ended only in POSIX mode, with
    the status 1 or 2 of an [export]. *)
Lemma load_env_spec (file : list piece) (m : machine) :
  m_cwd (last_state (load_env w file m)) = m_cwd m
  /\ m_fs (last_state (load_env w file m)) = m_fs m
  /\ (quiet (m_trace m) -> quiet (m_trace (last_state (load_env w file m))))
  /\ match load_env w file m with
     | Go _ => True
     | Halt z m' => (z = 1%Z \/ z = 2%Z) /\ posix (m_vars m') = true
     end.
Proof.
  unfold load_env.
  destruct (_ !! _) as [content|]; [destruct (allowed _ _)|].
  - destruct (lines_of content) as [ls rest].
    destruct (while_read_effect w ls (with_status (expanded file m) 0))
      as (m1 & E1 & V1 & F1 & C1 & _ & T1 & _).
    cbn [with_status expanded with_dates m_cwd m_fs m_vars m_trace] in *.
    unfold seq. rewrite E1.
    destruct (snd (lines_effect (w_element w) ls (m_vars m))) as [z|] eqn:Hz.
    + cbn [last_state]. rewrite C1, F1, T1, V1.
      destruct (lines_effect_halt _ _ _ _ Hz) as [H1 H2]. auto.
    + unfold read_into. destruct (read_fields rest).
      cbn [last_state with_vars m_cwd m_fs m_trace]. rewrite C1, F1, T1. auto.
  - cbn [last_state logged expanded with_dates m_cwd m_fs m_trace].
    repeat split; auto. intros Hq. now apply quiet_snoc.
  - cbn [last_state logged expanded with_dates m_cwd m_fs m_trace].
    repeat split; auto. intros Hq. now apply quiet_snoc.
Qed.

(** Failing with a message: [echo ... >> log; exit 1]. *)
Lemma complain (arg target : list piece) (m : machine) :
  has_suffix finished (text w arg m) = false ->
  quiet (m_trace m) ->
  exists m', (echo_to w arg target ;; exit_ 1) m = Halt 1 m' /\ quiet (m_trace m').
Proof.
  intros Harg Hq. destruct (echo_goes arg target m) as (m' & E & _).
  exists m'. split; [now rewrite (seq_go _ _ _ _ E)|].
  exact (echo_quiet _ _ _ _ E Harg Hq).
Qed.

Lemma text_lit_ref (s name : string) (m : machine) :
  text w [Lit s; Ref name] m = s +:+ expand name (m_vars m).
Proof. unfold text. cbn [expansion]. now rewrite app_nil_r. Qed.

Lemma text_lit_ref_lit (s name s' : string) (m : machine) :
  text w [Lit s; Ref name; Lit s'] m = s +:+ expand name (m_vars m) +:+ s'.
Proof. unfold text. cbn [expansion]. now rewrite app_nil_r. Qed.

Lemma text_start (m : machine) :
  text w [Lit "\n\n"; Date false; Lit " - Starting run_main.sh"] m
  = start_marker (w_date w false (m_dates m)).
Proof. unfold text, start_marker. cbn [expansion]. now rewrite app_nil_r. Qed.

(** The start marker and the complaint about [.env] are no end marker,
    whatever [date] printed and whatever [CODE_DIR] holds by then. *)
Lemma start_marker_no_end (t : string) : has_suffix finished (start_marker t) = false.
Proof.
  unfold start_marker. rewrite <- app_assoc.
  apply other_tail; [reflexivity | discriminate].
Qed.

Lemma bang_no_end (a b r : string) :
  ends_with "!" r = true -> has_suffix finished (a +:+ b +:+ r) = false.
Proof.
  intros Hr. pose proof (ends_with_named _ _ Hr) as Hn.
  apply (other_end finished _ "h" "!"); [reflexivity| |discriminate].
  rewrite ends_with_app.
  - now rewrite ends_with_app.
  - destruct b; [exact Hn | reflexivity].
Qed.

(** *** Lines 4 to 15 *)
Lemma enter_code_dir_spec :
  match enter_code_dir w (boot w) with
  | Go m => dir_ok w = true /\ home m /\ quiet (m_trace m)
  | Halt z m => z = 1%Z /\ dir_ok w = false /\ quiet (m_trace m)
  end.
Proof.
  unfold enter_code_dir.
  destruct (set_var_goes "CODE_DIR" [Lit code_dir] (boot w)) as (m1 & E1 & V1 & C1 & F1).
  pose proof (set_var_trace _ _ _ _ E1) as T1.
  rewrite (seq_go _ _ _ _ E1). clear E1.
  assert (H1 : expand "CODE_DIR" (m_vars m1) = code_dir).
  { rewrite V1, text_lit. apply expand_assign, readonly_CODE_DIR. }
  destruct (set_var_goes "CRON_LOG_FILE" [Ref "CODE_DIR"; Lit "/run_main.log"] m1)
    as (m2 & E2 & V2 & C2 & F2).
  pose proof (set_var_trace _ _ _ _ E2) as T2.
  rewrite (seq_go _ _ _ _ E2). clear E2.
  assert (Hq2 : quiet (m_trace m2)) by (rewrite T2, T1; constructor).
  assert (Hcode : expand "CODE_DIR" (m_vars m2) = code_dir).
  { rewrite V2, expand_assign_ne by discriminate. exact H1. }
  assert (Hlog : expand "CRON_LOG_FILE" (m_vars m2) = log_file).
  { rewrite V2, expand_assign by apply readonly_CRON_LOG_FILE.
    rewrite text_ref_lit, H1. reflexivity. }
  pose proof (bounded_echo w [Lit start_banner] log m2) as Hb.
  destruct (echo_log [Lit start_banner] m2 Hlog) as (m3 & E3 & Hcalm & _).
  assert (Hq3 : quiet (m_trace m3)).
  { apply (echo_quiet _ _ _ _ E3); [|exact Hq2]. rewrite text_lit. reflexivity. }
  rewrite E3 in Hb. rewrite (seq_go _ _ _ _ E3). clear E3.
  assert (Hlike : like m3).
  { apply (like_calm m2); [apply Hb | exact Hcalm|].
    unfold like. rewrite F2, F1. repeat split. }
  destruct Hcalm as (V3 & C3 & _).
  assert (Hcode3 : expand "CODE_DIR" (m_vars m3) = code_dir) by now rewrite V3.
  assert (Htest : test_d w [Ref "CODE_DIR"] m3 = is_dir (w_fs w) code_dir).
  { unfold test_d. rewrite text_ref, Hcode3, code_dir_abs, code_dir_named.
    unfold is_dir. now rewrite (proj1 Hlike). }
  unfold ite. rewrite Htest. unfold dir_ok.
  destruct (is_dir (w_fs w) code_dir) eqn:Hd.
  - unfold or_else, cd. rewrite text_ref, Hcode3, code_dir_named.
    cbn [expanded m_cwd m_fs with_dates negb andb].
    rewrite code_dir_abs.
    replace (is_dir (m_fs m3) code_dir) with true
      by (unfold is_dir; now rewrite (proj1 Hlike)).
    replace (allowed (m_fs m3) code_dir) with (allowed (w_fs w) code_dir)
      by (unfold allowed; now rewrite (proj1 (proj2 Hlike))).
    cbn [andb].
    destruct (allowed (w_fs w) code_dir).
    + cbn [with_cwd with_vars m_status Z.eqb]. split; [reflexivity|]. split; [|exact Hq3].
      unfold RunMain.home. cbn [with_cwd with_vars m_vars m_cwd fst expanded with_dates].
      rewrite !expand_moved_to_ne by discriminate.
      split; [exact Hcode3|].
      split; [exact (eq_trans (f_equal (expand "CRON_LOG_FILE") V3) Hlog)|].
      split; [reflexivity | exact Hlike].
    + cbn [with_status m_status Z.eqb].
      match goal with |- context [(echo_to w ?a ?t ;; exit_ 1) ?m] =>
        destruct (complain a t m) as (m4 & -> & Hq4)
      end.
      * rewrite text_lit_ref. cbn [with_status with_dates expanded m_vars]. rewrite Hcode3.
        vm_compute. reflexivity.
      * exact Hq3.
      * repeat split. exact Hq4.
  - match goal with |- context [(echo_to w ?a ?t ;; exit_ 1) ?m] =>
      destruct (complain a t m) as (m4 & -> & Hq4)
    end.
    + rewrite text_lit_ref_lit. now apply bang_no_end.
    + exact Hq3.
    + repeat split. exact Hq4.
Qed.

Lemma source_goes (file : list piece) (m : machine) :
  exists m', source w file m = Go m' /\ m_cwd m' = m_cwd m /\ m_fs m' = m_fs m.
Proof.
  unfold source. destruct (_ !! _); eexists; (split; [reflexivity|]); split; reflexivity.
Qed.

(** *** Lines 18 to 30 *)
Lemma activate_venv_spec (m : machine) :
  home m -> quiet (m_trace m) ->
  match activate_venv w m with
  | Go m' => venv_ok w = true /\ settled m' /\ started m m' /\ quiet (m_trace m')
  | Halt z m' => z = 1%Z /\ venv_ok w = false /\ quiet (m_trace m')
  end.
Proof.
  intros (Hcode & Hlog & Hcwd & Hlike) Hq. unfold activate_venv.
  set (arg := [Lit "\n\n"; Date false; Lit " - Starting run_main.sh"]).
  pose proof (bounded_echo w arg log m) as Hb.
  destruct (echo_log arg m Hlog) as (m1 & E1 & Hcalm1 & Hwrote).
  assert (Hq1 : quiet (m_trace m1)).
  { apply (echo_quiet _ _ _ _ E1); [|exact Hq]. subst arg. rewrite text_start.
    apply start_marker_no_end. }
  rewrite E1 in Hb. rewrite (seq_go _ _ _ _ E1). clear E1.
  assert (Hlike1 : like m1) by (apply (like_calm m); [apply Hb | exact Hcalm1 | exact Hlike]).
  destruct Hcalm1 as (V1 & C1 & _).
  match goal with |- match ?rest m1 with _ => _ end =>
    assert (Hrest : within 0 m1 (last_state (rest m1)))
  end.
  { apply (bounded_seq 0 0); [apply bounded_set_var|]. apply bounded_ite.
    - apply (bounded_seq 0 0); [apply bounded_echo | apply bounded_source].
    - apply (bounded_seq 0 0); [apply bounded_echo | apply bounded_exit]. }
  destruct (set_var_goes "PYTHON_VENV" [Ref "CODE_DIR"; Lit "/venv/bin/activate"] m1)
    as (m2 & E2 & V2 & C2 & F2).
  pose proof (set_var_trace _ _ _ _ E2) as T2.
  rewrite (seq_go _ _ _ _ E2) in Hrest |- *. clear E2.
  assert (Hq2 : quiet (m_trace m2)) by now rewrite T2.
  assert (Hvenv : expand "PYTHON_VENV" (m_vars m2) = venv_file).
  { rewrite V2, expand_assign by apply readonly_PYTHON_VENV.
    rewrite text_ref_lit, V1, Hcode. reflexivity. }
  assert (Hlog2 : expand "CRON_LOG_FILE" (m_vars m2) = log_file).
  { rewrite V2, expand_assign_ne by discriminate. now rewrite V1. }
  assert (Hlike2 : like m2) by (unfold like; now rewrite F2).
  assert (Htest : test_f w [Ref "PYTHON_VENV"] m2 = venv_ok w).
  { unfold test_f. rewrite text_ref, Hvenv, venv_file_abs, venv_file_named.
    apply (is_file_like m2 _ Hlike2 venv_not_log). }
  unfold ite in Hrest |- *. rewrite Htest in Hrest |- *.
  destruct (venv_ok w) eqn:Hok.
  - set (arg' := [Lit "\n\nActivating virtual environment: "; Ref "PYTHON_VENV"]) in *.
    pose proof (bounded_echo w arg' log m2) as Hb3.
    destruct (echo_log arg' m2 Hlog2) as (m3 & E3 & Hcalm3 & _).
    assert (Hq3 : quiet (m_trace m3)).
    { apply (echo_quiet _ _ _ _ E3); [|exact Hq2]. subst arg'.
      rewrite text_lit_ref, Hvenv. vm_compute. reflexivity. }
    rewrite E3 in Hb3. rewrite (seq_go _ _ _ _ E3) in Hrest |- *. clear E3.
    assert (Hlike3 : like m3)
      by (apply (like_calm m2); [apply Hb3 | exact Hcalm3 | exact Hlike2]).
    destruct Hcalm3 as (V3 & C3 & _).
    destruct (source_goes [Ref "PYTHON_VENV"] m3) as (m4 & E4 & C4 & F4).
    pose proof (source_quiet _ _ _ E4 Hq3) as Hq4.
    rewrite E4 in Hrest |- *. cbn [last_state] in Hrest.
    split; [reflexivity|]. split; [|split; [|exact Hq4]].
    + split; [congruence|]. unfold like. now rewrite F4.
    + intros Hcan. destruct (Hwrote Hcan) as (Hcont & _ & Htrace).
      destruct Hrest as ((_ & _ & Hgrow) & _ & events & Hevents & _).
      destruct (Hgrow log_file) as (_ & added & Hadded). split.
      * rewrite Hevents, Htrace, text_start. apply in_or_app. left.
        apply in_or_app. right. now left.
      * exists added. rewrite Hadded, Hcont, text_start, app_assoc. reflexivity.
  - match goal with |- context [(echo_to w ?a ?t ;; exit_ 1) ?m] =>
      destruct (complain a t m) as (m4 & -> & Hq4)
    end.
    + rewrite text_lit_ref_lit. now apply bang_no_end.
    + exact Hq2.
    + repeat split. exact Hq4.
Qed.

(** *** Lines 33 to 44 *)
Lemma load_dotenv_spec (m : machine) :
  settled m -> quiet (m_trace m) ->
  match load_dotenv w m with
  | Go m' => env_ok w = true /\ settled m' /\ m_fs m' = m_fs m /\ quiet (m_trace m')
  | Halt z m' =>
      quiet (m_trace m')
      /\ ((z = 1%Z /\ env_ok w = false)
          \/ (env_ok w = true /\ (z = 1%Z \/ z = 2%Z) /\ posix (m_vars m') = true))
  end.
Proof.
  intros (Hcwd & Hlike) Hq. unfold load_dotenv, ite.
  assert (Htest : test_f w [Lit ".env"] m = env_ok w).
  { unfold test_f. rewrite text_lit, Hcwd, env_file_abs.
    apply (is_file_like m _ Hlike env_not_log). }
  rewrite Htest. destruct (env_ok w).
  - destruct (load_env_spec [Lit ".env"] m) as (C & F & Hq' & Hhalt).
    destruct (load_env w [Lit ".env"] m) as [m'|z m']; cbn [last_state] in *.
    + split; [reflexivity|]. split; [|split; [exact F | exact (Hq' Hq)]].
      split; [congruence|]. unfold like. now rewrite F.
    + split; [exact (Hq' Hq)|]. right. split; [reflexivity | exact Hhalt].
  - match goal with |- context [(echo_to w ?a ?t ;; exit_ 1) ?m] =>
      destruct (complain a t m) as (m4 & -> & Hq4)
    end.
    + rewrite text_lit_ref_lit. now apply bang_no_end.
    + exact Hq.
    + split; [exact Hq4|]. left. split; reflexivity.
Qed.

(** *** Lines 4 to 44: the wrapper gets past its checks exactly when
    the directory, the activation script and [.env] are there; up to
    there it has written no end marker. *)
Lemma prepare_spec :
  match prepare w (boot w) with
  | Go m =>
      checks_pass w = true /\ settled m
      /\ (can_append (w_fs w) log_file = true ->
          exists n a1 a2,
            In (Echo log_file (start_marker (w_date w false n))) (m_trace m)
            /\ contents (m_fs m) log_file
               = contents (w_fs w) log_file +:+ a1
                 +:+ echo_e (w_wctomb w) (start_marker (w_date w false n)) +:+ a2)
  | Halt z m =>
      quiet (m_trace m)
      /\ ((z = 1%Z /\ checks_pass w = false)
          \/ (checks_pass w = true /\ (z = 1%Z \/ z = 2%Z) /\ posix (m_vars m) = true))
  end.
Proof.
  unfold prepare, checks_pass.
  pose proof enter_code_dir_spec as H1.
  pose proof (bounded_enter_code_dir w (boot w)) as B1.
  destruct (enter_code_dir w (boot w)) as [m1|z m1] eqn:E1.
  - destruct H1 as (-> & Hhome & Hq1). rewrite (seq_go _ _ _ _ E1).
    pose proof (activate_venv_spec m1 Hhome Hq1) as H2.
    destruct (activate_venv w m1) as [m2|z m2] eqn:E2.
    + destruct H2 as (-> & Hset & Hstart & Hq2). rewrite (seq_go _ _ _ _ E2).
      pose proof (load_dotenv_spec m2 Hset Hq2) as H3.
      pose proof (bounded_load_dotenv w m2) as B3.
      destruct (load_dotenv w m2) as [m3|z m3].
      * destruct H3 as (-> & Hset3 & F3 & _). split; [reflexivity|].
        split; [exact Hset3|]. intros Hcan.
        destruct B1 as (Hgrow1 & _). cbn [last_state boot m_fs] in Hgrow1.
        destruct (Hstart (can_append_grows _ _ _ Hgrow1 Hcan)) as (Hin & a2 & Ha2).
        destruct Hgrow1 as (_ & _ & Hg1). destruct (Hg1 log_file) as (_ & a1 & Ha1).
        destruct B3 as (_ & _ & events & Hevents & _). cbn [last_state] in Hevents.
        exists (m_dates m1), a1, a2. split.
        -- rewrite Hevents. apply in_or_app. now left.
        -- rewrite F3, Ha2, Ha1, !app_assoc. reflexivity.
      * destruct H3 as (Hq3 & [(-> & ->)|(-> & Hz & Hposix)]).
        -- split; [exact Hq3|]. left. split; reflexivity.
        -- split; [exact Hq3|]. right. split; [reflexivity|]. split; assumption.
    + destruct H2 as (-> & -> & Hq2). rewrite (seq_halt _ _ _ _ _ E2).
      split; [exact Hq2|]. left. split; reflexivity.
  - destruct H1 as (-> & -> & Hq1). rewrite (seq_halt _ _ _ _ _ E1).
    split; [exact Hq1|]. left. split; reflexivity.
Qed.

(** *** Lines 47 to 76 never end the script *)

Lemma goes_on_seq (c1 c2 : cmd) : goes_on c1 -> goes_on c2 -> goes_on (c1 ;; c2).
Proof.
  intros H1 H2 m. destruct (H1 m) as (m1 & E1). rewrite (seq_go _ _ _ _ E1). apply H2.
Qed.

Lemma goes_on_ite (test : machine -> bool) (c1 c2 : cmd) :
  goes_on c1 -> goes_on c2 -> goes_on (ite test c1 c2).
Proof. intros H1 H2 m. unfold ite. destruct (test m); auto. Qed.

Lemma goes_on_echo (arg target : list piece) : goes_on (echo_to w arg target).
Proof. intros m. destruct (echo_goes arg target m) as (m' & E & _). eauto. Qed.

Lemma goes_on_set_var (name : string) (v : list piece) : goes_on (set_var w name v).
Proof. intros m. eexists. reflexivity. Qed.

Lemma goes_on_python3 (script target : list piece) : goes_on (python3_to w script target).
Proof.
  intros m. unfold python3_to. destruct (_ && _); [|eauto].
  destruct (w_python3 w _ _ _). eauto.
Qed.

Lemma goes_on_for_each (name : string) (items : list string) (body : cmd) :
  goes_on body -> goes_on (for_each w name items body).
Proof.
  intros Hb. induction items as [|x r IH]; [intros m; exists m; reflexivity|].
  change (for_each w name (x :: r) body)
    with (set_var w name [Lit x] ;; body ;; for_each w name r body).
  apply goes_on_seq; [apply goes_on_set_var|]. now apply goes_on_seq.
Qed.

Lemma goes_on_run_script : goes_on (run_script w).
Proof.
  unfold run_script. apply goes_on_seq; [apply goes_on_set_var|].
  apply goes_on_ite; repeat (apply goes_on_seq; [first [apply goes_on_echo | apply goes_on_python3]|]);
    apply goes_on_echo.
Qed.

Lemma goes_on_run_scripts : goes_on (run_scripts w).
Proof.
  unfold run_scripts. apply goes_on_seq; [intros m; eexists; reflexivity|].
  apply goes_on_seq; [intros m; eexists; reflexivity|].
  intros m. unfold for_in. apply goes_on_for_each, goes_on_run_script.
Qed.

Lemma text_end (m : machine) :
  text w [Lit "\n\n"; Date true; Lit " - Finished run_main.sh"] m
  = end_marker (w_date w true (m_dates m)).
Proof. unfold text, end_marker. cbn [expansion]. now rewrite app_nil_r. Qed.

(** *** Lines 75 and 76 *)
Lemma finish_goes (m : machine) :
  exists m', finish w m = Go m' /\ m_vars m' = m_vars m.
Proof.
  unfold finish.
  destruct (echo_goes [Lit "\n\n"; Date true; Lit " - Finished run_main.sh"] log m)
    as (m1 & E1 & V1 & _).
  destruct (echo_goes [Lit end_banner] log m1) as (m2 & E2 & V2 & _).
  exists m2. rewrite (seq_go _ _ _ _ E1). split; [exact E2 | congruence].
Qed.

Lemma finish_spec (m : machine) :
  expand "CRON_LOG_FILE" (m_vars m) = log_file ->
  can_append (m_fs m) log_file = true ->
  exists m',
    finish w m = Go m' /\ m_status m' = 0%Z
    /\ In (Echo log_file (end_marker (w_date w true (m_dates m)))) (m_trace m')
    /\ exists added,
         contents (m_fs m') log_file
         = contents (m_fs m) log_file
           +:+ echo_e (w_wctomb w) (end_marker (w_date w true (m_dates m))) +:+ added.
Proof.
  intros Hlog Hcan. unfold finish.
  set (arg := [Lit "\n\n"; Date true; Lit " - Finished run_main.sh"]).
  pose proof (bounded_echo w arg log m) as B1.
  destruct (echo_log arg m Hlog) as (m1 & E1 & (V1 & _) & Hw1).
  rewrite E1 in B1. cbn [last_state] in B1.
  destruct (Hw1 Hcan) as (Hc1 & _ & Ht1).
  rewrite (seq_go _ _ _ _ E1).
  assert (Hlog1 : expand "CRON_LOG_FILE" (m_vars m1) = log_file) by now rewrite V1.
  destruct (echo_log [Lit end_banner] m1 Hlog1) as (m2 & E2 & _ & Hw2).
  destruct (Hw2 (can_append_grows _ _ _ (proj1 B1) Hcan)) as (Hc2 & Hs2 & Ht2).
  exists m2. split; [exact E2|]. split; [exact Hs2|]. split.
  - rewrite Ht2, Ht1. subst arg. rewrite text_end.
    apply in_or_app. left. apply in_or_app. right. now left.
  - eexists. rewrite Hc2, Hc1. subst arg. rewrite text_end, app_assoc. reflexivity.
Qed.

(** The run from the loading of [.env] on. *)
Lemma run_main_going (m1 : machine) :
  prepare w (boot w) = Go m1 ->
  exists m2 m3,
    run_scripts w m1 = Go m2 /\ finish w m2 = Go m3
    /\ run_main w = Go m3 /\ m_vars m3 = m_vars m2.
Proof.
  intros E1. destruct (goes_on_run_scripts m1) as (m2 & E2).
  destruct (finish_goes m2) as (m3 & E3 & V3).
  exists m2, m3. repeat split; try assumption.
  unfold run_main, script.
  now rewrite (seq_go _ _ _ _ E1), (seq_go _ _ _ _ E2).
Qed.

Lemma run_main_stopped (z : Z) (m : machine) :
  prepare w (boot w) = Halt z m -> run_main w = Halt z m.
Proof. intros E. unfold run_main, script. now rewrite (seq_halt _ _ _ _ _ E). Qed.

(** Only the stages up to the loading of [.env] can end the run. *)
Lemma run_main_halted (z : Z) (m : machine) :
  run_main w = Halt z m -> prepare w (boot w) = Halt z m.
Proof.
  intros H. destruct (prepare w (boot w)) as [m1|z1 m1] eqn:E1.
  - destruct (run_main_going m1 E1) as (m2 & m3 & _ & _ & Erun & _). congruence.
  - rewrite (run_main_stopped _ _ E1) in H. exact H.
Qed.


(** The whole run when a check fails: it ends in [exit 1] and has
    written no end marker. *)
Lemma run_main_failing :
  checks_pass w = false ->
  exists m, prepare w (boot w) = Halt 1 m /\ run_main w = Halt 1 m /\ quiet (m_trace m).
Proof.
  intros Hfail. pose proof prepare_spec as Hp.
  destruct (prepare w (boot w)) as [m1|z m1] eqn:E1.
  - destruct Hp as (Hp & _). congruence.
  - destruct Hp as (Hq & [(-> & _)|(Hpass & _)]); [|congruence].
    exists m1. split; [reflexivity|]. split; [|exact Hq].
    now apply run_main_stopped.
Qed.

(** A run that is ended has written no end marker. *)
Lemma halted_quiet (z : Z) (m : machine) : run_main w = Halt z m -> quiet (m_trace m).
Proof.
  intros H. apply run_main_halted in H. pose proof prepare_spec as Hp.
  rewrite H in Hp. apply Hp.
Qed.

End Run.
End Checks.

(** ** [visualization/common.ipynb]: batches of queries, the configuration *)

Module NotebookFacts.
Import Text TextFacts Notebook Samples Effects Cases.

Local Open Scope list_scope.

Section WithDatabase.
Variable db : database.

Lemma run_queries_cons (q : string) (r : list string) (k : kernel db) :
  run_queries db (q :: r) k
  = (fst (__execute_sql_query db q k)
       :: fst (run_queries db r (snd (__execute_sql_query db q k))),
     snd (run_queries db r (snd (__execute_sql_query db q k)))).
Proof.
  simpl. destruct (__execute_sql_query db q k) as [o k1]. cbn [fst snd].
  destruct (run_queries db r k1) as [os k2]. reflexivity.
Qed.

Lemma execute_keeps_engine (q : string) (k : kernel db) :
  k_engine db (snd (__execute_sql_query db q k)) = k_engine db k.
Proof.
  unfold __execute_sql_query, try_block.
  destruct (k_engine db k) as [e|] eqn:He; [|simpl; exact He].
  destruct (connect db e) as [c|x]; [|destruct (is_Exception x); simpl; exact He].
  destruct (read_sql_query db q c) as [df|x], (close db c) as [[]|y]; simpl;
    try exact He;
    match goal with |- context [is_Exception ?z] => destruct (is_Exception z) end;
    simpl; exact He.
Qed.

Lemma execute_sends (q : string) (k : kernel db) (e : engine db) (c : connection db) :
  k_engine db k = Some e -> connect db e = Ok c ->
  k_queries db (snd (__execute_sql_query db q k)) = k_queries db k ++ [q].
Proof.
  intros He Hc. unfold __execute_sql_query, try_block. rewrite He, Hc.
  destruct (read_sql_query db q c) as [df|x], (close db c) as [[]|y]; simpl;
    try reflexivity;
    match goal with |- context [is_Exception ?z] => destruct (is_Exception z) end;
    reflexivity.
Qed.

Lemma execute_caught (q : string) (k : kernel db) :
  raises_errors_only db q -> exists df, fst (__execute_sql_query db q k) = Ok df.
Proof.
  intros (Hconn & Hread & Hclose). unfold __execute_sql_query, try_block.
  destruct (k_engine db k) as [e|]; [|simpl; eauto].
  destruct (connect db e) as [c|x] eqn:Hc; [|rewrite (Hconn _ _ Hc); simpl; eauto].
  destruct (read_sql_query db q c) as [df|x] eqn:Hr, (close db c) as [[]|y] eqn:Hx; simpl;
    eauto.
  - rewrite (Hclose _ _ Hx). simpl. eauto.
  - rewrite (Hread _ _ Hr). simpl. eauto.
  - rewrite (Hclose _ _ Hx). simpl. eauto.
Qed.

(** X14. Every query of a batch is answered with a frame: an error in
    one query is caught within it and the queries after it are still
    run. *)
Theorem run_queries_answers_all (queries : list string) (k : kernel db) :
  Forall (raises_errors_only db) queries ->
  length (fst (run_queries db queries k)) = length queries
  /\ Forall (fun o => exists df, o = Ok df) (fst (run_queries db queries k)).
Proof.
  intros H. revert k. induction H as [|q r Hq Hr IH]; intros k.
  - split; [reflexivity | constructor].
  - rewrite run_queries_cons. cbn [fst length].
    destruct (IH (snd (__execute_sql_query db q k))) as [Hlen Hall].
    split; [now rewrite Hlen|]. constructor; [|exact Hall].
    now apply execute_caught.
Qed.

(** X15. With an engine whose connections open, every query of a
    batch reaches the database once, in the order asked, whether or not
    the queries before it failed. *)
Theorem run_queries_sends_each_once
    (queries : list string) (k : kernel db) (e : engine db) (c : connection db) :
  k_engine db k = Some e -> connect db e = Ok c ->
  k_queries db (snd (run_queries db queries k)) = k_queries db k ++ queries.
Proof.
  revert k. induction queries as [|q r IH]; intros k He Hc.
  - simpl. now rewrite List.app_nil_r.
  - rewrite run_queries_cons. cbn [snd].
    rewrite IH by (rewrite ?execute_keeps_engine; assumption).
    rewrite (execute_sends q k e c He Hc), <- List.app_assoc. reflexivity.
Qed.

(** X16. What is set in the process environment wins over the [.env]
    file: with both names set there, the notebook comes up the same
    whatever the file holds. *)
Theorem process_environment_wins
    (dotenv : option (gmap string string)) (environ : gmap string string) (u s : string) :
  environ !! "DATABASE_URL" = Some u -> environ !! "SCHEMA_NAME" = Some s ->
  startup db dotenv environ = startup db None environ.
Proof.
  intros Hu Hs. unfold startup, load_dotenv, setup, getenv_strip.
  destruct dotenv as [pairs|]; [|reflexivity].
  rewrite (lookup_union_Some_l _ _ _ _ Hu), (lookup_union_Some_l _ _ _ _ Hs), Hu, Hs.
  reflexivity.
Qed.

End WithDatabase.

Lemma run_queries_answers_all_witness :
  length (fst (run_queries down ["SELECT 1"; "SELECT 2"] (bound down tt))) = 2
  /\ Forall (fun o => exists df, o = Ok df)
            (fst (run_queries down ["SELECT 1"; "SELECT 2"] (bound down tt))).
Proof.
  apply (run_queries_answers_all down ["SELECT 1"; "SELECT 2"] (bound down tt)).
  repeat constructor; intros ? x H; inversion H; reflexivity.
Defined.

Lemma run_queries_sends_each_once_witness :
  k_queries up (snd (run_queries up ["SELECT 1"; "SELECT 2"] (bound up tt)))
  = k_queries up (bound up tt) ++ ["SELECT 1"; "SELECT 2"].
Proof.
  apply (run_queries_sends_each_once up ["SELECT 1"; "SELECT 2"] (bound up tt) tt tt);
    reflexivity.
Defined.

Lemma process_environment_wins_witness :
  startup up (Some {["DATABASE_URL" := "sqlite://"]}) padded = startup up None padded.
Proof.
  apply (process_environment_wins up (Some {["DATABASE_URL" := "sqlite://"]}) padded
           "  postgresql://h/db  " "spotify_data "); reflexivity.
Defined.

(** *** [str.strip] *)

Lemma lstrip_first (s : string) : space_first (lstrip s) = false.
Proof.
  induction s as [|c r IH]; [reflexivity|]. simpl.
  destruct (py_space c) eqn:E; [exact IH | simpl; exact E].
Qed.

Lemma rev_app_end (s t : string) : String.rev_app s t = String.rev s +:+ t.
Proof.
  unfold String.rev. revert t. induction s as [|c r IH]; intros t; [reflexivity|].
  cbn [String.rev_app]. rewrite (IH (String c t)), (IH (String c "")).
  now rewrite app_assoc.
Qed.

Lemma rev_cons (c : ascii) (r : string) :
  String.rev (String c r) = String.rev r +:+ String c "".
Proof. unfold String.rev at 1. cbn [String.rev_app]. apply rev_app_end. Qed.

Lemma space_last_snoc (a : string) (c : ascii) :
  space_last (a +:+ String c "") = py_space c.
Proof.
  induction a as [|d a IH]; [reflexivity|].
  rewrite app_cons. cbn [space_last]. rewrite IH.
  destruct (a +:+ String c "") eqn:E; [|reflexivity].
  destruct a; discriminate.
Qed.

Lemma space_first_app (a b : string) :
  is_empty a = false -> space_first (a +:+ b) = space_first a.
Proof. destruct a; [discriminate | reflexivity]. Qed.

Lemma rev_named (s : string) : is_empty s = false -> is_empty (String.rev s) = false.
Proof.
  destruct s as [|c r]; [discriminate|]. intros _. rewrite rev_cons.
  destruct (String.rev r); reflexivity.
Qed.

Lemma space_last_rev (s : string) : space_last (String.rev s) = space_first s.
Proof.
  destruct s as [|c r]; [reflexivity|]. rewrite rev_cons. apply space_last_snoc.
Qed.

Lemma space_first_rev (s : string) : space_first (String.rev s) = space_last s.
Proof.
  induction s as [|c r IH]; [reflexivity|]. rewrite rev_cons.
  destruct r as [|d r]; [reflexivity|].
  rewrite space_first_app by now apply rev_named.
  rewrite IH. reflexivity.
Qed.

Lemma lstrip_last (s : string) : space_last s = false -> space_last (lstrip s) = false.
Proof.
  induction s as [|c r IH]; [reflexivity|]. intros H. cbn [lstrip].
  destruct (py_space c) eqn:E; [|exact H].
  apply IH. destruct r as [|d r]; [reflexivity|]. exact H.
Qed.

Lemma strip_clean (s : string) :
  space_first (strip s) = false /\ space_last (strip s) = false.
Proof.
  unfold strip. split.
  - rewrite space_first_rev. apply lstrip_last.
    rewrite space_last_rev. apply lstrip_first.
  - rewrite space_last_rev. apply lstrip_first.
Qed.

Section Setup.
Variable db : database.

(** X17. After a set-up that went through, [DATABASE_URL] and
    [schema_name] are the values of the environment without the white
    space at their two ends, none is left there, and the engine is the
    one made from that URL. *)
Theorem setup_binds_stripped_values (env : gmap string string) (k0 k : kernel db) :
  setup db env k0 = (Ok tt, k) ->
  exists url schema e,
    env !! "DATABASE_URL" = Some url /\ env !! "SCHEMA_NAME" = Some schema
    /\ k_DATABASE_URL db k = Some (strip url) /\ k_schema_name db k = Some (strip schema)
    /\ create_engine db (strip url) = Ok e /\ k_engine db k = Some e
    /\ space_first (strip url) = false /\ space_last (strip url) = false
    /\ space_first (strip schema) = false /\ space_last (strip schema) = false.
Proof.
  unfold setup, getenv_strip.
  destruct (env !! "DATABASE_URL") as [url|]; [|discriminate].
  destruct (env !! "SCHEMA_NAME") as [schema|]; [|discriminate].
  destruct (create_engine db (strip url)) as [e|x] eqn:He; [|discriminate].
  intros H. inversion H; subst. exists url, schema, e.
  destruct (strip_clean url) as [U1 U2], (strip_clean schema) as [S1 S2].
  repeat split; assumption || reflexivity.
Qed.

(** X19. The cell that prints the configuration, run after the
    set-up cell in a fresh kernel: with both names set it prints the
    two stripped values, whether or not [create_engine] raised; with
    [SCHEMA_NAME] missing it prints the line of [DATABASE_URL] and then
    raises [NameError]; with [DATABASE_URL] missing it raises at once. *)
Theorem show_after_startup
    (dotenv : option (gmap string string)) (environ : gmap string string) :
  (forall url schema,
     load_dotenv dotenv environ !! "DATABASE_URL" = Some url ->
     load_dotenv dotenv environ !! "SCHEMA_NAME" = Some schema ->
     fst (show db (snd (startup db dotenv environ))) = Ok tt
     /\ k_stdout db (snd (show db (snd (startup db dotenv environ))))
        = [shown "DATABASE_URL:" (strip url); shown "SCHEMA_NAME:" (strip schema)])
  /\ (forall url,
        load_dotenv dotenv environ !! "DATABASE_URL" = Some url ->
        load_dotenv dotenv environ !! "SCHEMA_NAME" = None ->
        fst (show db (snd (startup db dotenv environ)))
        = Raise (Error "NameError" "name 'schema_name' is not defined")
        /\ k_stdout db (snd (show db (snd (startup db dotenv environ))))
           = [shown "DATABASE_URL:" (strip url)])
  /\ (load_dotenv dotenv environ !! "DATABASE_URL" = None ->
      fst (show db (snd (startup db dotenv environ)))
      = Raise (Error "NameError" "name 'DATABASE_URL' is not defined")
      /\ k_stdout db (snd (show db (snd (startup db dotenv environ)))) = []).
Proof.
  unfold startup, setup, getenv_strip.
  set (env := load_dotenv dotenv environ).
  split; [|split].
  - intros url schema -> ->.
    destruct (create_engine db (strip url)); split; reflexivity.
  - intros url -> ->. split; reflexivity.
  - intros ->. split; reflexivity.
Qed.

End Setup.

Lemma show_after_startup_witness :
  (fst (show up (snd (startup up None padded))) = Ok tt
   /\ k_stdout up (snd (show up (snd (startup up None padded))))
      = [shown "DATABASE_URL:" (strip "  postgresql://h/db  ");
         shown "SCHEMA_NAME:" (strip "spotify_data ")])
  /\ (fst (show up (snd (startup up None {["DATABASE_URL" := "sqlite://"]})))
      = Raise (Error "NameError" "name 'schema_name' is not defined")
      /\ k_stdout up (snd (show up (snd (startup up None {["DATABASE_URL" := "sqlite://"]}))))
         = [shown "DATABASE_URL:" (strip "sqlite://")])
  /\ (fst (show up (snd (startup up None ∅)))
      = Raise (Error "NameError" "name 'DATABASE_URL' is not defined")
      /\ k_stdout up (snd (show up (snd (startup up None ∅)))) = []).
Proof.
  split; [|split].
  - apply (proj1 (show_after_startup up None padded)); reflexivity.
  - apply (proj1 (proj2 (show_after_startup up None {["DATABASE_URL" := "sqlite://"]})));
      reflexivity.
  - apply (proj2 (proj2 (show_after_startup up None ∅))). reflexivity.
Defined.

Lemma setup_binds_stripped_values_witness :
  exists url schema e,
    padded !! "DATABASE_URL" = Some url /\ padded !! "SCHEMA_NAME" = Some schema
    /\ k_DATABASE_URL up (snd (setup up padded (fresh up))) = Some (strip url)
    /\ k_schema_name up (snd (setup up padded (fresh up))) = Some (strip schema)
    /\ create_engine up (strip url) = Ok e
    /\ k_engine up (snd (setup up padded (fresh up))) = Some e
    /\ space_first (strip url) = false /\ space_last (strip url) = false
    /\ space_first (strip schema) = false /\ space_last (strip schema) = false.
Proof.
  apply (setup_binds_stripped_values up padded (fresh up)). reflexivity.
Defined.

End NotebookFacts.

(** ** [run_main.sh]: the [.env] file as a whole *)

Module EnvFile.
Import Text TextFacts Bash Shell ShellFacts RunMain EnvLoop Samples Effects Cases.

Local Open Scope list_scope.
Local Open Scope cmd_scope.
Local Arguments Ascii.eqb : simpl never.

(** *** The lines that [read] delivers *)

Lemma lines_of_cons (c : ascii) (r : string) :
  fst (lines_of (String c r))
  = if Ascii.eqb c nl then "" :: fst (lines_of r)
    else match fst (lines_of r) with
         | [] => []
         | l :: ls => (if Ascii.eqb c zero then l else String c l) :: ls
         end.
Proof.
  simpl. destruct (lines_of r) as [[|l ls] t]; destruct (Ascii.eqb c nl); reflexivity.
Qed.

Lemma lines_of_no_newline (s : string) : has_char nl s = false -> fst (lines_of s) = [].
Proof.
  induction s as [|c r IH]; [reflexivity|]. intros H.
  cbn [has_char] in H. apply orb_false_elim in H as [Hc Hr].
  rewrite lines_of_cons, (IH Hr), Ascii.eqb_sym, Hc. reflexivity.
Qed.

Lemma complete_tail (c : ascii) (r : string) :
  complete (String c r) = true -> complete r = true.
Proof.
  unfold complete. cbn [is_empty orb ends_with]. destruct r as [|d r]; [reflexivity|].
  intros H. exact H.
Qed.

Lemma lines_of_complete (body tail : string) :
  complete body = true -> has_char nl tail = false ->
  fst (lines_of (body +:+ tail)) = fst (lines_of body).
Proof.
  intros Hb Ht. induction body as [|c r IH].
  - rewrite app_nil_l. now apply lines_of_no_newline.
  - rewrite app_cons, !lines_of_cons, (IH (complete_tail _ _ Hb)). reflexivity.
Qed.

(** *** What one line can change *)

Lemma assigns_named (name line : string) :
  operand_name (fst (read_fields line)) = Some name -> assigns name line = true.
Proof.
  intros H. unfold assigns. apply operand_name_some in H as (_ & [[-> _]|[-> _]]).
  - now rewrite String.eqb_refl.
  - rewrite String.eqb_refl. apply orb_true_r.
Qed.

Lemma unassigned_unnamed (name line : string) :
  assigns name line = false -> operand_name (fst (read_fields line)) <> Some name.
Proof. intros Ha Hn. apply assigns_named in Hn. congruence. Qed.

Lemma unassigned_all (name : string) (ls : list string) :
  Forall (fun l => assigns name l = false) ls ->
  Forall (fun l => operand_name (fst (read_fields l)) <> Some name) ls.
Proof.
  intros H. induction H as [|l r Hl Hr IH]; constructor; [|exact IH].
  now apply unassigned_unnamed.
Qed.

Lemma line_effect_other (line name : string) (st : gmap string var) :
  name <> "key" -> name <> "value" -> assigns name line = false ->
  line_effect line st !! name = st !! name.
Proof.
  intros Hk Hv Ha. apply line_effect_frame; [assumption..|]. now apply unassigned_unnamed.
Qed.

Lemma lines_other (ls : list string) (name : string) (st : gmap string var) :
  name <> "key" -> name <> "value" ->
  Forall (fun l => assigns name l = false) ls ->
  fold_left (fun st line => line_effect line st) ls st !! name = st !! name.
Proof.
  intros Hk Hv H. revert st. induction H as [|l r Hl Hr IH]; intros st; [reflexivity|].
  simpl. rewrite IH. now apply line_effect_other.
Qed.

(** *** Arrays stay arrays, strings stay strings *)

Lemma is_array_insert (n name : string) (v : var) (st : gmap string var) :
  (forall old, st !! n = Some old ->
     match v_value old, v_value v with
     | Scalar _, Scalar _ | Indexed _, Indexed _ | Assoc _, Assoc _ => True
     | _, _ => False
     end) ->
  (st !! n = None -> exists s e, v = Var (Scalar s) e) ->
  is_array name (<[n := v]> st) = is_array name st.
Proof.
  intros Hold Hnew. unfold is_array. destruct (decide (n = name)) as [->|Hne].
  - rewrite lookup_insert_eq. destruct (st !! name) as [[old e]|].
    + specialize (Hold _ eq_refl). destruct v as [val e']. simpl in Hold.
      destruct old, val; tauto.
    + destruct (Hnew eq_refl) as (s & e & ->). reflexivity.
  - now rewrite lookup_insert_ne.
Qed.

Lemma is_array_assign (n s name : string) (st : gmap string var) :
  is_array name (fst (assign n s st)) = is_array name st.
Proof.
  unfold assign. destruct (is_readonly n); [reflexivity|]. cbn [fst].
  apply is_array_insert.
  - intros old Ho. rewrite Ho. destruct old as [[t|l|kv] e]; exact I.
  - intros ->. eauto.
Qed.

Lemma is_array_set_exported (n s name : string) (st : gmap string var) :
  is_array name (set_exported n s st) = is_array name st.
Proof.
  unfold set_exported. destruct (st !! n) as [[old e]|] eqn:Ho.
  - apply is_array_insert.
    + intros old' Ho'. rewrite Ho in Ho'. inversion Ho'; subst.
      destruct old as [t|l|kv]; exact I.
    + rewrite Ho. discriminate.
  - apply is_array_insert; [rewrite Ho; discriminate | eauto].
Qed.

Lemma is_array_mark_exported (n name : string) (st : gmap string var) :
  is_array name (mark_exported n st) = is_array name st.
Proof.
  unfold mark_exported. destruct (st !! n) as [[old e]|] eqn:Ho; [|reflexivity].
  apply is_array_insert.
  - intros old' Ho'. rewrite Ho in Ho'. inversion Ho'; subst.
    destruct old as [t|l|kv]; exact I.
  - rewrite Ho. discriminate.
Qed.

Lemma is_array_line (line name : string) (st : gmap string var) :
  is_array name (line_effect line st) = is_array name st.
Proof.
  unfold line_effect. destruct (read_fields line) as [k v].
  destruct (key_wanted k); [|now rewrite !is_array_assign].
  destruct (export_target k v _);
    rewrite ?is_array_set_exported, ?is_array_mark_exported;
    now rewrite !is_array_assign.
Qed.

Lemma is_array_lines (ls : list string) (name : string) (st : gmap string var) :
  is_array name (fold_left (fun st line => line_effect line st) ls st) = is_array name st.
Proof.
  revert st. induction ls as [|l r IH]; intros st; [reflexivity|].
  simpl. rewrite IH. apply is_array_line.
Qed.

(** *** The environment *)

Lemma environ_lookup (name : string) (st : gmap string var) :
  environ st !! name
  = if is_computed name then None
    else match st !! name with
         | Some (Var (Scalar s) true) => Some s
         | _ => None
         end.
Proof.
  unfold environ. rewrite map_lookup_imap.
  destruct (st !! name) as [[[s|l|kv] [|]]|]; cbn; now destruct (is_computed name).
Qed.

Lemma environ_same (name : string) (st st' : gmap string var) :
  st' !! name = st !! name -> environ st' !! name = environ st !! name.
Proof. intros H. now rewrite !environ_lookup, H. Qed.

Lemma environ_set_exported (k v : string) (st : gmap string var) :
  is_computed k = false -> is_array k st = false ->
  environ (set_exported k v st) !! k = Some v.
Proof.
  intros Hc H. rewrite environ_lookup, Hc. unfold is_array, set_exported in *.
  destruct (st !! k) as [[[t|l|kv] e]|]; try discriminate H;
    rewrite lookup_insert_eq; reflexivity.
Qed.

Lemma line_effect_exports (line k : string) (st : gmap string var) :
  fst (read_fields line) = k -> ordinary k = true ->
  is_array k st = false ->
  environ (line_effect line st) !! k = Some (snd (read_fields line)).
Proof.
  intros Hk Ho Harr. destruct (ordinary_parts k Ho) as (Hlegal & Hro & Hco).
  destruct (line_sets (fun _ => false) line k st) as (_ & _ & He);
    [rewrite Hk; now apply operand_name_legal | assumption..|].
  rewrite He, Hk, Hlegal. apply environ_set_exported; [exact Hco|].
  unfold read_last. now rewrite !is_array_assign.
Qed.

Section File.
Variable w : world.

(** The loop over a file that is there and may be read. *)
Lemma load_env_effect (file : list piece) (m : machine) (content : string) :
  fs_files (m_fs m) !! abs (m_cwd m) (text w file m) = Some content ->
  allowed (m_fs m) (abs (m_cwd m) (text w file m)) = true ->
  exists m',
    load_env w file m
    = match snd (lines_effect (w_element w) (fst (lines_of content)) (m_vars m)) with
      | None => Go m'
      | Some z => Halt z m'
      end
    /\ m_vars m'
       = match snd (lines_effect (w_element w) (fst (lines_of content)) (m_vars m)) with
         | None =>
             read_last (snd (lines_of content))
               (fst (lines_effect (w_element w) (fst (lines_of content)) (m_vars m)))
         | Some _ => fst (lines_effect (w_element w) (fst (lines_of content)) (m_vars m))
         end
    /\ m_fs m' = m_fs m /\ m_cwd m' = m_cwd m /\ m_trace m' = m_trace m.
Proof.
  intros Hc Ha. unfold load_env, read_last.
  cbn [expanded with_dates m_fs m_cwd]. rewrite Hc, Ha.
  destruct (lines_of content) as [ls rest]. cbn [fst snd].
  destruct (while_read_effect w ls (with_status (expanded file m) 0))
    as (m1 & E1 & V1 & F1 & C1 & _ & T1 & _).
  cbn [with_status expanded with_dates m_vars m_fs m_cwd m_trace] in *.
  unfold seq. rewrite E1.
  destruct (snd (lines_effect (w_element w) ls (m_vars m))).
  - exists m1. auto.
  - unfold read_into. destruct (read_fields rest) as [k v]. cbn [fst snd].
    eexists. split; [reflexivity|].
    cbn [with_vars m_vars m_fs m_cwd m_trace fst]. rewrite V1, F1, C1, T1.
    repeat split.
Qed.

(** The same when the loop comes to its end. *)
Lemma load_env_went (file : list piece) (m m' : machine) (content : string) :
  fs_files (m_fs m) !! abs (m_cwd m) (text w file m) = Some content ->
  allowed (m_fs m) (abs (m_cwd m) (text w file m)) = true ->
  load_env w file m = Go m' ->
  m_vars m' = dotenv_effect content (m_vars m).
Proof.
  intros Hc Ha E. destruct (load_env_effect file m content Hc Ha) as (m1 & E1 & V1 & _).
  rewrite E in E1. unfold dotenv_effect.
  destruct (snd (lines_effect _ _ _)) eqn:Hs; [discriminate|].
  inversion E1; subst. rewrite V1. now rewrite (lines_effect_go _ _ _ Hs).
Qed.

(** The loop when the file is missing or may not be read. *)
Lemma load_env_denied (file : list piece) (m : machine) :
  fs_files (m_fs m) !! abs (m_cwd m) (text w file m) = None
  \/ allowed (m_fs m) (abs (m_cwd m) (text w file m)) = false ->
  exists m',
    load_env w file m = Go m' /\ m_vars m' = m_vars m /\ m_status m' = 1%Z.
Proof.
  intros H. unfold load_env. cbn [expanded with_dates m_fs m_cwd].
  destruct (fs_files (m_fs m) !! _) as [content|].
  - destruct H as [H|H]; [discriminate|]. rewrite H.
    eexists. split; [reflexivity|]. split; reflexivity.
  - eexists. split; [reflexivity|]. split; reflexivity.
Qed.

Lemma load_env_last (file : list piece) (m : machine) (content : string) :
  fs_files (m_fs m) !! abs (m_cwd m) (text w file m) = Some content ->
  allowed (m_fs m) (abs (m_cwd m) (text w file m)) = true ->
  forall name, name <> "key" -> name <> "value" ->
    m_vars (last_state (load_env w file m)) !! name
    = fst (lines_effect (w_element w) (fst (lines_of content)) (m_vars m)) !! name.
Proof.
  intros Hc Ha name Hk Hv.
  destruct (load_env_effect file m content Hc Ha) as (m' & -> & V & _).
  destruct (snd (lines_effect _ _ _)); cbn [last_state]; rewrite V; [reflexivity|].
  now apply lookup_read_last.
Qed.

(** X1. The text that follows the last newline of [.env] is no line of
    the loop: [read] leaves its fields in [key] and [value] and the body
    is not run, so the file exports what its complete lines export. *)
Theorem unterminated_line_not_exported
    (file : list piece) (m : machine) (body tail name : string) :
  fs_files (m_fs m) !! abs (m_cwd m) (text w file m) = Some (body +:+ tail) ->
  allowed (m_fs m) (abs (m_cwd m) (text w file m)) = true ->
  complete body = true -> has_char nl tail = false ->
  name <> "key" -> name <> "value" ->
  m_vars (last_state (load_env w file m)) !! name
  = m_vars (last_state (while_read w (fst (lines_of body)) m)) !! name.
Proof.
  intros Hc Ha Hb Ht Hk Hv.
  rewrite (load_env_last file m _ Hc Ha name Hk Hv), while_read_last.
  now rewrite lines_of_complete.
Qed.

(** X2. When the file is missing or may not be read the loop is passed
    over and the variables are left as they are, [key] and [value]
    among them. When it is read, a variable that no line of the file
    names is left as it was, [key] and [value] apart. *)
Theorem load_env_keeps_other_variables (file : list piece) (m : machine) :
  (fs_files (m_fs m) !! abs (m_cwd m) (text w file m) = None
   \/ allowed (m_fs m) (abs (m_cwd m) (text w file m)) = false ->
   m_vars (last_state (load_env w file m)) = m_vars m)
  /\ (forall content name,
        fs_files (m_fs m) !! abs (m_cwd m) (text w file m) = Some content ->
        name <> "key" -> name <> "value" -> is_computed name = false ->
        Forall (fun l => assigns name l = false) (fst (lines_of content)) ->
        m_vars (last_state (load_env w file m)) !! name = m_vars m !! name).
Proof.
  split.
  - intros H. destruct (load_env_denied file m H) as (m' & -> & V & _). exact V.
  - intros content name Hc Hk Hv _ Hlines.
    destruct (allowed (m_fs m) (abs (m_cwd m) (text w file m))) eqn:Ha.
    + rewrite (load_env_last file m _ Hc Ha name Hk Hv).
      apply lines_effect_frame; [assumption..|]. now apply unassigned_all.
    + destruct (load_env_denied file m (or_intror Ha)) as (m' & -> & V & _).
      cbn [last_state]. now rewrite V.
Qed.

(** X3. Outside POSIX mode, the last line that names an ordinary
    variable decides what the programs started afterwards find in their
    environment under that name. *)
Theorem last_assignment_wins
    (before after : list string) (line k : string) (m : machine) :
  fst (read_fields line) = k -> ordinary k = true ->
  k <> "key" -> k <> "value" ->
  is_array k (m_vars m) = false ->
  posix (m_vars m) = false ->
  Forall (fun l => assigns "POSIXLY_CORRECT" l = false) (before ++ line :: after) ->
  Forall (fun l => assigns k l = false) after ->
  environ (m_vars (last_state (while_read w (before ++ line :: after) m))) !! k
  = Some (snd (read_fields line)).
Proof.
  intros Hline Ho Hk Hv Harr Hposix Hdefault Hafter.
  rewrite while_read_last.
  rewrite lines_effect_go
    by (apply lines_effect_default; [exact Hposix | now apply unassigned_all]).
  rewrite fold_left_app. cbn [fold_left].
  set (st1 := fold_left _ before (m_vars m)).
  assert (H1 : is_array k st1 = false) by (subst st1; now rewrite is_array_lines).
  rewrite <- (line_effect_exports line k st1 Hline Ho H1).
  apply environ_same. now apply lines_other.
Qed.

End File.

Lemma unterminated_line_not_exported_witness :
  m_vars (last_state (load_env unterminated [Lit ".env"] (at_home unterminated))) !! "B"
  = m_vars (last_state (while_read unterminated (fst (lines_of (lines ["A=1"])))
                          (at_home unterminated))) !! "B".
Proof.
  apply (unterminated_line_not_exported unterminated [Lit ".env"] (at_home unterminated)
           (lines ["A=1"]) "B=2" "B");
    try discriminate; vm_compute; reflexivity.
Defined.

Lemma load_env_keeps_other_variables_witness :
  m_vars (last_state (load_env unreadable [Lit ".env"] (at_home unreadable)))
  = m_vars (at_home unreadable)
  /\ m_vars (last_state (load_env usual [Lit ".env"] (at_home usual))) !! "HOME"
     = m_vars (at_home usual) !! "HOME".
Proof.
  split.
  - apply (proj1 (load_env_keeps_other_variables unreadable [Lit ".env"]
                    (at_home unreadable))).
    right. vm_compute. reflexivity.
  - apply (proj2 (load_env_keeps_other_variables usual [Lit ".env"] (at_home usual))
             (lines ["CLIENT_ID=abc"]) "HOME").
    + vm_compute. reflexivity.
    + intros H. discriminate H.
    + intros H. discriminate H.
    + reflexivity.
    + vm_compute. repeat constructor.
Defined.

Lemma last_assignment_wins_witness :
  environ (m_vars (last_state (while_read usual (["A=1"] ++ "A=2" :: ["B=3"]) (boot usual))))
    !! "A"
  = Some (snd (read_fields "A=2")).
Proof.
  apply (last_assignment_wins usual ["A=1"] ["B=3"] "A=2" "A" (boot usual)).
  - reflexivity.
  - reflexivity.
  - intros H. discriminate H.
  - intros H. discriminate H.
  - vm_compute. reflexivity.
  - vm_compute. reflexivity.
  - vm_compute. repeat constructor.
  - vm_compute. repeat constructor.
Defined.

End EnvFile.

(** ** [run_main.sh]: one turn of the loop over the scripts *)

Module Turn.
Import Text TextFacts Bash Shell ShellFacts RunMain EnvLoop Frame Checks Samples Effects Cases.

Local Open Scope list_scope.
Local Open Scope cmd_scope.
Local Arguments Ascii.eqb : simpl never.

Section Run.
Variable w : world.

(** *** One command at a time, whatever [CRON_LOG_FILE] holds *)

Lemma log_opens_after (m m' : machine) (added : string) :
  m_vars m' = m_vars m -> m_cwd m' = m_cwd m ->
  m_fs m' = (if log_opens m then append_file (log_target m) added (m_fs m) else m_fs m) ->
  log_opens m' = log_opens m.
Proof.
  intros V C F. unfold log_opens, log_target in *. rewrite V, C, F.
  destruct (negb (is_empty (expand "CRON_LOG_FILE" (m_vars m)))); [|reflexivity].
  cbn [andb] in *.
  destruct (can_append (m_fs m) _) eqn:Hc; [|exact Hc].
  now apply can_append_after.
Qed.

Lemma echo_step (arg : list piece) (m : machine) :
  exists m' e,
    echo_to w arg log m = Go m'
    /\ m_vars m' = m_vars m /\ m_cwd m' = m_cwd m /\ m_runs m' = m_runs m
    /\ m_dates m' = m_dates m + dates_in arg
    /\ m_trace m' = m_trace m ++ [e] /\ is_python3 e = false
    /\ log_opens m' = log_opens m
    /\ (m_status m' = 0%Z \/ m_status m' = 1%Z)
    /\ (log_opens m = true ->
        contents (m_fs m') (log_target m)
        = contents (m_fs m) (log_target m) +:+ echo_e (w_wctomb w) (text w arg m)).
Proof.
  unfold echo_to, log. rewrite text_ref.
  cbn [expanded with_dates m_vars m_cwd m_fs].
  fold (log_target m). fold (log_opens m).
  destruct (log_opens m) eqn:Ho.
  - eexists _, _. split; [reflexivity|].
    cbn [logged wrote expanded with_dates m_vars m_cwd m_runs m_dates m_trace m_fs m_status dates_in].
    split; [reflexivity|]. split; [reflexivity|]. split; [reflexivity|].
    split; [lia|]. split; [reflexivity|]. split; [reflexivity|].
    split; [|split; [now left|]].
    + rewrite <- Ho.
      apply (log_opens_after m _ (echo_e (w_wctomb w) (text w arg m))); try reflexivity.
      cbn [m_fs]. now rewrite Ho.
    + intros _. rewrite contents_append. now destruct (decide (log_target m = log_target m)).
  - eexists _, _. split; [reflexivity|].
    cbn [logged expanded with_dates m_vars m_cwd m_runs m_dates m_trace m_fs m_status dates_in].
    split; [reflexivity|]. split; [reflexivity|]. split; [reflexivity|].
    split; [lia|]. split; [reflexivity|]. split; [reflexivity|].
    split; [|split; [now right | discriminate]].
    rewrite <- Ho. apply (log_opens_after m _ ""); try reflexivity. cbn [m_fs]. now rewrite Ho.
Qed.

Lemma python_step (script : string) (m : machine) :
  exists m',
    python3_to w [Ref script] log m = Go m'
    /\ m_vars m' = m_vars m /\ m_cwd m' = m_cwd m /\ m_dates m' = m_dates m
    /\ log_opens m' = log_opens m
    /\ if log_opens m
       then m_runs m' = S (m_runs m)
            /\ m_trace m'
               = m_trace m
                 ++ [Python3 (expand script (m_vars m)) (log_target m)
                       (fst (w_python3 w (m_runs m) (environ (m_vars m))
                               (expand script (m_vars m))))
                       (snd (w_python3 w (m_runs m) (environ (m_vars m))
                               (expand script (m_vars m))))]
            /\ contents (m_fs m') (log_target m)
               = contents (m_fs m) (log_target m)
                 +:+ fst (w_python3 w (m_runs m) (environ (m_vars m))
                            (expand script (m_vars m)))
       else m_runs m' = m_runs m /\ m_trace m' = m_trace m ++ [Denied (log_target m)].
Proof.
  unfold python3_to, log. rewrite !text_ref.
  cbn [expanded with_dates m_vars m_cwd m_fs m_runs].
  fold (log_target m). fold (log_opens m).
  destruct (log_opens m) eqn:Ho.
  - destruct (w_python3 w _ _ _) as [out z]. cbn [fst snd].
    eexists. split; [reflexivity|].
    cbn [logged ran wrote expanded with_dates m_vars m_cwd m_runs m_dates m_trace m_fs dates_in].
    split; [reflexivity|]. split; [reflexivity|]. split; [lia|]. split.
    + rewrite <- Ho. apply (log_opens_after m _ out); try reflexivity. cbn [m_fs]. now rewrite Ho.
    + split; [reflexivity|]. split; [reflexivity|].
      rewrite contents_append. now destruct (decide (log_target m = log_target m)).
  - eexists. split; [reflexivity|].
    cbn [logged expanded with_dates m_vars m_cwd m_runs m_dates m_trace m_fs dates_in].
    split; [reflexivity|]. split; [reflexivity|]. split; [lia|]. split.
    + rewrite <- Ho. apply (log_opens_after m _ ""); try reflexivity. cbn [m_fs]. now rewrite Ho.
    + split; reflexivity.
Qed.

Lemma readonly_script_path : is_readonly "script_path" = false.
Proof. reflexivity. Qed.

Lemma script_path_named (m : machine) : is_empty (script_path m) = false.
Proof.
  unfold script_path. destruct (expand "CODE_DIR" (m_vars m)); reflexivity.
Qed.

Lemma text_script_path (m : machine) :
  text w [Ref "CODE_DIR"; Lit "/"; Ref "script"] m = script_path m.
Proof. unfold text, script_path. cbn [expansion]. now rewrite app_nil_r. Qed.

Lemma text_stamp (utc : bool) (a b name : string) (m : machine) :
  text w [Lit a; Date utc; Lit b; Ref name] m
  = a +:+ w_date w utc (m_dates m) +:+ b +:+ expand name (m_vars m).
Proof. unfold text. cbn [expansion]. now rewrite app_nil_r. Qed.

(** The state in which the body's test of line 57 is made. *)
Lemma script_path_set (m : machine) :
  exists m1,
    set_var w "script_path" [Ref "CODE_DIR"; Lit "/"; Ref "script"] m = Go m1
    /\ m_vars m1 = fst (assign "script_path" (script_path m) (m_vars m))
    /\ m_cwd m1 = m_cwd m /\ m_fs m1 = m_fs m /\ m_runs m1 = m_runs m
    /\ m_dates m1 = m_dates m /\ m_trace m1 = m_trace m
    /\ expand "script_path" (m_vars m1) = script_path m
    /\ expand "script" (m_vars m1) = expand "script" (m_vars m)
    /\ log_target m1 = log_target m /\ log_opens m1 = log_opens m
    /\ test_f w [Ref "script_path"] m1 = script_found m.
Proof.
  eexists. split; [reflexivity|].
  cbn [with_vars expanded with_dates m_vars m_cwd m_fs m_runs m_dates m_trace dates_in].
  rewrite text_script_path.
  assert (Hp : expand "script_path" (fst (assign "script_path" (script_path m) (m_vars m)))
               = script_path m) by apply expand_assign, readonly_script_path.
  assert (Hl : expand "CRON_LOG_FILE" (fst (assign "script_path" (script_path m) (m_vars m)))
               = expand "CRON_LOG_FILE" (m_vars m)) by now apply expand_assign_ne.
  repeat split; try reflexivity; try lia; try assumption.
  - now apply expand_assign_ne.
  - unfold log_target. cbn [with_vars expanded with_dates m_vars m_cwd].
    cbn [fst]; now rewrite Hl.
  - unfold log_opens, log_target. cbn [with_vars expanded with_dates m_vars m_cwd m_fs].
    cbn [fst]; now rewrite Hl.
  - unfold test_f, script_found. rewrite text_ref.
    cbn [with_vars expanded with_dates m_vars m_cwd m_fs].
    cbn [fst]; now rewrite Hp, script_path_named.
Qed.

(** *** The body of the loop (lines 55 to 71) *)

Lemma run_script_missing (m : machine) :
  script_found m = false ->
  exists m' e,
    run_script w m = Go m'
    /\ m_trace m' = m_trace m ++ [e] /\ is_python3 e = false
    /\ m_runs m' = m_runs m
    /\ (log_opens m = true ->
        contents (m_fs m') (log_target m)
        = contents (m_fs m) (log_target m)
          +:+ echo_e (w_wctomb w) ("\n\n Script " +:+ script_path m +:+ " not found!")).
Proof.
  intros Hf. unfold run_script.
  destruct (script_path_set m)
    as (m1 & E1 & V1 & C1 & F1 & R1 & D1 & T1 & P1 & S1 & L1 & O1 & Htest).
  rewrite (seq_go _ _ _ _ E1). unfold ite. rewrite Htest, Hf.
  destruct (echo_step [Lit "\n\n Script "; Ref "script_path"; Lit " not found!"] m1)
    as (m2 & e & E2 & V2 & C2 & R2 & D2 & T2 & He & O2 & _ & W2).
  exists m2, e. split; [exact E2|]. split; [congruence|]. split; [exact He|].
  split; [congruence|].
  intros Ho. rewrite O1 in W2. specialize (W2 Ho).
  rewrite L1, F1, text_lit_ref_lit, P1 in W2. exact W2.
Qed.

Lemma run_script_found (m : machine) :
  script_found m = true ->
  exists m' e1 e2 e3 p e5 e6,
    run_script w m = Go m'
    /\ m_trace m' = m_trace m ++ [e1; e2; e3; p; e5; e6]
    /\ is_python3 e1 = false /\ is_python3 e2 = false /\ is_python3 e3 = false
    /\ is_python3 e5 = false /\ is_python3 e6 = false
    /\ is_python3 p = log_opens m
    /\ m_runs m' = (if log_opens m then S (m_runs m) else m_runs m)
    /\ (log_opens m = true ->
        contents (m_fs m') (log_target m)
        = contents (m_fs m) (log_target m)
          +:+ echo_e (w_wctomb w) ("Running python file: " +:+ script_path m)
          +:+ echo_e (w_wctomb w) script_banner
          +:+ echo_e (w_wctomb w)
                ("\n\n" +:+ w_date w true (m_dates m) +:+ " - Starting "
                 +:+ expand "script" (m_vars m))
          +:+ fst (w_python3 w (m_runs m)
                     (environ (fst (assign "script_path" (script_path m) (m_vars m))))
                     (script_path m))
          +:+ echo_e (w_wctomb w)
                ("\n\n" +:+ w_date w true (S (m_dates m)) +:+ " - Finished "
                 +:+ expand "script" (m_vars m))
          +:+ echo_e (w_wctomb w) end_banner)
    /\ (log_opens m = true ->
        p = Python3 (script_path m) (log_target m)
              (fst (w_python3 w (m_runs m)
                      (environ (fst (assign "script_path" (script_path m) (m_vars m))))
                      (script_path m)))
              (snd (w_python3 w (m_runs m)
                      (environ (fst (assign "script_path" (script_path m) (m_vars m))))
                      (script_path m)))).
Proof.
  intros Hf. unfold run_script.
  destruct (script_path_set m)
    as (m1 & E1 & V1 & C1 & F1 & R1 & D1 & T1 & P1 & S1 & L1 & O1 & Htest).
  rewrite (seq_go _ _ _ _ E1). unfold ite. rewrite Htest, Hf.
  destruct (echo_step [Lit "Running python file: "; Ref "script_path"] m1)
    as (m2 & e1 & E2 & V2 & C2 & R2 & D2 & T2 & H2 & O2 & _ & W2).
  rewrite (seq_go _ _ _ _ E2).
  destruct (echo_step [Lit script_banner] m2)
    as (m3 & e2 & E3 & V3 & C3 & R3 & D3 & T3 & H3 & O3 & _ & W3).
  rewrite (seq_go _ _ _ _ E3).
  destruct (echo_step [Lit "\n\n"; Date true; Lit " - Starting "; Ref "script"] m3)
    as (m4 & e3 & E4 & V4 & C4 & R4 & D4 & T4 & H4 & O4 & _ & W4).
  rewrite (seq_go _ _ _ _ E4).
  destruct (python_step "script_path" m4) as (m5 & E5 & V5 & C5 & D5 & O5 & Hrun).
  rewrite (seq_go _ _ _ _ E5).
  destruct (echo_step [Lit "\n\n"; Date true; Lit " - Finished "; Ref "script"] m5)
    as (m6 & e5 & E6 & V6 & C6 & R6 & D6 & T6 & H6 & O6 & _ & W6).
  rewrite (seq_go _ _ _ _ E6).
  destruct (echo_step [Lit end_banner] m6)
    as (m7 & e6 & E7 & V7 & C7 & R7 & D7 & T7 & H7 & O7 & _ & W7).
  assert (L2 : log_target m2 = log_target m) by (unfold log_target in *; congruence).
  assert (L3 : log_target m3 = log_target m) by (unfold log_target in *; congruence).
  assert (L4 : log_target m4 = log_target m) by (unfold log_target in *; congruence).
  assert (L5 : log_target m5 = log_target m) by (unfold log_target in *; congruence).
  assert (L6 : log_target m6 = log_target m) by (unfold log_target in *; congruence).
  assert (Ho4 : log_opens m4 = log_opens m) by congruence.
  rewrite Ho4 in Hrun.
  destruct (log_opens m) eqn:Ho.
  - destruct Hrun as (R5 & T5 & W5).
    assert (Hs4 : expand "script_path" (m_vars m4) = script_path m)
      by (rewrite V4, V3, V2; exact P1).
    assert (Hv4 : m_vars m4 = fst (assign "script_path" (script_path m) (m_vars m)))
      by (rewrite V4, V3, V2; exact V1).
    assert (Hr4 : m_runs m4 = m_runs m) by congruence.
    rewrite Hs4, Hv4, Hr4, L4 in T5.
    eexists m7, e1, e2, e3, _, e5, e6. split; [exact E7|]. split.
    { rewrite T7, T6, T5, T4, T3, T2, T1, <- !List.app_assoc. reflexivity. }
    repeat (split; [assumption|]). split; [reflexivity|].
    split; [congruence|]. split; [|intros _; reflexivity]. intros _.
    rewrite <- L6, W7 by congruence. rewrite L6, <- L5, W6 by congruence.
    rewrite L5, <- L4, W5, L4, <- L3, W4 by congruence.
    rewrite L3, <- L2, W3 by congruence. rewrite L2, <- L1, W2 by congruence.
    rewrite L1, F1. rewrite !text_lit, text_lit_ref, !text_stamp.
    assert (Hd3 : m_dates m3 = m_dates m) by (rewrite D3, D2, D1; cbn [dates_in]; lia).
    assert (Hd5 : m_dates m5 = S (m_dates m)) by (rewrite D5, D4, Hd3; cbn [dates_in]; lia).
    rewrite Hd3, Hd5, V5, V4, V3, V2, R4, R3, R2, R1, S1, P1, V1.
    rewrite !app_assoc. reflexivity.
  - destruct Hrun as (R5 & T5).
    eexists m7, e1, e2, e3, _, e5, e6. split; [exact E7|]. split.
    { rewrite T7, T6, T5, T4, T3, T2, T1, <- !List.app_assoc. reflexivity. }
    repeat (split; [assumption|]). split; [reflexivity|].
    split; [congruence|]. split; discriminate.
Qed.

(** X10. [python3] is started in a turn of the loop exactly when the script
    is a file and the log file can be opened: a script that is missing
    is reported and passed over, and so is one whose output has nowhere
    to go. *)
Theorem python3_started_when_found_and_logged (m : machine) :
  exists events,
    m_trace (last_state (run_script w m)) = m_trace m ++ events
    /\ python3_runs events = (if script_found m && log_opens m then 1 else 0).
Proof.
  destruct (script_found m) eqn:Hf.
  - destruct (run_script_found m Hf)
      as (m' & e1 & e2 & e3 & p & e5 & e6 & -> & T & H1 & H2 & H3 & H5 & H6 & Hp & _).
    eexists. split; [exact T|]. unfold python3_runs. cbn [List.filter andb].
    rewrite H1, H2, H3, H5, H6, Hp. now destruct (log_opens m).
  - destruct (run_script_missing m Hf) as (m' & e & -> & T & He & _).
    eexists. split; [exact T|]. unfold python3_runs. cbn [List.filter andb].
    now rewrite He.
Qed.

(** X11. What a turn of the loop adds to the log file for a script that is
    there: the file's path, the banner, the line [Starting], then all
    that [python3] printed, the line [Finished] and the closing banner,
    the two lines with the output of one [date -u] call each. *)
Theorem script_output_is_logged (m : machine) :
  script_found m = true -> log_opens m = true ->
  contents (m_fs (last_state (run_script w m))) (log_target m)
  = contents (m_fs m) (log_target m)
    +:+ echo_e (w_wctomb w) ("Running python file: " +:+ script_path m)
    +:+ echo_e (w_wctomb w) script_banner
    +:+ echo_e (w_wctomb w)
          ("\n\n" +:+ w_date w true (m_dates m) +:+ " - Starting "
           +:+ expand "script" (m_vars m))
    +:+ fst (w_python3 w (m_runs m)
               (environ (fst (assign "script_path" (script_path m) (m_vars m))))
               (script_path m))
    +:+ echo_e (w_wctomb w)
          ("\n\n" +:+ w_date w true (S (m_dates m)) +:+ " - Finished "
           +:+ expand "script" (m_vars m))
    +:+ echo_e (w_wctomb w) end_banner.
Proof.
  intros Hf Ho.
  destruct (run_script_found m Hf)
    as (m' & e1 & e2 & e3 & p & e5 & e6 & -> & _ & _ & _ & _ & _ & _ & _ & _ & W & _).
  exact (W Ho).
Qed.

End Run.

Lemma script_output_is_logged_witness :
  contents (m_fs (last_state (run_script usual (before_main usual))))
           (log_target (before_main usual))
  = contents (m_fs (before_main usual)) (log_target (before_main usual))
    +:+ echo_e (w_wctomb usual) ("Running python file: " +:+ script_path (before_main usual))
    +:+ echo_e (w_wctomb usual) script_banner
    +:+ echo_e (w_wctomb usual)
          ("\n\n" +:+ w_date usual true (m_dates (before_main usual)) +:+ " - Starting "
           +:+ expand "script" (m_vars (before_main usual)))
    +:+ fst (w_python3 usual (m_runs (before_main usual))
               (environ (fst (assign "script_path" (script_path (before_main usual))
                                (m_vars (before_main usual)))))
               (script_path (before_main usual)))
    +:+ echo_e (w_wctomb usual)
          ("\n\n" +:+ w_date usual true (S (m_dates (before_main usual))) +:+ " - Finished "
           +:+ expand "script" (m_vars (before_main usual)))
    +:+ echo_e (w_wctomb usual) end_banner.
Proof.
  apply (script_output_is_logged usual (before_main usual)); vm_compute; reflexivity.
Defined.

End Turn.

(** ** [run_main.sh]: the variables after [.env], the exit code, a missing directory *)

Module Stages.
Import Text TextFacts Bash Shell ShellFacts RunMain EnvLoop Frame Checks Samples Effects Cases
  EnvFile Turn.

Local Open Scope list_scope.
Local Open Scope cmd_scope.
Local Arguments Ascii.eqb : simpl never.

Lemma log_file_spelled : code_dir +:+ "/run_main.log" = log_file.
Proof. reflexivity. Qed.

Lemma venv_file_spelled : code_dir +:+ "/venv/bin/activate" = venv_file.
Proof. reflexivity. Qed.

Lemma log_file_dirname : dirname log_file = code_dir.
Proof. vm_compute. reflexivity. Qed.

Local Opaque code_dir log_file venv_file env_file.

Section Run.
Variable w : world.

(** *** The variables, stage by stage *)

Lemma cd_goes (dir : list piece) (m : machine) :
  exists m',
    cd w dir m = Go m'
    /\ ((m_status m' = 0%Z
         /\ m_vars m' = moved_to (abs (m_cwd m) (text w dir m)) (m_vars m))
        \/ m_status m' = 1%Z).
Proof.
  unfold cd. destruct (_ && _); eexists; (split; [reflexivity|]); [left | right]; auto.
Qed.

Lemma complaint_halts (arg target : list piece) (m : machine) :
  exists m', (echo_to w arg target ;; exit_ 1) m = Halt 1 m'.
Proof.
  destruct (echo_goes w arg target m) as (m' & E & _).
  exists m'. now rewrite (seq_go _ _ _ _ E).
Qed.

Lemma enter_vars (m : machine) :
  enter_code_dir w (boot w) = Go m ->
  m_vars m
  = moved_to code_dir
      (fst (assign "CRON_LOG_FILE" log_file
        (fst (assign "CODE_DIR" code_dir (w_vars w))))).
Proof.
  unfold enter_code_dir.
  destruct (set_var_goes w "CODE_DIR" [Lit code_dir] (boot w)) as (m1 & E1 & V1 & _).
  rewrite (seq_go _ _ _ _ E1). clear E1.
  destruct (set_var_goes w "CRON_LOG_FILE" [Ref "CODE_DIR"; Lit "/run_main.log"] m1)
    as (m2 & E2 & V2 & _).
  rewrite (seq_go _ _ _ _ E2). clear E2.
  destruct (echo_goes w [Lit start_banner] log m2) as (m3 & E3 & V3 & _).
  rewrite (seq_go _ _ _ _ E3). clear E3.
  assert (Hvars : m_vars m3
                  = fst (assign "CRON_LOG_FILE" log_file
                      (fst (assign "CODE_DIR" code_dir (w_vars w))))).
  { rewrite V3, V2, text_ref_lit, V1, text_lit.
    rewrite expand_assign by apply readonly_CODE_DIR.
    now rewrite log_file_spelled. }
  assert (Hdir : abs (m_cwd m3) (text w [Ref "CODE_DIR"] m3) = code_dir).
  { rewrite text_ref, Hvars, expand_assign_ne by discriminate.
    rewrite expand_assign by apply readonly_CODE_DIR. apply code_dir_abs. }
  unfold ite. destruct (test_d w [Ref "CODE_DIR"] m3).
  - unfold or_else. destruct (cd_goes [Ref "CODE_DIR"] m3) as (m4 & E4 & V4).
    rewrite E4. destruct V4 as [(S4 & V4)|S4]; rewrite S4; cbn [Z.eqb].
    + intros H. inversion H; subst. now rewrite V4, Hdir, Hvars.
    + match goal with |- context [(echo_to w ?a ?t ;; exit_ 1) ?x] =>
        destruct (complaint_halts a t x) as (m5 & ->)
      end. discriminate.
  - match goal with |- context [(echo_to w ?a ?t ;; exit_ 1) ?x] =>
      destruct (complaint_halts a t x) as (m5 & ->)
    end. discriminate.
Qed.

Lemma lookup_contents (fs : filesys) (q text : string) :
  fs_files fs !! q = Some text -> contents fs q = text.
Proof. unfold contents. now intros ->. Qed.

Lemma activate_vars (m m' : machine) :
  home w m -> activate_venv w m = Go m' ->
  m_vars m'
  = w_source w (contents (w_fs w) venv_file)
      (fst (assign "PYTHON_VENV" venv_file (m_vars m))).
Proof.
  intros (Hcode & Hlog & Hcwd & Hlike). unfold activate_venv.
  destruct (echo_log w [Lit "\n\n"; Date false; Lit " - Starting run_main.sh"] m Hlog)
    as (m1 & E1 & (V1 & C1 & F1) & _).
  rewrite (seq_go _ _ _ _ E1). clear E1.
  destruct (set_var_goes w "PYTHON_VENV" [Ref "CODE_DIR"; Lit "/venv/bin/activate"] m1)
    as (m2 & E2 & V2 & C2 & F2).
  rewrite (seq_go _ _ _ _ E2). clear E2.
  rewrite text_ref_lit, V1, Hcode, venv_file_spelled in V2.
  assert (Hvenv : expand "PYTHON_VENV" (m_vars m2) = venv_file).
  { rewrite V2. apply expand_assign, readonly_PYTHON_VENV. }
  assert (Hlog2 : expand "CRON_LOG_FILE" (m_vars m2) = log_file).
  { rewrite V2, expand_assign_ne by discriminate. exact Hlog. }
  unfold ite, test_f. rewrite text_ref, Hvenv, venv_file_abs, venv_file_named.
  cbn [negb andb].
  destruct (is_file (m_fs m2) venv_file) eqn:Hfile.
  - destruct (echo_log w [Lit "\n\nActivating virtual environment: "; Ref "PYTHON_VENV"]
                m2 Hlog2) as (m3 & E3 & (V3 & C3 & F3) & _).
    rewrite (seq_go _ _ _ _ E3). clear E3.
    unfold source. rewrite text_ref, V3, Hvenv.
    cbn [expanded with_dates m_cwd m_fs m_vars]. rewrite venv_file_abs.
    assert (Hsame : fs_files (m_fs m3) !! venv_file = fs_files (w_fs w) !! venv_file).
    { rewrite F3, F2, F1 by apply venv_not_log. apply Hlike, venv_not_log. }
    unfold is_file in Hfile. apply bool_decide_eq_true in Hfile as [text Htext].
    rewrite <- F3, Hsame in Htext by apply venv_not_log.
    rewrite Hsame, Htext. intros H. inversion H; subst.
    cbn [logged with_vars m_vars fst]. rewrite V3.
    now rewrite (lookup_contents _ _ _ Htext), V2.
  - match goal with |- context [(echo_to w ?a ?t ;; exit_ 1) ?x] =>
      destruct (complaint_halts a t x) as (m5 & ->)
    end. discriminate.
Qed.

(** With the three checks passed, what is left of lines 4 to 44 is
    the loop over [.env], started with the variables of
    [activated_vars]. *)
Lemma prepare_as_loop :
  checks_pass w = true ->
  exists m,
    prepare w (boot w) = load_env w [Lit ".env"] m
    /\ m_vars m = activated_vars w
    /\ settled w m
    /\ abs (m_cwd m) (text w [Lit ".env"] m) = env_file.
Proof.
  intros Hpass. unfold prepare.
  pose proof (enter_code_dir_spec w) as H1.
  destruct (enter_code_dir w (boot w)) as [m1|z m1] eqn:E1.
  2:{ destruct H1 as (_ & Hd & _). unfold checks_pass in Hpass. rewrite Hd in Hpass.
      discriminate Hpass. }
  destruct H1 as (_ & Hhome & Hq1). rewrite (seq_go _ _ _ _ E1).
  pose proof (activate_venv_spec w m1 Hhome Hq1) as H2.
  destruct (activate_venv w m1) as [m2|z m2] eqn:E2.
  2:{ destruct H2 as (_ & Hv & _). unfold checks_pass in Hpass. rewrite Hv in Hpass.
      rewrite andb_false_r in Hpass. discriminate Hpass. }
  destruct H2 as (_ & Hset & _). rewrite (seq_go _ _ _ _ E2).
  exists m2. destruct Hset as (Hcwd & Hlike).
  assert (Habs : abs (m_cwd m2) (text w [Lit ".env"] m2) = env_file)
    by now rewrite text_lit, Hcwd, env_file_abs.
  split; [|split; [|split; [split; assumption | exact Habs]]].
  - unfold load_dotenv, ite, test_f. fold (text w [Lit ".env"] m2). rewrite Habs.
    rewrite text_lit. cbn [is_empty negb andb].
    rewrite (is_file_like w m2 _ Hlike env_not_log).
    unfold checks_pass in Hpass. apply andb_prop in Hpass as [_ He].
    unfold env_ok in He. now rewrite He.
  - rewrite (activate_vars m1 m2 Hhome E2), (enter_vars m1 E1). reflexivity.
Qed.

Lemma settled_file (m : machine) (q : string) :
  settled w m -> q <> log_file ->
  fs_files (m_fs m) !! q = fs_files (w_fs w) !! q
  /\ allowed (m_fs m) q = allowed (w_fs w) q.
Proof.
  intros (_ & _ & Hp & Hf) Hq. split; [now apply Hf|]. unfold allowed. now rewrite Hp.
Qed.

Lemma env_file_there :
  checks_pass w = true ->
  fs_files (w_fs w) !! env_file = Some (contents (w_fs w) env_file).
Proof.
  intros Hpass. unfold checks_pass in Hpass. apply andb_prop in Hpass as [_ He].
  unfold env_ok, is_file in He. apply bool_decide_eq_true in He as [text Htext].
  now rewrite (lookup_contents _ _ _ Htext).
Qed.

Lemma prepare_vars (m : machine) :
  prepare w (boot w) = Go m ->
  m_vars m
  = if allowed (w_fs w) env_file
    then dotenv_effect (contents (w_fs w) env_file) (activated_vars w)
    else activated_vars w.
Proof.
  intros E.
  assert (Hpass : checks_pass w = true).
  { pose proof (prepare_spec w) as Hp. rewrite E in Hp. apply Hp. }
  destruct (prepare_as_loop Hpass) as (m0 & E0 & V0 & Hset & Habs).
  rewrite E in E0. symmetry in E0.
  destruct (settled_file m0 env_file Hset env_not_log) as [Hf Ha].
  rewrite <- V0. destruct (allowed (w_fs w) env_file) eqn:Hallow.
  - apply (load_env_went w [Lit ".env"] m0 m); [|now rewrite Habs, Ha | exact E0].
    rewrite Habs, Hf. now apply env_file_there.
  - destruct (load_env_denied w [Lit ".env"] m0) as (m1 & E1 & V1 & _).
    + right. now rewrite Habs, Ha.
    + congruence.
Qed.

Lemma default_lines :
  stays_default w = true ->
  posix (activated_vars w) = false
  /\ Forall (fun l => assigns "POSIXLY_CORRECT" l = false)
       (fst (lines_of (contents (w_fs w) env_file))).
Proof.
  unfold stays_default. intros H. apply andb_prop in H as [Hp Hl].
  apply negb_true_iff in Hp. split; [exact Hp|].
  rewrite forallb_forall in Hl. apply List.Forall_forall. intros l Hin.
  apply negb_true_iff. now apply Hl.
Qed.

(** The loop comes to its end when [.env] may not be read, and when
    bash is not in POSIX mode and no line puts it there. *)
Lemma prepare_goes :
  checks_pass w = true ->
  allowed (w_fs w) env_file = false \/ stays_default w = true ->
  exists m, prepare w (boot w) = Go m.
Proof.
  intros Hpass H.
  destruct (prepare_as_loop Hpass) as (m0 & E0 & V0 & Hset & Habs).
  destruct (settled_file m0 env_file Hset env_not_log) as [Hf Ha].
  rewrite E0. destruct (allowed (w_fs w) env_file) eqn:Hallow.
  - destruct H as [H|H]; [discriminate|]. destruct (default_lines H) as [Hp Hl].
    destruct (load_env_effect w [Lit ".env"] m0 (contents (w_fs w) env_file))
      as (m1 & E1 & _).
    + rewrite Habs, Hf. now apply env_file_there.
    + now rewrite Habs, Ha.
    + rewrite E1, V0.
      rewrite (lines_effect_default _ _ _ Hp (unassigned_all _ _ Hl)). eauto.
  - destruct (load_env_denied w [Lit ".env"] m0) as (m1 & E1 & _).
    + right. now rewrite Habs, Ha.
    + eauto.
Qed.

(** X5. Outside POSIX mode and with a [.env] that may be read, the
    variables that the scripts are run with, those that bash computes
    apart: the variables the shell started with, then the three
    assignments of the script and the two of [cd], then what the
    activation script does, then the lines of [.env] in their order. *)
Theorem variables_after_dotenv :
  checks_pass w = true -> allowed (w_fs w) env_file = true -> stays_default w = true ->
  forall name, is_computed name = false ->
    vars_after_env w !! name
    = dotenv_effect (contents (w_fs w) env_file)
        (w_source w (contents (w_fs w) venv_file) (base_vars w)) !! name.
Proof.
  intros Hpass Ha Hd name _.
  destruct (prepare_goes Hpass (or_intror Hd)) as (m1 & E1).
  unfold vars_after_env. rewrite E1. cbn [last_state].
  now rewrite (prepare_vars m1 E1), Ha.
Qed.


(** X8. [python3] is started only when the code directory could be
    entered and the activation script and [.env] are files. *)
Theorem python3_needs_the_three_checks :
  0 < python3_runs (m_trace (last_state (run_main w))) ->
  dir_ok w = true /\ venv_ok w = true /\ env_ok w = true.
Proof.
  intros Hruns. destruct (checks_pass w) eqn:Hpass.
  - unfold checks_pass in Hpass.
    apply andb_prop in Hpass as [Hpass He]. apply andb_prop in Hpass as [Hd Hv]. auto.
  - exfalso. destruct (run_main_failing w Hpass) as (m & E & Erun & _).
    rewrite Erun in Hruns. cbn [last_state] in Hruns.
    pose proof (bounded_prepare w (boot w)) as (_ & _ & events & Ht & Hn).
    rewrite E in Ht. cbn [last_state boot m_trace] in Ht.
    rewrite Ht in Hruns. simpl in Hruns. lia.
Qed.

(** *** The code directory is missing *)

Lemma echo_denied (arg : list piece) (m : machine) :
  expand "CRON_LOG_FILE" (m_vars m) = log_file ->
  can_append (m_fs m) log_file = false ->
  exists m',
    echo_to w arg log m = Go m'
    /\ m_vars m' = m_vars m /\ m_fs m' = m_fs m /\ m_cwd m' = m_cwd m
    /\ m_trace m' = m_trace m ++ [Denied log_file].
Proof.
  intros Hlog Hcan. unfold echo_to, log. rewrite text_ref.
  cbn [expanded with_dates m_vars m_cwd m_fs].
  rewrite Hlog, log_file_abs, Hcan, andb_false_r.
  eexists. split; [reflexivity|]. repeat split.
Qed.

(** X9. With the code directory missing the log file, which lies in it,
    cannot be opened: the wrapper exits with 1 and has written nothing,
    not even that the directory does not exist. *)
Theorem missing_directory_is_not_logged :
  is_dir (w_fs w) code_dir = false -> is_file (w_fs w) log_file = false ->
  exists m,
    run_main w = Halt 1 m /\ m_fs m = w_fs w
    /\ m_trace m = [Denied log_file; Denied log_file].
Proof.
  intros Hdir Hfile.
  assert (Hcan : can_append (w_fs w) log_file = false).
  { unfold can_append. rewrite Hfile, log_file_dirname, Hdir. cbn [orb andb].
    apply andb_false_r. }
  assert (Henter : exists m, enter_code_dir w (boot w) = Halt 1 m /\ m_fs m = w_fs w
                             /\ m_trace m = [Denied log_file; Denied log_file]).
  { unfold enter_code_dir.
    destruct (set_var_goes w "CODE_DIR" [Lit code_dir] (boot w)) as (m1 & E1 & V1 & C1 & F1).
    pose proof (set_var_trace w _ _ _ _ E1) as T1.
    rewrite (seq_go _ _ _ _ E1). clear E1.
    destruct (set_var_goes w "CRON_LOG_FILE" [Ref "CODE_DIR"; Lit "/run_main.log"] m1)
      as (m2 & E2 & V2 & C2 & F2).
    pose proof (set_var_trace w _ _ _ _ E2) as T2.
    rewrite (seq_go _ _ _ _ E2). clear E2.
    assert (Hcode : expand "CODE_DIR" (m_vars m2) = code_dir).
    { rewrite V2, expand_assign_ne by discriminate.
      rewrite V1, text_lit. apply expand_assign, readonly_CODE_DIR. }
    assert (Hlog : expand "CRON_LOG_FILE" (m_vars m2) = log_file).
    { rewrite V2, expand_assign by apply readonly_CRON_LOG_FILE.
      rewrite text_ref_lit, V1, text_lit, expand_assign by apply readonly_CODE_DIR.
      apply log_file_spelled. }
    assert (Hcan2 : can_append (m_fs m2) log_file = false) by now rewrite F2, F1.
    destruct (echo_denied [Lit start_banner] m2 Hlog Hcan2) as (m3 & E3 & V3 & F3 & C3 & T3).
    rewrite (seq_go _ _ _ _ E3). clear E3.
    assert (Htest : test_d w [Ref "CODE_DIR"] m3 = false).
    { unfold test_d. rewrite text_ref, V3, Hcode, code_dir_abs, code_dir_named.
      now rewrite F3, F2, F1. }
    assert (Hlog3 : expand "CRON_LOG_FILE" (m_vars m3) = log_file) by now rewrite V3.
    assert (Hcan3 : can_append (m_fs m3) log_file = false) by now rewrite F3.
    destruct (echo_denied [Lit "Directory "; Ref "CODE_DIR"; Lit " does not exist!"]
                m3 Hlog3 Hcan3) as (m4 & E4 & V4 & F4 & C4 & T4).
    unfold ite. rewrite Htest, (seq_go _ _ _ _ E4).
    exists m4. split; [reflexivity|]. split.
    - now rewrite F4, F3, F2, F1.
    - rewrite T4, T3, T2, T1. reflexivity. }
  destruct Henter as (m & E & F & T). exists m. split; [|split; assumption].
  unfold run_main, script, prepare.
  apply seq_halt, seq_halt. exact E.
Qed.

End Run.

Lemma variables_after_dotenv_witness :
  vars_after_env usual !! "CLIENT_ID"
  = dotenv_effect (contents (w_fs usual) env_file)
      (w_source usual (contents (w_fs usual) venv_file) (base_vars usual)) !! "CLIENT_ID".
Proof. apply (variables_after_dotenv usual); vm_compute; reflexivity. Defined.


Lemma python3_needs_the_three_checks_witness :
  dir_ok usual = true /\ venv_ok usual = true /\ env_ok usual = true.
Proof. apply (python3_needs_the_three_checks usual). vm_compute. lia. Defined.

Lemma missing_directory_is_not_logged_witness :
  exists m,
    run_main no_directory = Halt 1 m /\ m_fs m = w_fs no_directory
    /\ m_trace m = [Denied log_file; Denied log_file].
Proof. apply (missing_directory_is_not_logged no_directory); vm_compute; reflexivity. Defined.

End Stages.

(** ** [run_main.sh]: the log of a run that stops at the activation script *)

Module Stops.
Import Text TextFacts Bash Shell ShellFacts RunMain EnvLoop Frame Checks Samples Effects Cases
  EnvFile Turn Stages.

Local Open Scope list_scope.
Local Open Scope cmd_scope.
Local Arguments Ascii.eqb : simpl never.
Local Opaque code_dir log_file venv_file env_file.

Section Run.
Variable w : world.

(** An [echo] into the log file that can be opened. *)
Lemma echo_written (arg : list piece) (m : machine) :
  expand "CRON_LOG_FILE" (m_vars m) = log_file ->
  can_append (m_fs m) log_file = true ->
  exists m',
    echo_to w arg log m = Go m'
    /\ m_vars m' = m_vars m /\ m_cwd m' = m_cwd m
    /\ m_dates m' = m_dates m + dates_in arg
    /\ fs_dirs (m_fs m') = fs_dirs (m_fs m) /\ fs_noperm (m_fs m') = fs_noperm (m_fs m)
    /\ (forall q, q <> log_file -> fs_files (m_fs m') !! q = fs_files (m_fs m) !! q)
    /\ can_append (m_fs m') log_file = true
    /\ contents (m_fs m') log_file
       = contents (m_fs m) log_file +:+ echo_e (w_wctomb w) (text w arg m)
    /\ m_trace m' = m_trace m ++ [Echo log_file (text w arg m)].
Proof.
  intros Hlog Hcan. unfold echo_to, log. rewrite text_ref.
  cbn [expanded with_dates m_vars m_cwd m_fs].
  rewrite Hlog, log_file_abs, log_file_named, Hcan. cbn [negb andb].
  eexists. split; [reflexivity|].
  cbn [logged wrote expanded with_dates m_vars m_cwd m_dates m_trace m_fs dates_in
       append_file fs_dirs fs_noperm fs_files].
  split; [reflexivity|]. split; [reflexivity|]. split; [lia|].
  split; [reflexivity|]. split; [reflexivity|]. split.
  { intros q Hq. now rewrite lookup_insert_ne by congruence. }
  split; [exact (can_append_after _ _ _ _ Hcan)|]. split; [|reflexivity].
  pose proof (contents_append log_file log_file (echo_e (w_wctomb w) (text w arg m)) (m_fs m)) as H.
  destruct (decide (log_file = log_file)); [exact H | congruence].
Qed.

(** X20. With the activation script missing, and the log file one
    that can be opened, the wrapper exits with 1 and what it has added
    to the log file is the start banner, the start marker with the
    output of the first [date] call, and the complaint that names the
    path looked for; nothing else was written. *)
Theorem missing_activation_script_is_logged :
  dir_ok w = true -> venv_ok w = false -> can_append (w_fs w) log_file = true ->
  exists m,
    run_main w = Halt 1 m
    /\ m_trace m
       = [Echo log_file start_banner;
          Echo log_file (start_marker (w_date w false 0));
          Echo log_file ("\n\nVirtual environment activation script not found at "
                         +:+ venv_file +:+ "!")]
    /\ contents (m_fs m) log_file
       = contents (w_fs w) log_file
         +:+ echo_e (w_wctomb w) start_banner
         +:+ echo_e (w_wctomb w) (start_marker (w_date w false 0))
         +:+ echo_e (w_wctomb w)
               ("\n\nVirtual environment activation script not found at "
                +:+ venv_file +:+ "!").
Proof.
  intros Hdir Hvenv Hcan. unfold dir_ok in Hdir. apply andb_prop in Hdir as [Hd Ha].
  assert (Henter : exists m,
             enter_code_dir w (boot w) = Go m
             /\ expand "CODE_DIR" (m_vars m) = code_dir
             /\ expand "CRON_LOG_FILE" (m_vars m) = log_file
             /\ m_dates m = 0
             /\ (forall q, q <> log_file -> fs_files (m_fs m) !! q = fs_files (w_fs w) !! q)
             /\ can_append (m_fs m) log_file = true
             /\ contents (m_fs m) log_file
                = contents (w_fs w) log_file +:+ echo_e (w_wctomb w) start_banner
             /\ m_trace m = [Echo log_file start_banner]).
  { unfold enter_code_dir.
    destruct (set_var_goes w "CODE_DIR" [Lit code_dir] (boot w)) as (m1 & E1 & V1 & C1 & F1).
    pose proof (set_var_trace w _ _ _ _ E1) as T1.
    assert (D1 : m_dates m1 = 0) by (inversion E1; reflexivity).
    rewrite (seq_go _ _ _ _ E1). clear E1.
    destruct (set_var_goes w "CRON_LOG_FILE" [Ref "CODE_DIR"; Lit "/run_main.log"] m1)
      as (m2 & E2 & V2 & C2 & F2).
    pose proof (set_var_trace w _ _ _ _ E2) as T2.
    assert (D2 : m_dates m2 = m_dates m1) by (inversion E2; cbn; lia).
    rewrite (seq_go _ _ _ _ E2). clear E2.
    assert (Hcode : expand "CODE_DIR" (m_vars m2) = code_dir).
    { rewrite V2, expand_assign_ne by discriminate.
      rewrite V1, text_lit. apply expand_assign, readonly_CODE_DIR. }
    assert (Hlog : expand "CRON_LOG_FILE" (m_vars m2) = log_file).
    { rewrite V2, expand_assign by apply readonly_CRON_LOG_FILE.
      rewrite text_ref_lit, V1, text_lit, expand_assign by apply readonly_CODE_DIR.
      apply log_file_spelled. }
    assert (Hcan2 : can_append (m_fs m2) log_file = true) by now rewrite F2, F1.
    destruct (echo_written [Lit start_banner] m2 Hlog Hcan2)
      as (m3 & E3 & V3 & C3 & D3 & Fd3 & Fp3 & Ff3 & Hcan3 & W3 & T3).
    rewrite (seq_go _ _ _ _ E3). clear E3.
    assert (Htest : test_d w [Ref "CODE_DIR"] m3 = true).
    { unfold test_d. rewrite text_ref, V3, Hcode, code_dir_abs, code_dir_named.
      unfold is_dir in *. now rewrite Fd3, F2, F1. }
    unfold ite. rewrite Htest. unfold or_else, cd.
    rewrite text_ref, V3, Hcode, code_dir_named.
    cbn [expanded with_dates m_cwd m_fs negb andb]. rewrite code_dir_abs.
    replace (is_dir (m_fs m3) code_dir) with true
      by (unfold is_dir in *; now rewrite Fd3, F2, F1).
    replace (allowed (m_fs m3) code_dir) with true
      by (unfold allowed in *; now rewrite Fp3, F2, F1).
    cbn [andb with_cwd with_vars m_status Z.eqb snd].
    eexists. split; [reflexivity|].
    cbn [with_cwd with_vars expanded with_dates m_vars m_dates m_fs m_trace dates_in fst].
    rewrite !expand_moved_to_ne by discriminate.
    split; [now rewrite V3|]. split; [now rewrite V3|].
    split; [rewrite D3, D2, D1; reflexivity|].
    split; [intros q Hq; now rewrite Ff3, F2, F1|].
    split; [exact Hcan3|].
    split; [now rewrite W3, text_lit, F2, F1|].
    now rewrite T3, T2, T1, text_lit. }
  destruct Henter as (m & E & Hcode & Hlog & D & Ff & Hcan' & W & T).
  assert (Hact : exists m',
             activate_venv w m = Halt 1 m'
             /\ m_trace m'
                = m_trace m
                  ++ [Echo log_file (start_marker (w_date w false 0));
                      Echo log_file ("\n\nVirtual environment activation script not found at "
                                     +:+ venv_file +:+ "!")]
             /\ contents (m_fs m') log_file
                = contents (m_fs m) log_file
                  +:+ echo_e (w_wctomb w) (start_marker (w_date w false 0))
                  +:+ echo_e (w_wctomb w)
                        ("\n\nVirtual environment activation script not found at "
                         +:+ venv_file +:+ "!")).
  { unfold activate_venv.
    destruct (echo_written [Lit "\n\n"; Date false; Lit " - Starting run_main.sh"] m Hlog Hcan')
      as (m1 & E1 & V1 & C1 & D1 & Fd1 & Fp1 & Ff1 & Hcan1 & W1 & T1).
    rewrite text_start, D in W1, T1.
    rewrite (seq_go _ _ _ _ E1). clear E1.
    destruct (set_var_goes w "PYTHON_VENV" [Ref "CODE_DIR"; Lit "/venv/bin/activate"] m1)
      as (m2 & E2 & V2 & C2 & F2).
    pose proof (set_var_trace w _ _ _ _ E2) as T2.
    rewrite (seq_go _ _ _ _ E2). clear E2.
    rewrite text_ref_lit, V1, Hcode, venv_file_spelled in V2.
    assert (Hvenv2 : expand "PYTHON_VENV" (m_vars m2) = venv_file).
    { rewrite V2. apply expand_assign, readonly_PYTHON_VENV. }
    assert (Hlog2 : expand "CRON_LOG_FILE" (m_vars m2) = log_file).
    { rewrite V2, expand_assign_ne by discriminate. exact Hlog. }
    assert (Htest : test_f w [Ref "PYTHON_VENV"] m2 = false).
    { unfold test_f. rewrite text_ref, Hvenv2, venv_file_abs, venv_file_named.
      cbn [negb andb]. unfold venv_ok, is_file in *.
      now rewrite F2, Ff1, Ff by apply venv_not_log. }
    unfold ite. rewrite Htest.
    assert (Hcan2 : can_append (m_fs m2) log_file = true) by now rewrite F2.
    match goal with |- context [(echo_to w ?a ?t ;; exit_ 1) m2] =>
      destruct (echo_written a m2 Hlog2 Hcan2)
        as (m3 & E3 & V3 & C3 & D3 & Fd3 & Fp3 & Ff3 & Hcan3 & W3 & T3)
    end.
    rewrite text_lit_ref_lit, Hvenv2 in W3, T3.
    rewrite (seq_go _ _ _ _ E3).
    exists m3. split; [reflexivity|]. split.
    - rewrite T3, T2, T1, <- List.app_assoc. reflexivity.
    - rewrite W3, F2, W1, app_assoc. reflexivity. }
  destruct Hact as (m' & E' & T' & W').
  exists m'. split; [|split].
  - unfold run_main, script, prepare. apply seq_halt.
    rewrite (seq_go _ _ _ _ E). now apply seq_halt.
  - rewrite T', T. reflexivity.
  - rewrite W', W, !app_assoc. reflexivity.
Qed.

End Run.

Lemma missing_activation_script_is_logged_witness :
  exists m,
    run_main no_venv = Halt 1 m
    /\ m_trace m
       = [Echo log_file start_banner;
          Echo log_file (start_marker (w_date no_venv false 0));
          Echo log_file ("\n\nVirtual environment activation script not found at "
                         +:+ venv_file +:+ "!")]
    /\ contents (m_fs m) log_file
       = contents (w_fs no_venv) log_file
         +:+ echo_e (w_wctomb no_venv) start_banner
         +:+ echo_e (w_wctomb no_venv) (start_marker (w_date no_venv false 0))
         +:+ echo_e (w_wctomb no_venv)
               ("\n\nVirtual environment activation script not found at "
                +:+ venv_file +:+ "!").
Proof. apply (missing_activation_script_is_logged no_venv); vm_compute; reflexivity. Defined.

End Stops.

(** ** [run_main.sh]: which files a run writes *)

Module LogOnly.
Import Text TextFacts Bash Shell ShellFacts RunMain EnvLoop Frame Checks Samples Effects Cases
  EnvFile Turn Stages.

Local Open Scope list_scope.
Local Open Scope cmd_scope.
Local Arguments Ascii.eqb : simpl never.
Local Opaque code_dir log_file venv_file env_file.

Section Run.
Variable w : world.

Local Abbreviation tame := (Effects.tame w).
Local Abbreviation keeps := (Effects.keeps w).

Lemma keeps_seq (c1 c2 : cmd) : keeps c1 -> keeps c2 -> keeps (c1 ;; c2).
Proof.
  intros H1 H2 m Hm. destruct (H1 m Hm) as (m1 & E1 & Hm1).
  rewrite (seq_go _ _ _ _ E1). now apply H2.
Qed.

Lemma keeps_ite (test : machine -> bool) (c1 c2 : cmd) :
  keeps c1 -> keeps c2 -> keeps (ite test c1 c2).
Proof. intros H1 H2 m Hm. unfold ite. destruct (test m); auto. Qed.

Lemma keeps_echo (arg : list piece) : keeps (echo_to w arg log).
Proof.
  intros m (Hlog & Hlike).
  pose proof (bounded_echo w arg log m) as Hb.
  destruct (echo_log w arg m Hlog) as (m' & E & Hcalm & _).
  rewrite E in Hb. exists m'. split; [exact E|]. split.
  - now rewrite (proj1 Hcalm).
  - apply (like_calm w m); [apply Hb | exact Hcalm | exact Hlike].
Qed.

Lemma keeps_python3 (script : list piece) : keeps (python3_to w script log).
Proof.
  intros m (Hlog & Hd & Hp & Hf). unfold python3_to, log. rewrite text_ref.
  cbn [expanded with_dates m_vars m_cwd m_fs m_runs].
  rewrite Hlog, log_file_abs.
  destruct (_ && _).
  - destruct (w_python3 w _ _ _) as [out z].
    eexists. split; [reflexivity|]. split; [exact Hlog|].
    split; [exact Hd|]. split; [exact Hp|].
    intros q Hq. cbn [logged ran wrote append_file m_fs fs_files].
    rewrite lookup_insert_ne by congruence. now apply Hf.
  - eexists. split; [reflexivity|]. split; [exact Hlog|].
    split; [exact Hd|]. split; [exact Hp|]. exact Hf.
Qed.

Lemma keeps_set_var (name : string) (v : list piece) :
  name <> "CRON_LOG_FILE" -> keeps (set_var w name v).
Proof.
  intros Hne m (Hlog & Hlike). eexists. split; [reflexivity|]. split.
  - cbn [with_vars m_vars]. now rewrite expand_assign_ne.
  - exact Hlike.
Qed.

Lemma keeps_for_each (name : string) (items : list string) (body : cmd) :
  name <> "CRON_LOG_FILE" -> keeps body -> keeps (for_each w name items body).
Proof.
  intros Hne Hb. induction items as [|x r IH]; [intros m Hm; exists m; now split|].
  change (for_each w name (x :: r) body)
    with (set_var w name [Lit x] ;; body ;; for_each w name r body).
  apply keeps_seq; [now apply keeps_set_var|]. now apply keeps_seq.
Qed.

Lemma keeps_run_script : keeps (run_script w).
Proof.
  unfold run_script. apply keeps_seq; [now apply keeps_set_var|].
  apply keeps_ite;
    repeat (apply keeps_seq; [first [apply keeps_echo | apply keeps_python3]|]);
    apply keeps_echo.
Qed.

Lemma keeps_run_scripts : keeps (run_scripts w).
Proof.
  unfold run_scripts. apply keeps_seq; [|apply keeps_seq].
  - intros m (Hlog & Hlike). eexists. split; [reflexivity|]. split; [|exact Hlike].
    cbn [with_vars m_vars]. unfold expand. now rewrite lookup_declare_ne.
  - intros m (Hlog & Hlike). eexists. split; [reflexivity|]. split; [|exact Hlike].
    cbn [with_vars m_vars]. unfold expand. now rewrite lookup_append_ne.
  - intros m Hm. unfold for_in.
    apply keeps_for_each; [discriminate | apply keeps_run_script | exact Hm].
Qed.

Lemma keeps_finish : keeps (finish w).
Proof. unfold finish. apply keeps_seq; apply keeps_echo. Qed.

(** The stages up to the loading of [.env], whether the loop comes to
    its end or not. *)
Lemma prepare_tame :
  checks_pass w = true ->
  expand "CRON_LOG_FILE" (activated_vars w) = log_file ->
  Forall (fun l => assigns "CRON_LOG_FILE" l = false)
         (fst (lines_of (contents (w_fs w) env_file))) ->
  tame (last_state (prepare w (boot w))).
Proof.
  intros Hpass Hsrc Henv.
  destruct (prepare_as_loop w Hpass) as (m0 & E0 & V0 & Hset & Habs).
  destruct (settled_file w m0 env_file Hset env_not_log) as [Hf Ha].
  destruct (load_env_spec w [Lit ".env"] m0) as (_ & F & _).
  rewrite E0.
  assert (Hl : m_vars (last_state (load_env w [Lit ".env"] m0)) !! "CRON_LOG_FILE"
               = m_vars m0 !! "CRON_LOG_FILE").
  { destruct (allowed (w_fs w) env_file) eqn:Hallow.
    - rewrite (load_env_last w [Lit ".env"] m0 (contents (w_fs w) env_file));
        try discriminate.
      + apply lines_effect_frame; [discriminate..|]. now apply unassigned_all.
      + rewrite Habs, Hf. now apply env_file_there.
      + now rewrite Habs, Ha.
    - destruct (load_env_denied w [Lit ".env"] m0) as (m1 & -> & V1 & _).
      + right. now rewrite Habs, Ha.
      + cbn [last_state]. now rewrite V1. }
  split.
  - unfold expand. rewrite Hl, V0. exact Hsrc.
  - destruct Hset as (_ & Hlike). unfold Effects.tame, RunMain.like in *. now rewrite F.
Qed.

(** X12. When neither the activation script nor a line of [.env] gives
    [CRON_LOG_FILE] another value, a run that passes the three checks
    writes to the log file and to no other file, wherever it ends. *)
Theorem only_the_log_file_is_written :
  checks_pass w = true ->
  expand "CRON_LOG_FILE" (w_source w (contents (w_fs w) venv_file) (base_vars w)) = log_file ->
  Forall (fun l => assigns "CRON_LOG_FILE" l = false)
         (fst (lines_of (contents (w_fs w) env_file))) ->
  expand "CRON_LOG_FILE" (m_vars (last_state (run_main w))) = log_file
  /\ (forall q, q <> log_file ->
        fs_files (m_fs (last_state (run_main w))) !! q = fs_files (w_fs w) !! q).
Proof.
  intros Hpass Hsrc Henv.
  pose proof (prepare_tame Hpass Hsrc Henv) as H1.
  destruct (prepare w (boot w)) as [m1|z m1] eqn:E1; cbn [last_state] in H1.
  - destruct (run_main_going w m1 E1) as (m2 & m3 & E2 & E3 & Erun & _).
    destruct (keeps_run_scripts m1 H1) as (m2' & E2' & H2).
    assert (m2' = m2) by congruence. subst m2'.
    destruct (keeps_finish m2 H2) as (m3' & E3' & Hlog3 & _ & _ & Hf3).
    assert (m3' = m3) by congruence. subst m3'.
    rewrite Erun. cbn [last_state]. split; [exact Hlog3 | exact Hf3].
  - rewrite (run_main_stopped w _ _ E1). cbn [last_state].
    destruct H1 as (Hlog & _ & _ & Hf). split; [exact Hlog | exact Hf].
Qed.

End Run.

Lemma only_the_log_file_is_written_witness :
  expand "CRON_LOG_FILE" (m_vars (last_state (run_main usual))) = log_file
  /\ (forall q, q <> log_file ->
        fs_files (m_fs (last_state (run_main usual))) !! q = fs_files (w_fs usual) !! q).
Proof.
  apply (only_the_log_file_is_written usual).
  - vm_compute. reflexivity.
  - vm_compute. reflexivity.
  - vm_compute. repeat constructor.
Defined.

End LogOnly.

(** ** [run_main.sh]: how often [main.py] is run *)

Module Scripts.
Import Text TextFacts Bash Shell ShellFacts RunMain EnvLoop Frame Checks Samples Effects Cases
  EnvFile Turn Stages.

Local Open Scope list_scope.
Local Open Scope cmd_scope.
Local Arguments Ascii.eqb : simpl never.

Lemma main_py_not_log (cwd dir : string) : abs cwd (dir +:+ "/main.py") <> log_file.
Proof.
  intros H.
  assert (Hy : ends_with "y" (abs cwd (dir +:+ "/main.py")) = true).
  { unfold abs. destruct (starts_with "/" (dir +:+ "/main.py")).
    - rewrite ends_with_app; reflexivity.
    - rewrite !ends_with_app; try reflexivity; destruct dir; reflexivity. }
  rewrite H in Hy. vm_compute in Hy. discriminate Hy.
Qed.

Local Opaque code_dir log_file venv_file env_file.

Section Run.
Variable w : world.

Lemma seq_skip (c : cmd) (m : machine) : (c ;; skip) m = c m.
Proof. unfold seq, skip. now destruct (c m). Qed.

(** Lines 47 to 54 when no list of scripts is there yet: one turn of
    the loop, for [main.py]. *)
Lemma run_scripts_single (m : machine) :
  m_vars m !! "scripts_to_run" = None ->
  exists mA,
    run_scripts w m = run_script w mA
    /\ m_fs mA = m_fs m /\ m_cwd mA = m_cwd m /\ m_trace mA = m_trace m
    /\ expand "script" (m_vars mA) = "main.py"
    /\ expand "CODE_DIR" (m_vars mA) = expand "CODE_DIR" (m_vars m)
    /\ expand "CRON_LOG_FILE" (m_vars mA) = expand "CRON_LOG_FILE" (m_vars m)
    /\ forall name,
         name <> "script" -> name <> "scripts" -> name <> "scripts_to_run" ->
         m_vars mA !! name = m_vars m !! name.
Proof.
  intros Hnone. unfold run_scripts, seq at 1 2, declare_A, append_to, for_in.
  cbn [with_vars with_status m_vars].
  set (st1 := fst (declare_assoc "scripts" [("main.py", "main.log")] (m_vars m))).
  assert (H1 : st1 !! "scripts_to_run" = None).
  { subst st1. now rewrite lookup_declare_ne. }
  assert (Happ : append_items "scripts_to_run" ["main.py"] st1
                 = (<["scripts_to_run" := Var (Indexed ["main.py"]) false]> st1, 0%Z)).
  { unfold append_items. now rewrite H1. }
  rewrite Happ. cbn [fst snd].
  unfold elements. rewrite lookup_insert_eq.
  cbn [for_each].
  match goal with |- context [(set_var w ?n ?v ;; ?rest) ?m0] =>
    change ((set_var w n v ;; rest) m0)
      with (rest (with_vars (expanded v m0) (assign n (text w v m0) (m_vars m0))))
  end.
  rewrite seq_skip.
  eexists. split; [reflexivity|].
  cbn [with_vars with_status expanded with_dates m_vars m_fs m_cwd m_trace fst].
  rewrite text_lit.
  split; [reflexivity|]. split; [reflexivity|]. split; [reflexivity|].
  split; [now apply expand_assign|].
  split; [|split].
  - rewrite expand_assign_ne by discriminate. unfold expand.
    rewrite lookup_insert_ne by discriminate. subst st1.
    now rewrite lookup_declare_ne.
  - rewrite expand_assign_ne by discriminate. unfold expand.
    rewrite lookup_insert_ne by discriminate. subst st1.
    now rewrite lookup_declare_ne.
  - intros name H1' H2' H3'. rewrite lookup_assign_ne by congruence.
    rewrite lookup_insert_ne by congruence. subst st1.
    now rewrite lookup_declare_ne by congruence.
Qed.

(** X13. Outside POSIX mode, when no list of scripts is there before
    line 51 and the log file is the one the script names and can be
    opened, a run that passes the three checks starts [python3] once if
    [main.py] is a file of the directory that [CODE_DIR] names by then,
    and not at all if it is not. *)
Theorem main_py_runs_once_if_found :
  checks_pass w = true -> stays_default w = true ->
  can_append (w_fs w) log_file = true ->
  expand "CRON_LOG_FILE" (vars_after_env w) = log_file ->
  vars_after_env w !! "scripts_to_run" = None ->
  python3_runs (m_trace (last_state (run_main w)))
  = if is_file (w_fs w) (abs code_dir (expand "CODE_DIR" (vars_after_env w) +:+ "/main.py"))
    then 1 else 0.
Proof.
  intros Hpass Hdef Hcan Hlog Hnone.
  destruct (prepare_goes w Hpass (or_intror Hdef)) as (m1 & E1).
  destruct (run_main_going w m1 E1) as (m2 & m3 & E2 & E3 & Erun & _).
  unfold vars_after_env in *. rewrite E1 in Hlog, Hnone |- *.
  cbn [last_state] in Hlog, Hnone |- *. rewrite Erun. cbn [last_state].
  pose proof (prepare_spec w) as Hp. rewrite E1 in Hp.
  destruct Hp as (_ & (Hcwd & Hlike) & _).
  pose proof (bounded_prepare w (boot w)) as (Hgrow & _ & ev1 & T1 & N1).
  rewrite E1 in Hgrow, T1. cbn [last_state boot m_fs m_trace] in Hgrow, T1.
  assert (Hcan1 : can_append (m_fs m1) log_file = true)
    by (apply (can_append_grows (w_fs w)); assumption).
  destruct (run_scripts_single m1 Hnone) as (mA & EA & FA & CA & TA & SA & DA & LA & _).
  rewrite EA in E2.
  assert (Hpath : script_path mA = expand "CODE_DIR" (m_vars m1) +:+ "/main.py").
  { unfold script_path. now rewrite DA, SA. }
  assert (Hfound : script_found mA
                   = is_file (w_fs w)
                       (abs code_dir (expand "CODE_DIR" (m_vars m1) +:+ "/main.py"))).
  { unfold script_found. rewrite Hpath, CA, Hcwd, FA.
    apply (is_file_like w m1); [exact Hlike | apply main_py_not_log]. }
  assert (Hopens : log_opens mA = true).
  { unfold log_opens, log_target. rewrite LA, Hlog, CA, FA, log_file_abs, log_file_named.
    exact Hcan1. }
  assert (Hturn : exists events,
             m_trace m2 = m_trace m1 ++ events
             /\ python3_runs events = if script_found mA then 1 else 0).
  { destruct (script_found mA) eqn:Hf.
    - destruct (run_script_found w mA Hf)
        as (m' & e1 & e2 & e3 & p & e5 & e6 & E & T & H1 & H2 & H3 & H5 & H6 & Hpy & _).
      assert (m' = m2) by congruence. subst m'.
      eexists. split; [rewrite T, TA; reflexivity|].
      unfold python3_runs. cbn [List.filter]. rewrite H1, H2, H3, H5, H6, Hpy, Hopens.
      reflexivity.
    - destruct (run_script_missing w mA Hf) as (m' & e & E & T & He & _).
      assert (m' = m2) by congruence. subst m'.
      eexists. split; [rewrite T, TA; reflexivity|].
      unfold python3_runs. cbn [List.filter]. now rewrite He. }
  destruct Hturn as (ev2 & T2 & N2). rewrite Hfound in N2.
  unfold finish in E3.
  destruct (echo_step w [Lit "\n\n"; Date true; Lit " - Finished run_main.sh"] m2)
    as (m2' & e1 & F1 & _ & _ & _ & _ & T3 & He1 & _).
  rewrite (seq_go _ _ _ _ F1) in E3.
  destruct (echo_step w [Lit end_banner] m2')
    as (m3' & e2 & F2 & _ & _ & _ & _ & T4 & He2 & _).
  assert (m3' = m3) by congruence. subst m3'.
  assert (P1 : python3_runs [e1] = 0)
    by (unfold python3_runs; cbn [List.filter]; now rewrite He1).
  assert (P2 : python3_runs [e2] = 0)
    by (unfold python3_runs; cbn [List.filter]; now rewrite He2).
  rewrite T4, T3, T2, T1, !python3_runs_app, N2, P1, P2.
  change (python3_runs []) with 0. lia.
Qed.

(** X21. In such a run with [main.py] in its place, [python3] is given
    the path [$CODE_DIR/main.py] and the environment that the loading
    of [.env] left: the lines of the loop (lines 47 to 55) change
    nothing of it but what [script], [script_path], [scripts] and
    [scripts_to_run] may hold, the variables that bash computes apart.
    Its output is what goes into the log file. *)
Theorem main_py_gets_the_environment :
  checks_pass w = true -> stays_default w = true ->
  can_append (w_fs w) log_file = true ->
  expand "CRON_LOG_FILE" (vars_after_env w) = log_file ->
  vars_after_env w !! "scripts_to_run" = None ->
  is_file (w_fs w) (abs code_dir (expand "CODE_DIR" (vars_after_env w) +:+ "/main.py")) = true ->
  exists n env,
    In (Python3 (expand "CODE_DIR" (vars_after_env w) +:+ "/main.py") log_file
          (fst (w_python3 w n env (expand "CODE_DIR" (vars_after_env w) +:+ "/main.py")))
          (snd (w_python3 w n env (expand "CODE_DIR" (vars_after_env w) +:+ "/main.py"))))
       (m_trace (last_state (run_main w)))
    /\ forall name,
         name <> "script" -> name <> "script_path" ->
         name <> "scripts" -> name <> "scripts_to_run" ->
         is_computed name = false ->
         env !! name = environ (vars_after_env w) !! name.
Proof.
  intros Hpass Hdef Hcan Hlog Hnone Hmain.
  destruct (prepare_goes w Hpass (or_intror Hdef)) as (m1 & E1).
  destruct (run_main_going w m1 E1) as (m2 & m3 & E2 & E3 & Erun & _).
  unfold vars_after_env in *. rewrite E1 in Hlog, Hnone, Hmain |- *.
  cbn [last_state] in Hlog, Hnone, Hmain |- *. rewrite Erun. cbn [last_state].
  pose proof (prepare_spec w) as Hp. rewrite E1 in Hp.
  destruct Hp as (_ & (Hcwd & Hlike) & _).
  pose proof (bounded_prepare w (boot w)) as (Hgrow & _).
  rewrite E1 in Hgrow. cbn [last_state boot m_fs] in Hgrow.
  assert (Hcan1 : can_append (m_fs m1) log_file = true)
    by (apply (can_append_grows (w_fs w)); assumption).
  destruct (run_scripts_single m1 Hnone) as (mA & EA & FA & CA & TA & SA & DA & LA & VA).
  rewrite EA in E2.
  assert (Hpath : script_path mA = expand "CODE_DIR" (m_vars m1) +:+ "/main.py").
  { unfold script_path. now rewrite DA, SA. }
  assert (Hfound : script_found mA = true).
  { unfold script_found. rewrite Hpath, CA, Hcwd, FA.
    rewrite (is_file_like w m1 _ Hlike (main_py_not_log _ _)). exact Hmain. }
  assert (Htarget : log_target mA = log_file).
  { unfold log_target. now rewrite LA, Hlog, log_file_abs. }
  assert (Hopens : log_opens mA = true).
  { unfold log_opens. rewrite Htarget, LA, Hlog, FA, log_file_named. exact Hcan1. }
  destruct (run_script_found w mA Hfound)
    as (m' & e1 & e2 & e3 & p & e5 & e6 & E & T & _ & _ & _ & _ & _ & _ & _ & _ & Hp).
  assert (m' = m2) by congruence. subst m'.
  specialize (Hp Hopens). rewrite Hpath, Htarget in Hp.
  pose proof (bounded_finish w m2) as (_ & _ & ev3 & T3 & _).
  rewrite E3 in T3. cbn [last_state] in T3.
  eexists _, _. split.
  - rewrite T3, T, <- Hp. apply in_or_app. left. apply in_or_app. right.
    do 3 right. now left.
  - intros name H1 H2 H3 H4 _. apply environ_same.
    rewrite lookup_assign_ne by congruence. now apply VA.
Qed.

End Run.

Lemma main_py_runs_once_if_found_witness :
  python3_runs (m_trace (last_state (run_main usual)))
  = (if is_file (w_fs usual)
          (abs code_dir (expand "CODE_DIR" (vars_after_env usual) +:+ "/main.py"))
     then 1 else 0)
  /\ python3_runs (m_trace (last_state (run_main main_missing)))
     = (if is_file (w_fs main_missing)
             (abs code_dir (expand "CODE_DIR" (vars_after_env main_missing) +:+ "/main.py"))
        then 1 else 0).
Proof.
  split.
  - apply (main_py_runs_once_if_found usual); vm_compute; reflexivity.
  - apply (main_py_runs_once_if_found main_missing); vm_compute; reflexivity.
Defined.

Lemma main_py_gets_the_environment_witness :
  exists n env,
    In (Python3 (expand "CODE_DIR" (vars_after_env usual) +:+ "/main.py") log_file
          (fst (w_python3 usual n env (expand "CODE_DIR" (vars_after_env usual) +:+ "/main.py")))
          (snd (w_python3 usual n env (expand "CODE_DIR" (vars_after_env usual) +:+ "/main.py"))))
       (m_trace (last_state (run_main usual)))
    /\ forall name,
         name <> "script" -> name <> "script_path" ->
         name <> "scripts" -> name <> "scripts_to_run" ->
         is_computed name = false ->
         env !! name = environ (vars_after_env usual) !! name.
Proof. apply (main_py_gets_the_environment usual); vm_compute; reflexivity. Defined.

End Scripts.

(** ** [run_main.sh]: exit code, configuration, markers *)

Module RunMainSpec.
Import Text TextFacts Bash Shell ShellFacts RunMain EnvLoop Frame Checks Samples Effects Cases
  EnvFile Turn Stages.

Local Open Scope list_scope.
Local Open Scope cmd_scope.

Lemma no_python_yet (w : world) :
  python3_runs (m_trace (last_state (prepare w (boot w)))) = 0.
Proof.
  pose proof (bounded_prepare w (boot w)) as (_ & _ & events & Ht & Hn).
  cbn [boot m_trace] in Ht. rewrite Ht. simpl. lia.
Qed.




(** In POSIX mode a line of [.env] can end the run: a read-only name or
    an array element with status 1, a key with a leading dash with
    status 2; [python3] is not started. *)
Example refused_export_ends_the_run :
  (exit_code (run_main strict) = 1%Z
   /\ python3_runs (m_trace (last_state (run_main strict))) = 0)
  /\ (exit_code (run_main strict_option) = 2%Z
      /\ python3_runs (m_trace (last_state (run_main strict_option))) = 0)
  /\ (exit_code (run_main strict_start) = 1%Z
      /\ python3_runs (m_trace (last_state (run_main strict_start))) = 0).
Proof. repeat split; vm_compute; reflexivity. Qed.

(** C3. Without a [.env] file in the code directory the wrapper ends
    with [exit 1], and [python3] has not been started. *)
Theorem no_dotenv_no_python (w : world) :
  env_ok w = false ->
  exists m, run_main w = Halt 1 m /\ python3_runs (m_trace m) = 0.
Proof.
  intros Henv.
  assert (Hfail : checks_pass w = false).
  { unfold checks_pass. rewrite Henv. apply andb_false_r. }
  destruct (run_main_failing w Hfail) as (m & E & Erun & _).
  exists m. split; [exact Erun|].
  pose proof (no_python_yet w) as Hn. now rewrite E in Hn.
Qed.

Lemma no_dotenv_no_python_witness :
  exists m, run_main no_dotenv = Halt 1 m /\ python3_runs (m_trace m) = 0.
Proof. apply (no_dotenv_no_python no_dotenv). vm_compute. reflexivity. Defined.

Lemma end_marker_suffix (t : string) : has_suffix finished (end_marker t) = true.
Proof. unfold end_marker. rewrite <- app_assoc. apply has_suffix_app. Qed.

Lemma quiet_no_end (trace : list event) :
  quiet trace -> forall file t, ~ In (Echo file (end_marker t)) trace.
Proof.
  intros Hq file t Hin. unfold quiet in Hq. rewrite List.Forall_forall in Hq.
  specialize (Hq _ Hin). cbv beta iota delta [is_end_echo] in Hq.
  rewrite end_marker_suffix in Hq. discriminate Hq.
Qed.

(** C6 (amended). An invocation that runs to its last line, with the
    log file writable and still named by [CRON_LOG_FILE], has appended
    to the log file a start marker and, later, an end marker, each with
    the output of a [date] call. An invocation that is ended before, at
    one of the three checks or by a failing [export] in POSIX mode, has
    written no end marker. The wrapper is ended, with [exit 1], when
    one of the three checks fails; it runs to its last line when they
    pass and bash stays out of POSIX mode. *)
Theorem markers_of_a_run (w : world) :
  (forall m,
     run_main w = Go m ->
     can_append (w_fs w) log_file = true ->
     expand "CRON_LOG_FILE" (m_vars m) = log_file ->
     exists n1 n2 a1 a2 a3,
       In (Echo log_file (start_marker (w_date w false n1))) (m_trace m)
       /\ In (Echo log_file (end_marker (w_date w true n2))) (m_trace m)
       /\ contents (m_fs m) log_file
          = contents (w_fs w) log_file +:+ a1
            +:+ echo_e (w_wctomb w) (start_marker (w_date w false n1)) +:+ a2
            +:+ echo_e (w_wctomb w) (end_marker (w_date w true n2)) +:+ a3)
  /\ (forall z m,
        run_main w = Halt z m ->
        forall file t, ~ In (Echo file (end_marker t)) (m_trace m))
  /\ (checks_pass w = false -> exists m, run_main w = Halt 1 m)
  /\ (checks_pass w = true -> stays_default w = true -> exists m, run_main w = Go m).
Proof.
  split; [|split; [|split]].
  - intros m Erun Hcan Hlog.
    destruct (prepare w (boot w)) as [m1|z1 m1] eqn:E1;
      [|rewrite (run_main_stopped w _ _ E1) in Erun; discriminate Erun].
    destruct (run_main_going w m1 E1) as (m2 & m3 & E2 & E3 & Erun' & V3).
    assert (m3 = m) by congruence. subst m3. rewrite V3 in Hlog.
    pose proof (prepare_spec w) as Hp. rewrite E1 in Hp.
    destruct Hp as (_ & _ & Hstart).
    destruct (Hstart Hcan) as (n1 & a1 & a2 & Hin1 & Hc1).
    pose proof (bounded_prepare w (boot w)) as B1. rewrite E1 in B1.
    pose proof (within_run_scripts w m1) as B2. rewrite E2 in B2.
    pose proof (bounded_finish w m2) as B3. rewrite E3 in B3.
    cbn [last_state boot m_fs] in B1, B2, B3.
    assert (Hcan2 : can_append (m_fs m2) log_file = true).
    { apply (can_append_grows (m_fs m1)); [apply B2|].
      apply (can_append_grows (w_fs w)); [apply B1 | exact Hcan]. }
    destruct (finish_spec w m2 Hlog Hcan2) as (m3' & E3' & _ & Hin2 & a3 & Hc3).
    assert (m3' = m) by congruence. subst m3'.
    destruct B2 as ((_ & _ & Hg2) & _ & ev2 & Ht2 & _).
    destruct (Hg2 log_file) as (_ & b & Hb).
    destruct B3 as (_ & _ & ev3 & Ht3 & _).
    exists n1, (m_dates m2), a1, (a2 +:+ b), a3. split; [|split].
    + rewrite Ht3, Ht2. apply in_or_app. left. apply in_or_app. now left.
    + exact Hin2.
    + rewrite Hc3, Hb, Hc1, !app_assoc. reflexivity.
  - intros z m Erun. apply quiet_no_end. exact (halted_quiet w z m Erun).
  - intros Hfail. destruct (run_main_failing w Hfail) as (m & _ & Erun & _). eauto.
  - intros Hpass Hdef. destruct (prepare_goes w Hpass (or_intror Hdef)) as (m1 & E1).
    destruct (run_main_going w m1 E1) as (m2 & m3 & _ & _ & Erun & _). eauto.
Qed.

Lemma markers_of_a_run_witness :
  (exists n1 n2 a1 a2 a3,
      In (Echo log_file (start_marker (w_date usual false n1)))
         (m_trace (last_state (run_main usual)))
      /\ In (Echo log_file (end_marker (w_date usual true n2)))
            (m_trace (last_state (run_main usual)))
      /\ contents (m_fs (last_state (run_main usual))) log_file
         = contents (w_fs usual) log_file +:+ a1
           +:+ echo_e (w_wctomb usual) (start_marker (w_date usual false n1)) +:+ a2
           +:+ echo_e (w_wctomb usual) (end_marker (w_date usual true n2)) +:+ a3)
  /\ (forall file t, ~ In (Echo file (end_marker t)) (m_trace (last_state (run_main strict))))
  /\ (exists m, run_main no_dotenv = Halt 1 m)
  /\ exists m, run_main usual = Go m.
Proof.
  split; [|split; [|split]].
  - apply (proj1 (markers_of_a_run usual) (last_state (run_main usual)));
      vm_compute; reflexivity.
  - apply (proj1 (proj2 (markers_of_a_run strict)) 1%Z (last_state (run_main strict))).
    vm_compute. reflexivity.
  - apply (proj1 (proj2 (proj2 (markers_of_a_run no_dotenv)))). vm_compute. reflexivity.
  - apply (proj2 (proj2 (proj2 (markers_of_a_run usual)))); vm_compute; reflexivity.
Defined.

(** C6, as stated, fails: with the activation script missing the
    wrapper writes its start marker, then the complaint, and exits with
    1; none of its writes is an end marker. *)
Lemma fatal_run_has_no_end_marker :
  exit_code (run_main no_venv) = 1%Z
  /\ forall file t, ~ In (Echo file (end_marker t)) (m_trace (last_state (run_main no_venv))).
Proof.
  split; [vm_compute; reflexivity|].
  intros file t.
  assert (Hall : Forall (fun e => match e with
                                  | Echo _ arg => has_suffix finished arg = false
                                  | _ => True
                                  end)
                        (m_trace (last_state (run_main no_venv)))).
  { vm_compute. repeat constructor. }
  intros Hin. rewrite List.Forall_forall in Hall. specialize (Hall _ Hin). cbv beta iota in Hall.
  rewrite end_marker_suffix in Hall. discriminate Hall.
Qed.

(** C7, as stated, fails: a [.env] line [scripts_to_run=main.py] sets
    the variable that line 51 extends, and [main.py] is run twice. *)
Lemma listed_script_runs_twice :
  python3_runs (m_trace (last_state (run_main listed_twice))) = 2.
Proof. vm_compute. reflexivity. Qed.

(** C4, as stated, fails: the key of [my-key=2] is not empty and does
    not begin with [#], and the line changes nothing of the
    environment. *)
Lemma dashed_key_not_exported :
  key_wanted (fst (read_fields "my-key=2")) = true
  /\ environ (m_vars (last_state (while_read usual ["my-key=2"] (boot usual))))
     = environ (m_vars (boot usual)).
Proof. split; vm_compute; reflexivity. Qed.

(** One turn of the loop on the line [CLIENT_ID=abc]; on the line
    [UID=5] in a shell that is in POSIX mode; on the line [my-key=2];
    on the line [RANDOM=4]. *)
Lemma dotenv_line_exported_witness :
  ((exists m', (read_into "CLIENT_ID=abc" ;; env_body usual) (boot usual) = Go m'
               /\ m_status m' = 0%Z)
   /\ expand "CLIENT_ID"
        (m_vars (last_state ((read_into "CLIENT_ID=abc" ;; env_body usual) (boot usual))))
      = "abc"
   /\ v_export <$> m_vars (last_state
                     ((read_into "CLIENT_ID=abc" ;; env_body usual) (boot usual)))
                   !! "CLIENT_ID" = Some true)
  /\ (m_vars (last_state ((read_into "UID=5" ;; env_body strict_start) (boot strict_start)))
        !! "UID"
      = (fun x => Var (v_value x) true) <$> m_vars (boot strict_start) !! "UID"
      /\ m_status (last_state ((read_into "UID=5" ;; env_body strict_start)
                                 (boot strict_start))) = 1%Z
      /\ (read_into "UID=5" ;; env_body strict_start) (boot strict_start)
         = (if posix (m_vars (boot strict_start)) then Halt 1%Z else Go)
             (last_state ((read_into "UID=5" ;; env_body strict_start) (boot strict_start))))
  /\ ((forall name, name <> "key" -> name <> "value" -> is_computed name = false ->
         m_vars (last_state ((read_into "my-key=2" ;; env_body usual) (boot usual))) !! name
         = m_vars (boot usual) !! name)
      /\ m_status (last_state ((read_into "my-key=2" ;; env_body usual) (boot usual)))
         = (if starts_with "-" "my-key" then 2%Z else 1%Z)
      /\ (read_into "my-key=2" ;; env_body usual) (boot usual)
         = (if posix (m_vars (boot usual))
               && (starts_with "-" "my-key"
                   || assigns_element (w_element usual) ("my-key" +:+ "=" +:+ "2"))
            then Halt (if starts_with "-" "my-key" then 2%Z else 1%Z) else Go)
             (last_state ((read_into "my-key=2" ;; env_body usual) (boot usual))))
  /\ exists m', (read_into "RANDOM=4" ;; env_body usual) (boot usual) = Go m'
                /\ m_status m' = 0%Z.
Proof.
  split; [|split; [|split]].
  - apply (proj1 (proj2 (proj2 (proj2 (dotenv_line_exported usual "CLIENT_ID=abc" [] (boot usual)))))).
    reflexivity.
  - apply (proj1 (proj2 (proj2 (proj2 (proj2 (proj2
             (dotenv_line_exported strict_start "UID=5" [] (boot strict_start)))))))
             "UID");
      reflexivity.
  - apply (proj1 (proj2 (proj2 (proj2 (proj2 (proj2 (proj2 (proj2
             (dotenv_line_exported usual "my-key=2" [] (boot usual))))))))));
      reflexivity.
  - apply (proj1 (proj2 (proj2 (proj2 (proj2 (proj2 (proj2
             (dotenv_line_exported usual "RANDOM=4" [] (boot usual)))))))) "RANDOM");
      reflexivity.
Defined.

(** C10. The wrapper on the line [KEY=a=]: [KEY] is exported with the
    value [a], the ['='] that ends the line is lost. *)
Lemma trailing_equals_dropped :
  environ (m_vars (last_state ((read_into "KEY=a=" ;; env_body usual) (boot usual))))
    !! "KEY" = Some "a".
Proof. vm_compute. reflexivity. Qed.

Lemma later_equals_kept_witness :
  expand "KEY" (m_vars (last_state
                  ((read_into ("KEY" +:+ "=" +:+ "a=b") ;; env_body usual) (boot usual))))
  = "a=b"
  /\ v_export <$> m_vars (last_state
                    ((read_into ("KEY" +:+ "=" +:+ "a=b") ;; env_body usual) (boot usual)))
                  !! "KEY" = Some true.
Proof. apply (later_equals_kept usual "KEY" "a=b" (boot usual)); reflexivity. Defined.

End RunMainSpec.

(** ** [echo -e] on a text without backslash *)

Module EchoFacts.
Import Text TextFacts Bash.

Local Arguments Ascii.eqb : simpl never.

(** X18. The log lines of the wrapper are written with [echo -e]: a
    text in which no backslash occurs, be it in the expansion of a
    variable or in the output of [date], is written as it is, followed
    by a newline. *)
Theorem echo_writes_plain_text_as_is (wctomb : N -> string) (s : string) :
  has_char backslash s = false -> echo_e wctomb s = s +:+ String nl "".
Proof.
  unfold echo_e. induction s as [|c r IH]; intros H; [reflexivity|].
  cbn [has_char] in H. apply orb_false_elim in H as [Hc Hr].
  cbn [scan step]. unfold plain_step. rewrite Ascii.eqb_sym, Hc.
  rewrite (IH Hr), !app_cons, app_nil_l. reflexivity.
Qed.

Lemma echo_writes_plain_text_as_is_witness :
  echo_e (fun _ => "") "Running python file: /srv/main.py"
  = "Running python file: /srv/main.py" +:+ String nl "".
Proof. apply (echo_writes_plain_text_as_is (fun _ => "")). reflexivity. Defined.

End EchoFacts.
